(** * ConfigManager (config.py): layered configuration resolution

    A shallow embedding of [src/config.py].  Python objects are modelled the
    way the interpreter has them: dictionaries are mutable objects living in a
    store, reached through references, so that the sharing created by
    [dict.copy()] and by assignments of the form [base[key] = value] is
    visible.  Exceptions are explicit results.

    Modelling boundaries, stated once:
    - strings are ASCII text ([string]); [lower], [upper] and [strip] act on
      ASCII letters and ASCII white space, other codes are left alone, and
      [int()] and [float()] read ASCII digits; what is stated about the case
      of letters or about the parse of an arbitrary text is stated for the
      texts that satisfy [PyStr.is_ascii];
    - floats are IEEE binary64 values ([spec_float], precision 53, emax 1024);
      decimal text is rounded to nearest-even as [float()] does;
    - [int()] refuses more than 4300 digits, the interpreter's default for
      its configurable limit;
    - [logging.info] / [logging.error] calls only feed the logging sink; the
      records written by [validate_config] are kept (they tell which check
      failed), the others are left out. *)

From Stdlib Require Import ZArith String Ascii List Bool Lia.
From Stdlib Require Import Floats.SpecFloat.
From stdpp Require Import base list strings sets.

Import ListNotations.
Local Open Scope string_scope.
Local Open Scope Z_scope.
Local Open Scope list_scope.

(** ** Python strings *)

Module PyStr.

Definition code (c : ascii) : N := N_of_ascii c.

(** [str.isspace] on ASCII: TAB, LF, VT, FF, CR, FS, GS, RS, US, SPACE. *)
Definition is_space (c : ascii) : bool :=
  let n := code c in
  ((9 <=? n) && (n <=? 13) || (28 <=? n) && (n <=? 32))%N.

Definition is_digit (c : ascii) : bool :=
  let n := code c in ((48 <=? n) && (n <=? 57))%N.

Definition digit_val (c : ascii) : Z := Z.of_N (code c) - 48.

Definition lower_char (c : ascii) : ascii :=
  let n := code c in
  if ((65 <=? n) && (n <=? 90))%N then ascii_of_N (n + 32) else c.

Definition upper_char (c : ascii) : ascii :=
  let n := code c in
  if ((97 <=? n) && (n <=? 122))%N then ascii_of_N (n - 32) else c.

Fixpoint smap (f : ascii -> ascii) (s : string) : string :=
  match s with
  | EmptyString => EmptyString
  | String c r => String (f c) (smap f r)
  end.

Definition lower : string -> string := smap lower_char.
Definition upper : string -> string := smap upper_char.

Fixpoint lstrip (s : string) : string :=
  match s with
  | String c r => if is_space c then lstrip r else s
  | EmptyString => EmptyString
  end.

Fixpoint rstrip (s : string) : string :=
  match s with
  | EmptyString => EmptyString
  | String c r =>
      match rstrip r with
      | EmptyString => if is_space c then EmptyString else String c EmptyString
      | r' => String c r'
      end
  end.

Definition strip (s : string) : string := rstrip (lstrip s).

(** [c in s] for a one-character [c]. *)
Fixpoint contains_char (c : ascii) (s : string) : bool :=
  match s with
  | EmptyString => false
  | String x r => Ascii.eqb x c || contains_char c r
  end.

(** [s.split(c)]: always at least one piece. *)
Fixpoint split (c : ascii) (s : string) : list string :=
  match s with
  | EmptyString => [EmptyString]
  | String x r =>
      if Ascii.eqb x c then EmptyString :: split c r
      else match split c r with
           | w :: ws => String x w :: ws
           | [] => [String x EmptyString]
           end
  end.

(** [s.split(c, 1)] when [c] occurs in [s]: the text before and after the
    first occurrence. *)
Fixpoint split_first (c : ascii) (s : string) : option (string * string) :=
  match s with
  | EmptyString => None
  | String x r =>
      if Ascii.eqb x c then Some (EmptyString, r)
      else match split_first c r with
           | Some (a, b) => Some (String x a, b)
           | None => None
           end
  end.

Definition startswith_char (c : ascii) (s : string) : bool :=
  match s with
  | String x _ => Ascii.eqb x c
  | EmptyString => false
  end.

Definition in_list (s : string) (l : list string) : bool :=
  existsb (String.eqb s) l.

(** Text made of ASCII characters only (codes below 128). *)
Fixpoint is_ascii (s : string) : bool :=
  match s with
  | EmptyString => true
  | String c r => (code c <? 128)%N && is_ascii r
  end.

End PyStr.

(** ** The builtins [int()] and [float()] on strings *)

Module PyNum.
Import PyStr.

Definition float := spec_float.
Definition prec : Z := 53.
Definition emax : Z := 1024.

(** The white space [int()] and [float()] skip around the number: TAB, LF,
    VT, FF, CR and SPACE.  Unlike [str.strip], they do not skip FS, GS, RS
    and US (codes 28 to 31). *)
Definition is_cspace (c : ascii) : bool :=
  let n := code c in ((9 <=? n) && (n <=? 13) || (n =? 32))%N.

Fixpoint skip_leading (s : string) : string :=
  match s with
  | String c r => if is_cspace c then skip_leading r else s
  | EmptyString => EmptyString
  end.

Fixpoint skip_trailing (s : string) : string :=
  match s with
  | EmptyString => EmptyString
  | String c r =>
      match skip_trailing r with
      | EmptyString => if is_cspace c then EmptyString else String c EmptyString
      | r' => String c r'
      end
  end.

Definition skip_spaces (s : string) : string := skip_trailing (skip_leading s).

(** The default of [sys.get_int_max_str_digits()]. *)
Definition int_max_str_digits : Z := 4300.

(** digitpart ::= digit (["_"] digit)* *)
Fixpoint digitpart_from (after_digit : bool) (s : string) : bool :=
  match s with
  | EmptyString => after_digit
  | String c r =>
      if is_digit c then digitpart_from true r
      else if Ascii.eqb c "_" then after_digit && digitpart_from false r
      else false
  end.

Definition is_digitpart (s : string) : bool := digitpart_from false s.

(** Value of the digits of [s], underscores skipped, most significant
    first, continuing from [acc]. *)
Fixpoint digits_value (acc : Z) (s : string) : Z :=
  match s with
  | EmptyString => acc
  | String c r =>
      if is_digit c then digits_value (10 * acc + digit_val c) r
      else digits_value acc r
  end.

Fixpoint count_digits (s : string) : Z :=
  match s with
  | EmptyString => 0
  | String c r => (if is_digit c then 1 else 0) + count_digits r
  end.

(** An optional sign: [(negative, rest)]. *)
Definition take_sign (s : string) : bool * string :=
  match s with
  | String "-" r => (true, r)
  | String "+" r => (false, r)
  | _ => (false, s)
  end.

(** [int(s)]: [None] stands for [ValueError], which is also what more
    digits than the limit give. *)
Definition py_int (s : string) : option Z :=
  let '(neg, body) := take_sign (skip_spaces s) in
  if is_digitpart body && (count_digits body <=? int_max_str_digits)
  then Some (if neg then - digits_value 0 body else digits_value 0 body)
  else None.

(** The binary64 value nearest to [m * 10^e] (ties to even). *)
Definition float_of_decimal (neg : bool) (m : Z) (e : Z) : float :=
  match m with
  | Zpos p =>
      if 0 <=? e
      then binary_round prec emax neg (p * Z.to_pos (10 ^ e)) 0
      else SFdiv prec emax (S754_finite neg p 0)
                           (S754_finite false (Z.to_pos (10 ^ (- e))) 0)
  | _ => S754_zero neg
  end.

(** exponent ::= [sign] digitpart, after the letter e. *)
Definition parse_exponent (s : string) : option Z :=
  let '(neg, body) := take_sign s in
  if is_digitpart body
  then Some (if neg then - digits_value 0 body else digits_value 0 body)
  else None.

(** number ::= [digitpart] "." digitpart | digitpart ["."] ;
    the result is the digit string's value and the number of digits after
    the point. *)
Definition parse_number (s : string) : option (Z * Z) :=
  match split_first "." s with
  | None => if is_digitpart s then Some (digits_value 0 s, 0) else None
  | Some (ip, fp) =>
      let ok_ip := String.eqb ip "" || is_digitpart ip in
      let ok_fp := String.eqb fp "" || is_digitpart fp in
      if ok_ip && ok_fp && negb (String.eqb ip "" && String.eqb fp "")
      then Some (digits_value (digits_value 0 ip) fp, count_digits fp)
      else None
  end.

(** Position of the exponent letter, if any. *)
Fixpoint split_exp (s : string) : string * option string :=
  match s with
  | EmptyString => (EmptyString, None)
  | String c r =>
      if Ascii.eqb c "e" || Ascii.eqb c "E" then (EmptyString, Some r)
      else let '(a, b) := split_exp r in (String c a, b)
  end.

(** [float(s)]: [None] stands for [ValueError]. *)
Definition py_float (s : string) : option float :=
  let '(neg, body) := take_sign (skip_spaces s) in
  let lb := lower body in
  if String.eqb lb "inf" || String.eqb lb "infinity" then Some (S754_infinity neg)
  else if String.eqb lb "nan" then Some S754_nan
  else
    let '(mant, ex) := split_exp body in
    match parse_number mant with
    | None => None
    | Some (m, nfrac) =>
        match ex with
        | None => Some (float_of_decimal neg m (- nfrac))
        | Some es =>
            match parse_exponent es with
            | None => None
            | Some e => Some (float_of_decimal neg m (e - nfrac))
            end
        end
    end.

Definition fzero : float := S754_zero false.

End PyNum.

(** ** Values, dictionaries and the object store *)

(** A parsed JSON document, as [json.load] returns it and [json.dump] reads
    it: a tree.  The members of an object are listed in insertion order. *)
#[local] Unset Elimination Schemes.
Inductive json : Type :=
| JNull
| JBool (b : bool)
| JInt (n : Z)
| JFloat (f : PyNum.float)
| JStr (s : string)
| JArr (items : list json)
| JObj (members : list (string * json)).
#[local] Set Elimination Schemes.

(** Addresses of dictionary objects in the store. *)
Abbreviation addr := nat (only parsing).

(** A Python value held by the configuration.  A dictionary is a reference
    into the store.  Nothing in config.py mutates a list or subscripts one
    successfully (a string key on a list raises [TypeError]), so a list and
    what it holds is kept as an immutable tree. *)
Inductive value : Type :=
| VNone
| VBool (b : bool)
| VInt (n : Z)
| VFloat (f : PyNum.float)
| VStr (s : string)
| VList (items : list json)
| VDict (a : addr).

Inductive exn : Type :=
| KeyError | TypeError | ValueError | AttributeError.

Inductive result (A : Type) : Type :=
| Ok (x : A)
| Raise (e : exn).
Arguments Ok {A} x.
Arguments Raise {A} e.

Definition bind {A B} (m : result A) (k : A -> result B) : result B :=
  match m with
  | Ok x => k x
  | Raise e => Raise e
  end.

#[export] Instance result_bind : MBind result := fun A B k m => bind m k.
#[export] Instance result_ret : MRet result := fun A x => Ok x.

(** Insertion-ordered association lists: Python's [dict] and [os.environ]. *)
Module Alist.
Section Ops.
Context {V : Type}.

Fixpoint get (d : list (string * V)) (k : string) : option V :=
  match d with
  | [] => None
  | (k', v) :: r => if String.eqb k' k then Some v else get r k
  end.

(** [d[k] = v]: the entry keeps its place when the key exists, and goes
    to the end otherwise. *)
Fixpoint set (d : list (string * V)) (k : string) (v : V) : list (string * V) :=
  match d with
  | [] => [(k, v)]
  | (k', v') :: r =>
      if String.eqb k' k then (k', v) :: r else (k', v') :: set r k v
  end.

Definition has (d : list (string * V)) (k : string) : bool :=
  match get d k with Some _ => true | None => false end.

Definition keys (d : list (string * V)) : list string := map fst d.
End Ops.
End Alist.

(** A dictionary object, and the store: the dictionary objects created so
    far, by address. *)
Abbreviation dict := (list (string * value)) (only parsing).
Abbreviation heap := (list (list (string * value))) (only parsing).

(** The dictionary stored at [a]. *)
Definition deref (h : heap) (a : addr) : dict := h !!! a.

Definition store (h : heap) (a : addr) (d : dict) : heap := <[a := d]> h.

(** A new dictionary object. *)
Definition alloc (d : dict) (h : heap) : addr * heap := (List.length h, h ++ [d]).

(** The objects [json.load] creates for a document (and the ones a dict
    display creates): the members first, then the dictionary holding them. *)
Fixpoint alloc_json (j : json) (h : heap) : value * heap :=
  match j with
  | JNull => (VNone, h)
  | JBool b => (VBool b, h)
  | JInt n => (VInt n, h)
  | JFloat f => (VFloat f, h)
  | JStr s => (VStr s, h)
  | JArr l => (VList l, h)
  | JObj ms =>
      let '(d, h1) :=
        (fix members (ms : list (string * json)) (h : heap) : dict * heap :=
           match ms with
           | [] => ([], h)
           | (k, j') :: r =>
               let '(v, h1) := alloc_json j' h in
               let '(d, h2) := members r h1 in
               ((k, v) :: d, h2)
           end) ms h in
      let '(a, h2) := alloc d h1 in
      (VDict a, h2)
  end.

Definition alloc_members : list (string * json) -> heap -> dict * heap :=
  fix members (ms : list (string * json)) (h : heap) : dict * heap :=
    match ms with
    | [] => ([], h)
    | (k, j') :: r =>
        let '(v, h1) := alloc_json j' h in
        let '(d, h2) := members r h1 in
        ((k, v) :: d, h2)
    end.

(** What [json.dump] reads from a value: [None] when it meets a circular
    reference ([ValueError]).  A chain of more references than the store has
    objects goes through one of them twice. *)
Fixpoint dump_value (fuel : nat) (h : heap) (v : value) : option json :=
  match v with
  | VNone => Some JNull
  | VBool b => Some (JBool b)
  | VInt n => Some (JInt n)
  | VFloat f => Some (JFloat f)
  | VStr s => Some (JStr s)
  | VList l => Some (JArr l)
  | VDict a =>
      match fuel with
      | O => None
      | S fuel' =>
          option_map JObj
            ((fix entries (d : dict) : option (list (string * json)) :=
                match d with
                | [] => Some []
                | (k, v') :: r =>
                    match dump_value fuel' h v', entries r with
                    | Some j, Some js => Some ((k, j) :: js)
                    | _, _ => None
                    end
                end) (deref h a))
      end
  end.

Definition dump_entries (fuel : nat) (h : heap) : dict -> option (list (string * json)) :=
  fix entries (d : dict) : option (list (string * json)) :=
    match d with
    | [] => Some []
    | (k, v') :: r =>
        match dump_value fuel h v', entries r with
        | Some j, Some js => Some ((k, j) :: js)
        | _, _ => None
        end
    end.

Definition dump (h : heap) (v : value) : option json :=
  dump_value (S (List.length h)) h v.

(** ** Operators of the language, on these values *)

(** [obj[key]] with a string key. *)
Definition getitem (h : heap) (obj : value) (key : string) : result value :=
  match obj with
  | VDict a =>
      match Alist.get (deref h a) key with
      | Some v => Ok v
      | None => Raise KeyError
      end
  | _ => Raise TypeError
  end.

(** [obj[key] = v] with a string key. *)
Definition setitem (h : heap) (obj : value) (key : string) (v : value) : result heap :=
  match obj with
  | VDict a => Ok (store h a (Alist.set (deref h a) key v))
  | _ => Raise TypeError
  end.

Fixpoint is_substring (p s : string) : bool :=
  String.prefix p s ||
  match s with
  | String _ r => is_substring p r
  | EmptyString => false
  end.

(** [key in obj] with a string key: membership for a dictionary or a list,
    substring test for a string; the other types are not iterable. *)
Definition contains (h : heap) (obj : value) (key : string) : result bool :=
  match obj with
  | VDict a => Ok (Alist.has (deref h a) key)
  | VStr s => Ok (is_substring key s)
  | VList l =>
      Ok (existsb (fun j => match j with JStr s => String.eqb s key | _ => false end) l)
  | _ => Raise TypeError
  end.

(** Truth value of an object ([not x] is its negation). *)
Definition truthy (h : heap) (v : value) : bool :=
  match v with
  | VNone => false
  | VBool b => b
  | VInt n => negb (n =? 0)
  | VFloat f => match f with S754_zero _ => false | _ => true end
  | VStr s => negb (String.eqb s "")
  | VList l => match l with [] => false | _ => true end
  | VDict a => match deref h a with [] => false | _ => true end
  end.

(** [isinstance(v, (int, float))]; [bool] is a subclass of [int]. *)
Definition is_number (v : value) : bool :=
  match v with
  | VBool _ | VInt _ | VFloat _ => true
  | _ => false
  end.

(** [v <= 0] for a number. *)
Definition le_zero (v : value) : bool :=
  match v with
  | VBool b => negb b
  | VInt n => n <=? 0
  | VFloat f => SFleb f PyNum.fzero
  | _ => false
  end.

Definition is_str (v : value) : bool :=
  match v with VStr _ => true | _ => false end.

Definition is_dict (v : value) : bool :=
  match v with VDict _ => true | _ => false end.

(** ** The process: store, environment, files *)

Record world : Type := World {
  w_heap : heap;
  w_environ : list (string * string);   (* os.environ *)
  w_files : list (string * string)      (* path |-> text *)
}.

Definition with_heap (w : world) (h : heap) : world :=
  World h (w_environ w) (w_files w).

Definition os_getenv (w : world) (name : string) : option string :=
  Alist.get (w_environ w) name.

Definition NUL : ascii := Ascii.zero.

(** [os.environ[k] = v]: an empty name, a name with [=] and an embedded
    null are refused with [ValueError]. *)
Definition os_environ_set (env : list (string * string)) (k v : string)
  : result (list (string * string)) :=
  if String.eqb k "" || PyStr.contains_char "=" k
     || PyStr.contains_char NUL k || PyStr.contains_char NUL v
  then Raise ValueError
  else Ok (Alist.set env k v).

(** The lines a text file yields when iterated (universal newlines).  Each
    line is stripped by the caller and blank lines are skipped, so the line
    terminators are dropped here and CR LF may give an extra empty line. *)
Fixpoint text_lines (s : string) : list string :=
  match s with
  | EmptyString => [EmptyString]
  | String c r =>
      if Ascii.eqb c "010" || Ascii.eqb c "013" then EmptyString :: text_lines r
      else match text_lines r with
           | l :: ls => String c l :: ls
           | [] => [String c EmptyString]
           end
  end.

(** Records sent to [logging.error] by [validate_config]. *)
Inductive log_record : Type :=
| InvalidLimit (key : string) (v : value)     (* "Invalid {key}: {value}" *)
| InvalidSymbol (v : value)                   (* "Invalid default symbol: ..." *)
| InvalidLogLevel (v : value)                 (* "Invalid log level: ..." *)
| ValidationFailed                            (* "Configuration validation failed: ..." *)
| UnexpectedError (e : exn).                  (* "Unexpected error during validation: ..." *)

(** ** class ConfigManager *)

Record manager : Type := Manager {
  config_file : string;
  env_file : string;
  config : addr;        (* self.config *)
  defaults : addr       (* self.defaults *)
}.

Definition default_members : list (string * json) :=
  [ ("api", JObj [
       ("testnet", JBool true);
       ("timeout", JInt 30);
       ("retry_attempts", JInt 3);
       ("rate_limit_buffer", JFloat (PyNum.float_of_decimal false 1 (-1)))]);
    ("trading", JObj [
       ("default_symbol", JStr "BTCUSDT");
       ("max_quantity", JInt 1000);
       ("min_quantity", JFloat (PyNum.float_of_decimal false 1 (-3)));
       ("supported_symbols",
          JArr [JStr "BTCUSDT"; JStr "ETHUSDT"; JStr "ADAUSDT"; JStr "DOTUSDT"]);
       ("default_order_type", JStr "LIMIT")]);
    ("risk_management", JObj [
       ("max_daily_trades", JInt 50);
       ("max_position_size", JInt 100);
       ("enable_stop_loss", JBool true);
       ("stop_loss_percentage", JFloat (PyNum.float_of_decimal false 20 (-1)));
       ("take_profit_percentage", JFloat (PyNum.float_of_decimal false 50 (-1)))]);
    ("logging", JObj [
       ("log_level", JStr "INFO");
       ("max_log_size", JInt (10 * 1024 * 1024));
       ("log_backup_count", JInt 5);
       ("enable_trade_logging", JBool true);
       ("enable_error_logging", JBool true)]);
    ("ui", JObj [
       ("show_confirmations", JBool true);
       ("auto_refresh_account", JBool false);
       ("display_precision", JInt 8)])
  ].

Definition default_config : json := JObj default_members.

(** The table of [_load_from_env_vars], in its order. *)
Definition env_mappings : list (string * (string * string)) :=
  [ ("BINANCE_API_KEY", ("api", "key"));
    ("BINANCE_API_SECRET", ("api", "secret"));
    ("BINANCE_TESTNET", ("api", "testnet"));
    ("API_TIMEOUT", ("api", "timeout"));
    ("API_RETRY_ATTEMPTS", ("api", "retry_attempts"));
    ("DEFAULT_SYMBOL", ("trading", "default_symbol"));
    ("MAX_QUANTITY", ("trading", "max_quantity"));
    ("MIN_QUANTITY", ("trading", "min_quantity"));
    ("DEFAULT_ORDER_TYPE", ("trading", "default_order_type"));
    ("MAX_DAILY_TRADES", ("risk_management", "max_daily_trades"));
    ("MAX_POSITION_SIZE", ("risk_management", "max_position_size"));
    ("ENABLE_STOP_LOSS", ("risk_management", "enable_stop_loss"));
    ("STOP_LOSS_PERCENTAGE", ("risk_management", "stop_loss_percentage"));
    ("TAKE_PROFIT_PERCENTAGE", ("risk_management", "take_profit_percentage"));
    ("LOG_LEVEL", ("logging", "log_level"));
    ("MAX_LOG_SIZE", ("logging", "max_log_size"));
    ("LOG_BACKUP_COUNT", ("logging", "log_backup_count"));
    ("SHOW_CONFIRMATIONS", ("ui", "show_confirmations"));
    ("AUTO_REFRESH_ACCOUNT", ("ui", "auto_refresh_account"));
    ("DISPLAY_PRECISION", ("ui", "display_precision")) ].

(** [_get_default_config]: the dict display builds a new tree of objects at
    every call. *)
Definition _get_default_config (h : heap) : addr * heap :=
  let '(d, h1) := alloc_members default_members h in
  alloc d h1.

(** [_convert_env_value] *)
Definition _convert_env_value (text : string) : value :=
  if PyStr.in_list (PyStr.lower text) ["true"; "false"]
  then VBool (String.eqb (PyStr.lower text) "true")
  else
    match (if negb (PyStr.contains_char "." text)
           then PyNum.py_int text else None) with
    | Some n => VInt n
    | None =>
        match PyNum.py_float text with
        | Some f => VFloat f
        | None => VStr text
        end
    end.

(** [_deep_merge(base, update)].  Its one caller passes the document
    [json.load] has just returned, which nothing else refers to: the document
    is kept as a tree, and [base[key] = value] stores the objects of [value].
    [_deep_merge_item] is the body of the loop, for one item of
    [update.items()]; [_deep_merge] is the loop. *)
Fixpoint _deep_merge_item (h : heap) (base : addr) (key : string) (item : json)
  {struct item} : heap :=
  match Alist.get (deref h base) key, item with
  | Some (VDict b), JObj u =>
      (fix loop (u : list (string * json)) (h : heap) : heap :=
         match u with
         | [] => h
         | (k, j) :: r => loop r (_deep_merge_item h b k j)
         end) u h
  | _, _ =>
      let '(v, h1) := alloc_json item h in
      store h1 base (Alist.set (deref h1 base) key v)
  end.

Fixpoint _deep_merge (h : heap) (base : addr) (update : list (string * json)) : heap :=
  match update with
  | [] => h
  | (key, item) :: rest => _deep_merge (_deep_merge_item h base key item) base rest
  end.

(** [get(path, default)] *)
Fixpoint descend (h : heap) (current : value) (keys : list string) : result value :=
  match keys with
  | [] => Ok current
  | key :: rest => current' ← getitem h current key; descend h current' rest
  end.

Definition get (h : heap) (self : manager) (path : string) (default : value)
  : result value :=
  let keys := PyStr.split "." path in
  match descend h (VDict (config self)) keys with
  | Ok current => Ok current
  | Raise KeyError | Raise TypeError => Ok default
  | Raise e => Raise e
  end.

(** [set(path, value)] *)
Fixpoint navigate (h : heap) (current : value) (keys : list string)
  : result (value * heap) :=
  match keys with
  | [] => Ok (current, h)
  | key :: rest =>
      present ← contains h current key;
      h1 ← (if negb present
            then let '(a, h0) := alloc [] h in setitem h0 current key (VDict a)
            else Ok h);
      current' ← getitem h1 current key;
      navigate h1 current' rest
  end.

Definition set (h : heap) (self : manager) (path : string) (v : value)
  : result heap :=
  let keys := PyStr.split "." path in
  '(current, h1) ← navigate h (VDict (config self)) (removelast keys);
  setitem h1 current (List.last keys "") v.

(** [_create_safe_config] *)
Definition is_sensitive (k : string) : bool := PyStr.in_list k ["key"; "secret"].

Fixpoint safe_sections (h : heap) (safe_config : addr) (items : dict) : result heap :=
  match items with
  | [] => Ok h
  | (section, values) :: rest =>
      '(copy, h1) ←
        (if String.eqb section "api"
         then match values with
              | VDict a =>
                  let '(c, h1) :=
                    alloc (List.filter (fun kv => negb (is_sensitive (fst kv))) (deref h a)) h in
                  Ok (VDict c, h1)
              | _ => Raise AttributeError          (* no .items() *)
              end
         else match values with
              | VDict a => let '(c, h1) := alloc (deref h a) h in Ok (VDict c, h1)
              | VList l => Ok (VList l, h)         (* list.copy() *)
              | _ => Raise AttributeError          (* no .copy() *)
              end);
      h2 ← setitem h1 (VDict safe_config) section copy;
      safe_sections h2 safe_config rest
  end.

Definition _create_safe_config (h : heap) (self : manager) : result (addr * heap) :=
  let '(safe_config, h0) := alloc [] h in
  h1 ← safe_sections h0 safe_config (deref h (config self));
  Ok (safe_config, h1).

(** [get_api_credentials] *)
Definition get_api_credentials (h : heap) (self : manager) : result (value * value) :=
  api_key ← get h self "api.key" VNone;
  api_secret ← get h self "api.secret" VNone;
  if negb (truthy h api_key) || negb (truthy h api_secret)
  then Raise ValueError
  else Ok (api_key, api_secret).

Definition is_testnet (h : heap) (self : manager) : result value :=
  get h self "api.testnet" (VBool true).

Definition get_default_symbol (h : heap) (self : manager) : result value :=
  get h self "trading.default_symbol" (VStr "BTCUSDT").

(** [get_risk_limits]: the entries of the dictionary it returns, in order. *)
Definition get_risk_limits (h : heap) (self : manager) : result dict :=
  a ← get h self "risk_management.max_daily_trades" (VInt 50);
  b ← get h self "risk_management.max_position_size" (VInt 100);
  c ← get h self "trading.max_quantity" (VInt 1000);
  d ← get h self "trading.min_quantity" (VFloat (PyNum.float_of_decimal false 1 (-3)));
  Ok [("max_daily_trades", a); ("max_position_size", b);
      ("max_quantity", c); ("min_quantity", d)].

(** [validate_config] *)
Definition log_levels : list string :=
  ["DEBUG"; "INFO"; "WARNING"; "ERROR"; "CRITICAL"].

(** The first item of [limits.items()] that makes the loop return. *)
Definition invalid_limit (kv : string * value) : bool :=
  negb (is_number (snd kv)) || le_zero (snd kv).

(** [log_level.upper()]: only a string has the method. *)
Definition str_upper (v : value) : result string :=
  match v with
  | VStr s => Ok (PyStr.upper s)
  | _ => Raise AttributeError
  end.

(** [len(v)] of a string, as used after [isinstance(v, str)]. *)
Definition str_len (v : value) : Z :=
  match v with
  | VStr s => Z.of_nat (String.length s)
  | _ => 0
  end.

Definition validate_checks (h : heap) (self : manager)
  : result (bool * list log_record) :=
  _ ← get_api_credentials h self;
  limits ← get_risk_limits h self;
  match List.find invalid_limit limits with
  | Some (key, v) => Ok (false, [InvalidLimit key v])
  | None =>
      default_symbol ← get_default_symbol h self;
      if negb (is_str default_symbol) || (str_len default_symbol <? 3)
      then Ok (false, [InvalidSymbol default_symbol])
      else
        log_level ← get h self "logging.log_level" (VStr "INFO");
        upper ← str_upper log_level;
        if negb (PyStr.in_list upper log_levels)
        then Ok (false, [InvalidLogLevel log_level])
        else Ok (true, [])
  end.

Definition validate_config (h : heap) (self : manager)
  : result (bool * list log_record) :=
  match validate_checks h self with
  | Ok r => Ok r
  | Raise ValueError => Ok (false, [ValidationFailed])
  | Raise e => Ok (false, [UnexpectedError e])
  end.

(** [_load_from_env_vars] *)
Fixpoint env_vars_loop (w : world) (self : manager)
  (table : list (string * (string * string))) : result world :=
  match table with
  | [] => Ok w
  | (env_key, (section, config_key)) :: rest =>
      match os_getenv w env_key with
      | None => env_vars_loop w self rest
      | Some env_value =>
          let converted_value := _convert_env_value env_value in
          let h := w_heap w in
          present ← contains h (VDict (config self)) section;
          h1 ← (if negb present
                then let '(a, h0) := alloc [] h in
                     setitem h0 (VDict (config self)) section (VDict a)
                else Ok h);
          target ← getitem h1 (VDict (config self)) section;
          h2 ← setitem h1 target config_key converted_value;
          env_vars_loop (with_heap w h2) self rest
      end
  end.

Definition _load_from_env_vars (w : world) (self : manager) : result world :=
  env_vars_loop w self env_mappings.

(** [_load_from_env_file]: the loop stops at the first line whose assignment
    raises; the handler around the loop only logs, so the assignments made
    before that line stay. *)
Fixpoint env_file_loop (env : list (string * string)) (lines : list string)
  : list (string * string) :=
  match lines with
  | [] => env
  | line :: rest =>
      let line := PyStr.strip line in
      if negb (String.eqb line "") && negb (PyStr.startswith_char "#" line)
         && PyStr.contains_char "=" line
      then match PyStr.split_first "=" line with
           | Some (key, val) =>
               match os_environ_set env (PyStr.strip key) (PyStr.strip val) with
               | Ok env' => env_file_loop env' rest
               | Raise _ => env
               end
           | None => env_file_loop env rest
           end
      else env_file_loop env rest
  end.

Definition _load_from_env_file (w : world) (self : manager) : world :=
  match Alist.get (w_files w) (env_file self) with
  | Some text =>
      World (w_heap w) (env_file_loop (w_environ w) (text_lines text)) (w_files w)
  | None => w
  end.

Section JsonCodec.

(** The [json] module: [json.load] on a file's text ([None]: it raises),
    and the text [json.dump(_, indent=2)] writes for a tree. *)
Variable json_loads : string -> option json.
Variable json_dumps : json -> string.

(** [_load_from_json]: every exception is caught and logged.  A document
    that is not an object has no [items()], which raises before the tree
    is touched. *)
Definition _load_from_json (w : world) (self : manager) : world :=
  match Alist.get (w_files w) (config_file self) with
  | Some text =>
      match json_loads text with
      | Some (JObj json_config) =>
          with_heap w (_deep_merge (w_heap w) (config self) json_config)
      | _ => w
      end
  | None => w
  end.

(** [load_config]: [self.defaults.copy()] is a new dictionary with the
    entries of [self.defaults]. *)
Definition load_config (w : world) (self : manager) : result (manager * world) :=
  let '(c, h1) := alloc (deref (w_heap w) (defaults self)) (w_heap w) in
  let self := Manager (config_file self) (env_file self) c (defaults self) in
  let w := with_heap w h1 in
  let w := _load_from_json w self in
  let w := _load_from_env_file w self in
  w ← _load_from_env_vars w self;
  Ok (self, w).

(** [__init__] *)
Definition __init__ (w : world) (config_file env_file : string)
  : result (manager * world) :=
  let '(c, h1) := alloc [] (w_heap w) in
  let '(d, h2) := _get_default_config h1 in
  load_config (with_heap w h2) (Manager config_file env_file c d).

(** [save_config]: every exception is caught and logged.  The file is
    opened (and so emptied) once the safe configuration is built; the
    store keeps the objects [_create_safe_config] made.  [open] refuses the
    empty path ([FileNotFoundError]); the model has no directories and no
    permissions, so every other path can be written.  On a circular
    reference [json.dump] raises after it has written part of the text: the
    model leaves the file empty there. *)
Definition save_config (w : world) (self : manager) (path : option string) : world :=
  let file_path :=
    match path with
    | Some p => if String.eqb p "" then config_file self else p
    | None => config_file self
    end in
  match _create_safe_config (w_heap w) self with
  | Ok (safe_config, h1) =>
      if String.eqb file_path "" then with_heap w h1
      else
        match dump h1 (VDict safe_config) with
        | Some doc =>
            World h1 (w_environ w) (Alist.set (w_files w) file_path (json_dumps doc))
        | None =>
            World h1 (w_environ w) (Alist.set (w_files w) file_path "")
        end
  | Raise _ => w
  end.

End JsonCodec.

(** ** Specification-side definitions *)




(** The value a dotted path denotes: descend key by key, through mappings
    only. *)
Fixpoint resolve (h : heap) (current : value) (keys : list string) : option value :=
  match keys with
  | [] => Some current
  | key :: rest =>
      match current with
      | VDict a =>
          match Alist.get (deref h a) key with
          | Some v => resolve h v rest
          | None => None
          end
      | _ => None
      end
  end.


(** What [get] observes at a path: the resolved value, or the fallback. *)
Definition lookup (h : heap) (self : manager) (path : string) (default : value) : value :=
  match resolve h (VDict (config self)) (PyStr.split "." path) with
  | Some v => v
  | None => default
  end.

(** The four checks of [validate()], in the words of the specification. *)
Definition has_credentials (h : heap) (self : manager) : bool :=
  truthy h (lookup h self "api.key" VNone) &&
  truthy h (lookup h self "api.secret" VNone).

(** [v > 0] for a number. *)
Definition gt_zero (v : value) : bool :=
  match v with
  | VBool b => b
  | VInt n => 0 <? n
  | VFloat f => SFltb PyNum.fzero f
  | _ => false
  end.

Definition positive_number (v : value) : bool := is_number v && gt_zero v.

Definition limits_of (h : heap) (self : manager) : dict :=
  [ ("max_daily_trades", lookup h self "risk_management.max_daily_trades" (VInt 50));
    ("max_position_size", lookup h self "risk_management.max_position_size" (VInt 100));
    ("max_quantity", lookup h self "trading.max_quantity" (VInt 1000));
    ("min_quantity",
       lookup h self "trading.min_quantity" (VFloat (PyNum.float_of_decimal false 1 (-3)))) ].

Definition symbol_ok (v : value) : bool :=
  match v with
  | VStr s => 3 <=? Z.of_nat (String.length s)
  | _ => false
  end.

(** The verdict and the record the specification's ordered checks give. *)
Definition validate_spec (h : heap) (self : manager) : bool * list log_record :=
  if negb (has_credentials h self) then (false, [ValidationFailed])
  else
    match List.find (fun kv => negb (positive_number (snd kv))) (limits_of h self) with
    | Some (key, v) => (false, [InvalidLimit key v])
    | None =>
        let symbol := lookup h self "trading.default_symbol" (VStr "BTCUSDT") in
        if negb (symbol_ok symbol) then (false, [InvalidSymbol symbol])
        else
          match lookup h self "logging.log_level" (VStr "INFO") with
          | VStr s =>
              if PyStr.in_list (PyStr.upper s) log_levels then (true, [])
              else (false, [InvalidLogLevel (VStr s)])
          | _ => (false, [UnexpectedError AttributeError])
          end
    end.

Definition is_nan (v : value) : bool :=
  match v with VFloat S754_nan => true | _ => false end.

(** A process with nothing in the store, no files and the given variables. *)
Definition fresh_world (env : list (string * string)) : world := World [] env [].

Definition no_json : string -> option json := fun _ => None.

(** ** Trees in the store *)

(** Induction on documents, with the hypothesis for every item and member. *)
Definition json_ind (P : json -> Prop)
  (Hnull : P JNull) (Hbool : forall b, P (JBool b)) (Hint : forall n, P (JInt n))
  (Hfloat : forall f, P (JFloat f)) (Hstr : forall s, P (JStr s))
  (Harr : forall l, Forall P l -> P (JArr l))
  (Hobj : forall ms, Forall (fun kj => P (snd kj)) ms -> P (JObj ms))
  : forall j, P j :=
  fix go (j : json) : P j :=
    match j with
    | JNull => Hnull
    | JBool b => Hbool b
    | JInt n => Hint n
    | JFloat f => Hfloat f
    | JStr s => Hstr s
    | JArr l =>
        Harr l ((fix items (l : list json) : Forall P l :=
                   match l with
                   | [] => List.Forall_nil P
                   | j' :: r => List.Forall_cons P j' r (go j') (items r)
                   end) l)
    | JObj ms =>
        Hobj ms ((fix members (ms : list (string * json))
                    : Forall (fun kj => P (snd kj)) ms :=
                    match ms with
                    | [] => List.Forall_nil _
                    | kj :: r => List.Forall_cons _ kj r (go (snd kj)) (members r)
                    end) ms)
    end.

(** [repr h v j fp]: in the store [h], the value [v] is a tree -- no
    dictionary object is reached twice -- whose content is the document [j];
    [fp], the footprint, lists the addresses of its dictionaries. *)
Inductive repr (h : heap) : value -> json -> list addr -> Prop :=
| repr_none : repr h VNone JNull []
| repr_bool b : repr h (VBool b) (JBool b) []
| repr_int n : repr h (VInt n) (JInt n) []
| repr_float f : repr h (VFloat f) (JFloat f) []
| repr_str s : repr h (VStr s) (JStr s) []
| repr_list l : repr h (VList l) (JArr l) []
| repr_dict a d ms fp :
    h !! a = Some d -> repr_members h d ms fp -> a ∉ fp ->
    repr h (VDict a) (JObj ms) (a :: fp)
with repr_members (h : heap) : dict -> list (string * json) -> list addr -> Prop :=
| repr_nil : repr_members h [] [] []
| repr_cons k v j d ms fp1 fp2 :
    repr h v j fp1 -> repr_members h d ms fp2 ->
    (forall a, a ∈ fp1 -> a ∉ fp2) ->
    repr_members h ((k, v) :: d) ((k, j) :: ms) (fp1 ++ fp2).

Scheme repr_mind := Minimality for repr Sort Prop
  with repr_members_mind := Minimality for repr_members Sort Prop.
Combined Scheme repr_mutind from repr_mind, repr_members_mind.

(** [h'] keeps the objects of [h] that lie outside [fp]. *)
Definition preserves (fp : list addr) (h h' : heap) : Prop :=
  (List.length h <= List.length h')%nat /\
  forall a, (a < List.length h)%nat -> a ∉ fp -> h' !! a = h !! a.

(** The footprint [fp'] is made of addresses of [fp] and of objects created
    after [h]. *)
Definition grown (h : heap) (fp fp' : list addr) : Prop :=
  forall a, a ∈ fp' -> a ∈ fp \/ (List.length h <= a)%nat.

(** The footprint of what a dictionary holds at a key. *)
Definition key_footprint (h : heap) (d : dict) (k : string) (fp : list addr) : Prop :=
  match Alist.get d k with
  | Some v => exists j, repr h v j fp
  | None => fp = []
  end.

Definition is_obj (j : json) : bool :=
  match j with JObj _ => true | _ => false end.

(** The document at a path of a document. *)
Fixpoint json_get (j : json) (keys : list string) : option json :=
  match keys with
  | [] => Some j
  | key :: rest =>
      match j with
      | JObj ms =>
          match Alist.get ms key with
          | Some j' => json_get j' rest
          | None => None
          end
      | _ => None
      end
  end.

(** The value of a document that is not an object. *)
Definition leaf_value (j : json) : value :=
  match j with
  | JNull => VNone
  | JBool b => VBool b
  | JInt n => VInt n
  | JFloat f => VFloat f
  | JStr s => VStr s
  | JArr l => VList l
  | JObj _ => VNone
  end.

(** Deep merge in the words of the specification: for each key of the
    incoming document, recurse when the existing and the incoming values are
    both mappings, and let the incoming value replace the existing one
    otherwise. *)
Fixpoint merge_item (b : list (string * json)) (k : string) (j : json) {struct j}
  : list (string * json) :=
  match Alist.get b k, j with
  | Some (JObj bo), JObj u =>
      Alist.set b k
        (JObj ((fix each (u bo : list (string * json)) : list (string * json) :=
                  match u with
                  | [] => bo
                  | (k', j') :: r => each r (merge_item bo k' j')
                  end) u bo))
  | _, _ => Alist.set b k j
  end.

Fixpoint merge_tree (b u : list (string * json)) : list (string * json) :=
  match u with
  | [] => b
  | (k, j) :: r => merge_tree (merge_item b k j) r
  end.

(** Keys are distinct in every object of a document, as in the dictionaries
    [json.load] builds. *)
Fixpoint wf_json (j : json) : Prop :=
  match j with
  | JObj ms =>
      NoDup (Alist.keys ms) /\
      (fix all (ms : list (string * json)) : Prop :=
         match ms with
         | [] => True
         | (_, j') :: r => wf_json j' /\ all r
         end) ms
  | _ => True
  end.

(** What the merge leaves at a key, in the words of the specification. *)
Definition merged_at (b u : list (string * json)) (k : string) : option json :=
  match Alist.get u k with
  | None => Alist.get b k                       (* untouched *)
  | Some incoming =>
      match Alist.get b k, incoming with
      | Some (JObj existing), JObj inc => Some (JObj (merge_tree existing inc))
      | _, _ => Some incoming                   (* replaced outright *)
      end
  end.

(** The document of the specification's example. *)
Definition max_quantity_5 : list (string * json) :=
  [("trading", JObj [("max_quantity", JInt 5)])].

(** A path can be set in a document when the document is a mapping and
    every intermediate segment that exists holds a mapping (missing ones are
    created). *)
Fixpoint settable (j : json) (keys : list string) : bool :=
  match keys with
  | [] => true
  | key :: rest =>
      match rest with
      | [] => is_obj j
      | _ :: _ =>
          match j with
          | JObj ms =>
              match Alist.get ms key with
              | Some j' => settable j' rest
              | None => true
              end
          | _ => false
          end
      end
  end.

(** [set] from a current object: the loop over [keys[:-1]] and the final
    assignment. *)
Definition set_from (h : heap) (current : value) (keys : list string) (v : value)
  : result heap :=
  '(current', h1) ← navigate h current (removelast keys);
  setitem h1 current' (List.last keys "") v.

(** [export_safe] in the words of the specification: the tree without the
    [key] and [secret] entries of the [api] section; the other sections
    unchanged. *)
Definition without_credentials (j : json) : json :=
  match j with
  | JObj ms => JObj (List.filter (fun kj => negb (is_sensitive (fst kj))) ms)
  | _ => j
  end.

Definition safe_section (section : string) (j : json) : json :=
  if String.eqb section "api" then without_credentials j else j.

Definition safe_tree (T : list (string * json)) : list (string * json) :=
  map (fun sj => (fst sj, safe_section (fst sj) (snd sj))) T.

(** The same, entry after entry, as the loop assigns them. *)
Fixpoint safe_assign (acc T : list (string * json)) : list (string * json) :=
  match T with
  | [] => acc
  | (section, j) :: rest => safe_assign (Alist.set acc section (safe_section section j)) rest
  end.

Definition sections_are_mappings (T : list (string * json)) : Prop :=
  Forall (fun sj => is_obj (snd sj) = true) T.

(** What the loop of [_create_safe_config] can copy: a mapping has
    [items()] and [copy()], a list has [copy()] only. *)
Definition copyable (section : string) (j : json) : bool :=
  match j with
  | JObj _ => true
  | JArr _ => negb (String.eqb section "api")
  | _ => false
  end.

Definition sections_copyable (T : list (string * json)) : bool :=
  forallb (fun sj => copyable (fst sj) (snd sj)) T.

Definition value_copyable (section : string) (v : value) : bool :=
  match v with
  | VDict _ => true
  | VList _ => negb (String.eqb section "api")
  | _ => false
  end.

(** Paths at or below [api.key] and [api.secret]. *)
Definition credential_path (keys : list string) : bool :=
  match keys with
  | section :: key :: _ => String.eqb section "api" && is_sensitive key
  | _ => false
  end.

(** Assignment at a path of a document: missing intermediate mappings are
    created. *)
Fixpoint json_set (j : json) (keys : list string) (x : json) : json :=
  match keys with
  | [] => x
  | key :: rest =>
      match j with
      | JObj ms =>
          match rest with
          | [] => JObj (Alist.set ms key x)
          | _ :: _ =>
              let inner :=
                match Alist.get ms key with
                | Some j' => j'
                | None => JObj []
                end in
              JObj (Alist.set ms key (json_set inner rest x))
          end
      | _ => j
      end
  end.

(** The document of a value that is not a dictionary. *)
Definition scalar_json (v : value) : json :=
  match v with
  | VNone => JNull
  | VBool b => JBool b
  | VInt n => JInt n
  | VFloat f => JFloat f
  | VStr s => JStr s
  | VList l => JArr l
  | VDict _ => JNull
  end.

(** The environment pass on a document. *)
Fixpoint env_apply (getenv : string -> option string) (T : json)
  (table : list (string * (string * string))) : json :=
  match table with
  | [] => T
  | (env_key, (section, config_key)) :: rest =>
      match getenv env_key with
      | None => env_apply getenv T rest
      | Some env_value =>
          env_apply getenv
            (json_set T [section; config_key] (scalar_json (_convert_env_value env_value)))
            rest
      end
  end.

(** The destinations the table writes for the variables that are set can
    be written in the document. *)
Definition destinations_settable (getenv : string -> option string) (T : json)
  (table : list (string * (string * string))) : Prop :=
  Forall (fun e => getenv (fst e) = None \/
                   settable T [fst (snd e); snd (snd e)] = true) table.

(** Every assignment of the environment pass can be made on the document
    as the pass finds it. *)
Fixpoint steps_settable (getenv : string -> option string) (T : json)
  (table : list (string * (string * string))) : Prop :=
  match table with
  | [] => True
  | (env_key, (section, config_key)) :: rest =>
      match getenv env_key with
      | None => steps_settable getenv T rest
      | Some env_value =>
          settable T [section; config_key] = true /\
          steps_settable getenv
            (json_set T [section; config_key] (scalar_json (_convert_env_value env_value)))
            rest
      end
  end.

Definition section_names : list string :=
  ["api"; "trading"; "risk_management"; "logging"; "ui"].

(** The members of the structured file's document, when [json.load] gives
    an object; nothing is merged otherwise. *)
Definition file_members (json_loads : string -> option json) (w : world)
  (config_file : string) : list (string * json) :=
  match Alist.get (w_files w) config_file with
  | Some text =>
      match json_loads text with
      | Some (JObj ms) => ms
      | _ => []
      end
  | None => []
  end.

(** The five-section shape: what the file gives for a section name is a
    mapping. *)
Definition file_sections_are_mappings (ms : list (string * json)) : Prop :=
  forall k j, In (k, j) ms -> In k section_names -> is_obj j = true.

(** The dotted path of a table entry. *)
Definition dotted (dest : string * string) : string :=
  (fst dest ++ "." ++ snd dest)%string.

(** *** A small configuration, used to exercise the statements *)

Definition sample_heap : heap :=
  [ [("api", VDict 1); ("trading", VDict 2)];
    [("key", VStr "k"); ("secret", VStr "s"); ("timeout", VInt 30)];
    [("max_quantity", VInt 5); ("default_symbol", VStr "ETHUSDT")] ].

Definition sample_tree : list (string * json) :=
  [ ("api", JObj [("key", JStr "k"); ("secret", JStr "s"); ("timeout", JInt 30)]);
    ("trading", JObj [("max_quantity", JInt 5); ("default_symbol", JStr "ETHUSDT")]) ].

Definition sample_self : manager := Manager "config.json" ".env" 0 0.


(** A [json] module that knows one document. *)
Definition sample_dumps (doc : json) : string := "saved".
Definition sample_loads (doc : json) (text : string) : option json :=
  if String.eqb text "saved" then Some doc else None.

(** *** Statements used by the inductions below *)

Definition alloc_json_post (j : json) : Prop :=
  forall h v h', alloc_json j h = (v, h') ->
    exists fp, repr h' v j fp /\
      (forall a, a ∈ fp -> (List.length h <= a)%nat) /\
      (List.length h <= List.length h')%nat /\
      (forall a, (a < List.length h)%nat -> h' !! a = h !! a).

Definition both_mappings (existing : option value) (incoming : json) : bool :=
  match existing, incoming with
  | Some (VDict _), JObj _ => true
  | _, _ => false
  end.

Definition both_objects (existing : option json) (incoming : json) : bool :=
  match existing, incoming with
  | Some (JObj _), JObj _ => true
  | _, _ => false
  end.

Definition merge_item_post (j : json) : Prop :=
  forall h base b fp k,
    repr h (VDict base) (JObj b) fp ->
    exists fp',
      repr (_deep_merge_item h base k j) (VDict base) (JObj (merge_item b k j)) fp' /\
      preserves fp h (_deep_merge_item h base k j) /\ grown h fp fp'.

Definition merge_tree_post (u : list (string * json)) : Prop :=
  forall h base b fp,
    repr h (VDict base) (JObj b) fp ->
    exists fp',
      repr (_deep_merge h base u) (VDict base) (JObj (merge_tree b u)) fp' /\
      preserves fp h (_deep_merge h base u) /\ grown h fp fp'.

(** ** The rest of the class, and its callers *)

(** The environment [_load_from_env_file] leaves for a process whose dotenv
    file is [env_file]. *)
Definition dotenv_environ (w : world) (env_file : string) : list (string * string) :=
  match Alist.get (w_files w) env_file with
  | Some text => env_file_loop (w_environ w) (text_lines text)
  | None => w_environ w
  end.

(** The assignment a line of the dotenv file asks for: none for a blank
    line, a comment and a line without [=]. *)
Definition dotenv_assignment (line : string) : option (string * string) :=
  let line := PyStr.strip line in
  if negb (String.eqb line "") && negb (PyStr.startswith_char "#" line)
  then match PyStr.split_first "=" line with
       | Some (key, val) => Some (PyStr.strip key, PyStr.strip val)
       | None => None
       end
  else None.

(** [os.environ[k] = v] succeeds. *)
Definition environ_accepts (k v : string) : bool :=
  match os_environ_set [] k v with
  | Ok _ => true
  | Raise _ => false
  end.

(** The assignments of a list, applied in order. *)
Definition assign_all (env : list (string * string)) (kvs : list (string * string))
  : list (string * string) :=
  fold_left (fun e kv => Alist.set e (fst kv) (snd kv)) kvs env.

(** Paths that part ways: at the first position where they differ, both
    have a segment. *)
Fixpoint diverges (p q : list string) : bool :=
  match p, q with
  | a :: p', b :: q' => if String.eqb a b then diverges p' q' else true
  | _, _ => false
  end.

(** cli.py, [TradingBotCLI.setup]: the logger configuration it reads from
    the manager. *)
Definition cli_log_config (h : heap) (self : manager) : result dict :=
  log_level ← get h self "log_level" (VStr "INFO");
  max_bytes ← get h self "max_log_size" (VInt (10 * 1024 * 1024));
  backup_count ← get h self "log_backup_count" (VInt 5);
  Ok [("log_level", log_level); ("max_bytes", max_bytes);
      ("backup_count", backup_count)].

(** The file [save_config] writes to: [config_file or self.config_file]. *)
Definition save_target (self : manager) (path : option string) : string :=
  match path with
  | Some p => if String.eqb p "" then config_file self else p
  | None => config_file self
  end.

(** A name [open(name, 'w')] takes for a file of the working directory: not
    empty, at most 255 characters, each of them printable ASCII other than
    the separator [/], and not one of the directory names [.] and [..].
    Only the environment (a directory of that name, a directory or a file
    that may not be written, a full disk) makes [open] refuse such a name. *)
Fixpoint name_chars (p : string) : bool :=
  match p with
  | EmptyString => true
  | String c r =>
      (32 <=? PyStr.code c)%N && (PyStr.code c <=? 126)%N &&
      negb (Ascii.eqb c "/") && name_chars r
  end.

Definition plain_file_name (p : string) : bool :=
  negb (String.eqb p "") && (String.length p <=? 255)%nat && name_chars p &&
  negb (String.eqb p ".") && negb (String.eqb p "..").

(** [get_supported_symbols] *)
Definition get_supported_symbols (h : heap) (self : manager) : result value :=
  get h self "trading.supported_symbols" (VList [JStr "BTCUSDT"; JStr "ETHUSDT"]).

(** [get_logging_config]: the entries of the dictionary it returns, in
    order. *)
Definition get_logging_config (h : heap) (self : manager) : result dict :=
  a ← get h self "logging.log_level" (VStr "INFO");
  b ← get h self "logging.max_log_size" (VInt (10 * 1024 * 1024));
  c ← get h self "logging.log_backup_count" (VInt 5);
  d ← get h self "logging.enable_trade_logging" (VBool true);
  e ← get h self "logging.enable_error_logging" (VBool true);
  Ok [("log_level", a); ("max_log_size", b); ("log_backup_count", c);
      ("enable_trade_logging", d); ("enable_error_logging", e)].

(** [len(v)]: numbers, booleans and [None] have no length. *)
Definition py_len (h : heap) (v : value) : result Z :=
  match v with
  | VStr s => Ok (Z.of_nat (String.length s))
  | VList l => Ok (Z.of_nat (List.length l))
  | VDict a => Ok (Z.of_nat (List.length (deref h a)))
  | _ => Raise TypeError
  end.

(** [get_config_summary]: the four dictionaries of the summary, by key.
    [x and y] evaluates [y] only when [x] is true. *)
Definition get_config_summary (h : heap) (self : manager)
  : result (list (string * list (string * value))) :=
  testnet ← is_testnet h self;
  timeout ← get h self "api.timeout" VNone;
  api_key ← get h self "api.key" VNone;
  both ← (if truthy h api_key then get h self "api.secret" VNone else Ok api_key);
  default_symbol ← get_default_symbol h self;
  symbols ← get_supported_symbols h self;
  count ← py_len h symbols;
  risk_limits ← get_risk_limits h self;
  logging ← get_logging_config h self;
  Ok [("api", [("testnet", testnet); ("timeout", timeout);
               ("has_credentials", VBool (truthy h both))]);
      ("trading", [("default_symbol", default_symbol);
                   ("supported_symbols_count", VInt count)]);
      ("risk_limits", risk_limits);
      ("logging", logging)].

(** The text of a file made of these lines, each ended by a line feed. *)
Definition LF : string := String "010" EmptyString.

Fixpoint file_text (lines : list string) : string :=
  match lines with
  | [] => EmptyString
  | l :: r => (l ++ LF ++ file_text r)%string
  end.

(** [create_example_files]: the content of [.env.example], line by line. *)
Definition env_content : string :=
  file_text
    [ "# Binance API Configuration";
      "BINANCE_API_KEY=your_api_key_here";
      "BINANCE_API_SECRET=your_api_secret_here";
      "BINANCE_TESTNET=true";
      "";
      "# Trading Configuration";
      "DEFAULT_SYMBOL=BTCUSDT";
      "MAX_QUANTITY=1000";
      "MIN_QUANTITY=0.001";
      "";
      "# Logging Configuration";
      "LOG_LEVEL=INFO";
      "MAX_LOG_SIZE=10485760";
      "LOG_BACKUP_COUNT=5";
      "";
      "# Risk Management";
      "MAX_DAILY_TRADES=50";
      "MAX_POSITION_SIZE=100";
      "ENABLE_STOP_LOSS=true" ].

Section JsonDump.

(** [json.dump(_, indent=2)]: the text it writes for a tree, and the text
    it has written when it meets a circular reference and raises. *)
Variable json_dumps : json -> string.
Variable json_dumps_cut : list (list (string * value)) -> value -> string.

(** [create_example_files]: each file is written only when no file of its
    name exists; every exception is caught and logged.  What it prints is
    left out. *)
Definition create_example_files (w : world) (self : manager) : world :=
  let env_example_path := ".env.example" in
  let w1 :=
    match Alist.get (w_files w) env_example_path with
    | None =>
        World (w_heap w) (w_environ w) (Alist.set (w_files w) env_example_path env_content)
    | Some _ => w
    end in
  let config_example_path := "config.example.json" in
  match Alist.get (w_files w1) config_example_path with
  | None =>
      match dump (w_heap w1) (VDict (defaults self)) with
      | Some doc =>
          World (w_heap w1) (w_environ w1)
                (Alist.set (w_files w1) config_example_path (json_dumps doc))
      | None =>
          World (w_heap w1) (w_environ w1)
                (Alist.set (w_files w1) config_example_path
                   (json_dumps_cut (w_heap w1) (VDict (defaults self))))
      end
  | Some _ => w1
  end.

End JsonDump.

(** ** utils.py *)

Module Utils.

(** [s.endswith(suffix)] *)
Fixpoint endswith (suffix s : string) : bool :=
  String.eqb s suffix ||
  match s with
  | String _ r => endswith suffix r
  | EmptyString => false
  end.

(** [validate_trading_pair]: the formatted symbol, and whether the warning
    was printed. *)
Definition validate_trading_pair (symbol : string) : string * bool :=
  let symbol := PyStr.strip (PyStr.upper symbol) in
  (symbol, negb (endswith "USDT" symbol)).

Definition validate_order_side (side : string) : result string :=
  let side := PyStr.strip (PyStr.upper side) in
  if negb (PyStr.in_list side ["BUY"; "SELL"]) then Raise ValueError
  else Ok side.

Definition validate_order_type (order_type : string) : result string :=
  let order_type := PyStr.strip (PyStr.upper order_type) in
  let valid_types := ["MARKET"; "LIMIT"; "STOP-LIMIT"] in
  if negb (PyStr.in_list order_type valid_types) then Raise ValueError
  else Ok order_type.

(** [validate_input].  The types it is documented for. *)
Inductive input_type : Type := TStr | TInt | TFloat.

(** What a call of [input()] gives: a line, or the user's interrupt.  At
    the end of the input it raises [EOFError], which nothing catches. *)
Inductive input_event : Type :=
| Line (s : string)
| Interrupt.

(** What the function prints. *)
Inductive message : Type :=
| EmptyInput                (* "Input cannot be empty. Please try again." *)
| AtLeast                   (* "Value must be at least {min_value}. ..." *)
| AtMost                    (* "Value must be at most {max_value}. ..." *)
| InvalidInput              (* "Invalid input. Please enter a valid ..." *)
| Cancelled.                (* "Operation cancelled by user." *)

Inductive outcome : Type :=
| Returned (v : value)
| Exited                    (* exit(0) *)
| EndOfInput.               (* EOFError *)

(** [n < f] and [f < n] for an integer and a float: exact, as the
    interpreter compares them. *)
Definition int_lt_float (n : Z) (f : PyNum.float) : bool :=
  match f with
  | S754_zero _ => n <? 0
  | S754_infinity neg => negb neg
  | S754_nan => false
  | S754_finite neg m e =>
      let sm := if neg then Z.neg m else Z.pos m in
      if 0 <=? e then n <? sm * 2 ^ e else n * 2 ^ (- e) <? sm
  end.

Definition float_lt_int (f : PyNum.float) (n : Z) : bool :=
  match f with
  | S754_zero _ => 0 <? n
  | S754_infinity neg => neg
  | S754_nan => false
  | S754_finite neg m e =>
      let sm := if neg then Z.neg m else Z.pos m in
      if 0 <=? e then sm * 2 ^ e <? n else sm <? n * 2 ^ (- e)
  end.

(** [value < bound] and [value > bound] for the value the conversion
    gave. *)
Definition below (v : value) (bound : PyNum.float) : bool :=
  match v with
  | VInt n => int_lt_float n bound
  | VFloat f => SFltb f bound
  | _ => false
  end.

Definition above (v : value) (bound : PyNum.float) : bool :=
  match v with
  | VInt n => float_lt_int bound n
  | VFloat f => SFltb bound f
  | _ => false
  end.

(** [input_type(user_input)] for the numeric types: [None] stands for
    [ValueError]. *)
Definition convert (ty : input_type) (user_input : string) : option value :=
  match ty with
  | TInt => option_map VInt (PyNum.py_int user_input)
  | TFloat => option_map VFloat (PyNum.py_float user_input)
  | TStr => Some (VStr user_input)
  end.

(** The loop, over what the calls of [input()] give: the outcome, the
    messages printed, and the input left unread. *)
Fixpoint validate_input (inputs : list input_event) (ty : input_type)
  (min_value max_value : option PyNum.float)
  : outcome * list message * list input_event :=
  match inputs with
  | [] => (EndOfInput, [], [])
  | Interrupt :: rest => (Exited, [Cancelled], rest)
  | Line s :: rest =>
      let user_input := PyStr.strip s in
      let again (m : message) :=
        let '(o, ms, unread) := validate_input rest ty min_value max_value in
        (o, m :: ms, unread) in
      match ty with
      | TStr =>
          if negb (String.eqb user_input "")
          then (Returned (VStr (PyStr.upper user_input)), [], rest)
          else again EmptyInput
      | _ =>
          match convert ty user_input with
          | None => again InvalidInput
          | Some v =>
              if match min_value with Some m => below v m | None => false end
              then again AtLeast
              else if match max_value with Some m => above v m | None => false end
              then again AtMost
              else (Returned v, [], rest)
          end
      end
  end.

End Utils.

(** ** bot.py *)

(** [BasicBot.get_symbol_info], on what [futures_exchange_info()] returned
    ([None]: the request raised).  Every exception is caught and gives
    [None]: a missing [symbols] member, an entry that is not a mapping or has
    no [symbol] member.  Iterating a mapping or a string gives strings, which
    have no string subscript; the other values cannot be iterated. *)
Fixpoint find_symbol (items : list json) (symbol : string) : option json :=
  match items with
  | [] => None
  | s :: rest =>
      match s with
      | JObj ms =>
          match Alist.get ms "symbol" with
          | Some (JStr x) => if String.eqb x symbol then Some s else find_symbol rest symbol
          | Some _ => find_symbol rest symbol
          | None => None
          end
      | _ => None
      end
  end.

Definition get_symbol_info (exchange_info : option json) (symbol : string) : option json :=
  match exchange_info with
  | Some (JObj ms) =>
      match Alist.get ms "symbols" with
      | Some (JArr items) => find_symbol items symbol
      | _ => None
      end
  | _ => None
  end.

(** Truth value of a document: [not symbol_info]. *)
Definition json_truthy (j : json) : bool :=
  match j with
  | JNull => false
  | JBool b => b
  | JInt n => negb (n =? 0)
  | JFloat f => match f with S754_zero _ => false | _ => true end
  | JStr s => negb (String.eqb s "")
  | JArr l => match l with [] => false | _ => true end
  | JObj ms => match ms with [] => false | _ => true end
  end.

(** [BasicBot.validate_order_params]: the verdict.  The quantity and the
    price are floats, as the command-line interface passes them. *)
Definition validate_order_params (exchange_info : option json) (symbol : string)
  (quantity : PyNum.float) (price : option PyNum.float) : bool :=
  let symbol_info := get_symbol_info exchange_info symbol in
  if negb (match symbol_info with Some j => json_truthy j | None => false end) then false
  else if SFleb quantity PyNum.fzero then false
  else if match price with Some p => SFleb p PyNum.fzero | None => false end then false
  else true.
#[local] Set Warnings "-clear-no-such-hyp".

(** ** Association lists *)

Section AlistFacts.
Context {V : Type}.
Implicit Types (d : list (string * V)) (k : string) (v : V).

Lemma alist_get_set_eq d k v : Alist.get (Alist.set d k v) k = Some v.
Proof.
  induction d as [|[k' v'] d IH]; simpl.
  - by rewrite String.eqb_refl.
  - destruct (String.eqb k' k) eqn:E; simpl; rewrite E; auto.
Qed.

Lemma alist_get_set_ne d k k' v :
  k <> k' -> Alist.get (Alist.set d k v) k' = Alist.get d k'.
Proof.
  intros Hne. induction d as [|[k0 v0] d IH]; simpl.
  - destruct (String.eqb k k') eqn:E; [apply String.eqb_eq in E; done | done].
  - destruct (String.eqb k0 k) eqn:E; simpl.
    + apply String.eqb_eq in E; subst k0.
      destruct (String.eqb k k') eqn:E'; [apply String.eqb_eq in E'; done | done].
    + destruct (String.eqb k0 k'); auto.
Qed.

Lemma alist_get_set d k k' v :
  Alist.get (Alist.set d k v) k' =
    if String.eqb k k' then Some v else Alist.get d k'.
Proof.
  destruct (String.eqb k k') eqn:E.
  - apply String.eqb_eq in E; subst. apply alist_get_set_eq.
  - apply String.eqb_neq in E. by apply alist_get_set_ne.
Qed.

Lemma alist_get_Some_In d k v : Alist.get d k = Some v -> In (k, v) d.
Proof.
  induction d as [|[k' v'] d IH]; simpl; [done|].
  destruct (String.eqb k' k) eqn:E.
  - apply String.eqb_eq in E. intros [= ->]. left; by subst.
  - auto.
Qed.

Lemma alist_get_None d k : Alist.get d k = None <-> ~ In k (Alist.keys d).
Proof.
  induction d as [|[k' v'] d IH]; simpl; [tauto|].
  destruct (String.eqb k' k) eqn:E.
  - apply String.eqb_eq in E. split; [done | intros H; exfalso; apply H; by left].
  - apply String.eqb_neq in E. rewrite IH. tauto.
Qed.

Lemma alist_keys_set d k v :
  forall k', In k' (Alist.keys (Alist.set d k v)) <-> k' = k \/ In k' (Alist.keys d).
Proof.
  intros k'. induction d as [|[k0 v0] d IH]; simpl.
  - intuition.
  - destruct (String.eqb k0 k) eqn:E; simpl.
    + apply String.eqb_eq in E; subst. intuition.
    + rewrite IH. intuition.
Qed.

Lemma alist_has_get d k : Alist.has d k = true <-> exists v, Alist.get d k = Some v.
Proof.
  unfold Alist.has. destruct (Alist.get d k); split; eauto; try done.
  intros [? ?]; done.
Qed.
End AlistFacts.

(** ** Coercion of environment values (C2) *)






(** ** [get] (C7) *)

Lemma descend_resolve h current keys :
  descend h current keys =
    match resolve h current keys with
    | Some v => Ok v
    | None =>
        match descend h current keys with
        | Raise KeyError => Raise KeyError
        | _ => Raise TypeError
        end
    end.
Proof.
  revert current; induction keys as [|k keys IH]; intros current; simpl; [done|].
  destruct current; simpl; try done.
  destruct (Alist.get (deref h a) k) as [v|]; simpl; [|done].
  change (descend h v keys = match resolve h v keys with
                             | Some v0 => Ok v0
                             | None => match descend h v keys with
                                       | Raise KeyError => Raise KeyError
                                       | _ => Raise TypeError
                                       end
                             end).
  apply IH.
Qed.

Lemma descend_Ok_resolve h current keys v :
  descend h current keys = Ok v <-> resolve h current keys = Some v.
Proof.
  rewrite descend_resolve. destruct (resolve h current keys).
  - split; congruence.
  - destruct (descend h current keys) as [|[]]; split; congruence.
Qed.

Lemma get_lookup h self path default :
  get h self path default = Ok (lookup h self path default).
Proof.
  unfold get, lookup. rewrite descend_resolve.
  destruct (resolve h (VDict (config self)) (PyStr.split "." path)); [done|].
  destruct (descend h (VDict (config self)) (PyStr.split "." path)) as [|[]]; done.
Qed.

(** C7: [get] never raises, whatever the path, the fallback and the store:
    it returns the value the path resolves to through mappings, and the
    fallback when a segment is missing or met on a value that is not a
    mapping. *)
Theorem get_total h self path default :
  get h self path default =
    Ok (match resolve h (VDict (config self)) (PyStr.split "." path) with
        | Some v => v
        | None => default
        end).
Proof.
  unfold get.
  destruct (resolve h (VDict (config self)) (PyStr.split "." path)) as [v|] eqn:Hres.
  - apply descend_Ok_resolve in Hres. by rewrite Hres.
  - pose proof (descend_resolve h (VDict (config self)) (PyStr.split "." path)) as Hd.
    rewrite Hres in Hd.
    destruct (descend h (VDict (config self)) (PyStr.split "." path)) as [v|[]];
      done || discriminate.
Qed.

(** ** [validate_config] (C6, C10) *)

Lemma get_api_credentials_spec h self :
  get_api_credentials h self =
    if has_credentials h self
    then Ok (lookup h self "api.key" VNone, lookup h self "api.secret" VNone)
    else Raise ValueError.
Proof.
  unfold get_api_credentials, has_credentials. rewrite !get_lookup. simpl.
  destruct (truthy h (lookup h self "api.key" VNone)),
           (truthy h (lookup h self "api.secret" VNone)); reflexivity.
Qed.

Lemma get_risk_limits_spec h self : get_risk_limits h self = Ok (limits_of h self).
Proof. unfold get_risk_limits. rewrite !get_lookup. reflexivity. Qed.

Lemma gt_zero_not_le_zero v :
  is_number v = true -> is_nan v = false -> gt_zero v = negb (le_zero v).
Proof.
  destruct v as [| b | n | f | | |]; simpl; try done.
  - intros _ _. by destruct b.
  - intros _ _. destruct (Z.ltb_spec 0 n), (Z.leb_spec n 0); simpl; lia || done.
  - intros _ Hn. destruct f as [s|s| |s m e]; try done; by destruct s.
Qed.

Lemma invalid_limit_spec kv :
  is_nan (snd kv) = false -> invalid_limit kv = negb (positive_number (snd kv)).
Proof.
  intros Hn. unfold invalid_limit, positive_number.
  destruct (is_number (snd kv)) eqn:E; simpl; [|done].
  rewrite gt_zero_not_le_zero by done. by rewrite negb_involutive.
Qed.

Lemma find_ext {A} (f g : A -> bool) l :
  Forall (fun x => f x = g x) l -> List.find f l = List.find g l.
Proof.
  induction 1 as [|x l Hx _ IH]; simpl; [done|]. rewrite Hx, IH. done.
Qed.

(** Apart from a limit that is NaN, [validate_config] is the ordered,
    short-circuiting evaluation of the four checks. *)
Lemma validate_config_in_order h self :
  Forall (fun kv => is_nan (snd kv) = false) (limits_of h self) ->
  validate_config h self = Ok (validate_spec h self).
Proof.
  intros Hnan.
  unfold validate_config, validate_checks, validate_spec, get_default_symbol.
  rewrite get_api_credentials_spec, get_risk_limits_spec, !get_lookup.
  destruct (has_credentials h self); cbn [mbind result_bind bind negb]; [|done].
  rewrite (find_ext invalid_limit (fun kv => negb (positive_number (snd kv)))).
  2:{ eapply Forall_impl; [exact Hnan|]. intros kv H. by apply invalid_limit_spec. }
  destruct (List.find _ (limits_of h self)) as [[key v]|]; [done|].
  destruct (lookup h self "trading.default_symbol" (VStr "BTCUSDT")) as [| | | |s| |];
    try (cbn [is_str symbol_ok str_len negb orb]; done).
  cbn [is_str symbol_ok str_len negb orb].
  destruct (Z.ltb_spec (Z.of_nat (String.length s)) 3),
           (Z.leb_spec 3 (Z.of_nat (String.length s))); try lia; try done.
  cbn [negb].
  destruct (lookup h self "logging.log_level" (VStr "INFO")) as [| | | |lvl| |];
    try (cbn [str_upper mbind result_bind bind]; done).
  cbn [str_upper mbind result_bind bind].
  destruct (PyStr.in_list (PyStr.upper lvl) log_levels); done.
Qed.

(** C10: [validate_config] never raises: it always returns a verdict, and
    whenever one of its checks raises, whatever the exception, the verdict is
    false.  With a number for logging.log_level, [upper] does not exist;
    with a limit that is not a number, the limit check rejects it: both give
    false (checked on the configurations built from LOG_LEVEL=5 and from
    MAX_QUANTITY=abc, credentials set). *)
Theorem validate_config_never_raises :
  (forall h self,
     exists b logs, validate_config h self = Ok (b, logs) /\
       forall e, validate_checks h self = Raise e -> b = false) /\
  (exists self w,
     __init__ no_json
       (fresh_world [("BINANCE_API_KEY", "k"); ("BINANCE_API_SECRET", "s");
                     ("LOG_LEVEL", "5")]) "config.json" ".env" = Ok (self, w) /\
     lookup (w_heap w) self "logging.log_level" VNone = VInt 5 /\
     validate_checks (w_heap w) self = Raise AttributeError /\
     validate_config (w_heap w) self = Ok (false, [UnexpectedError AttributeError])) /\
  (exists self w,
     __init__ no_json
       (fresh_world [("BINANCE_API_KEY", "k"); ("BINANCE_API_SECRET", "s");
                     ("MAX_QUANTITY", "abc")]) "config.json" ".env" = Ok (self, w) /\
     validate_config (w_heap w) self =
       Ok (false, [InvalidLimit "max_quantity" (VStr "abc")])).
Proof.
  split; [|split].
  - intros h self. unfold validate_config.
    destruct (validate_checks h self) as [[b logs]|e].
    + exists b, logs. split; [done | intros e; discriminate].
    + destruct e; eexists false, _; (split; [reflexivity | done]).
  - eexists _, _. split; [vm_compute; reflexivity|]. vm_compute. done.
  - eexists _, _. split; [vm_compute; reflexivity|]. vm_compute. done.
Qed.

(** C6, where the code departs from the claim: a limit that is NaN is not
    a number greater than zero, yet [value <= 0] is false for it and the
    limit check lets it through.  With MAX_QUANTITY=nan and the credentials
    set, every other check passes and [validate_config] returns true. *)
Theorem validate_config_accepts_nan_limit :
  exists self w,
    __init__ no_json
      (fresh_world [("BINANCE_API_KEY", "k"); ("BINANCE_API_SECRET", "s");
                    ("MAX_QUANTITY", "nan")]) "config.json" ".env" = Ok (self, w) /\
    lookup (w_heap w) self "trading.max_quantity" VNone = VFloat S754_nan /\
    positive_number (VFloat S754_nan) = false /\
    validate_spec (w_heap w) self =
      (false, [InvalidLimit "max_quantity" (VFloat S754_nan)]) /\
    validate_config (w_heap w) self = Ok (true, []).
Proof.
  eexists _, _. split; [vm_compute; reflexivity|]. vm_compute. done.
Qed.

(** ** Trees in the store: footprints and frames *)

Lemma repr_in_bounds_mut h :
  (forall v j fp, repr h v j fp -> forall a, a ∈ fp -> (a < List.length h)%nat) /\
  (forall d ms fp, repr_members h d ms fp -> forall a, a ∈ fp -> (a < List.length h)%nat).
Proof.
  apply repr_mutind; try (intros; set_solver).
  intros a d ms fp Hl _ IH _ x Hx.
  apply elem_of_cons in Hx as [->|Hx]; [by eapply lookup_lt_Some | auto].
Qed.

Lemma repr_in_bounds h v j fp a :
  repr h v j fp -> a ∈ fp -> (a < List.length h)%nat.
Proof. intros H. by apply (proj1 (repr_in_bounds_mut h) _ _ _ H). Qed.

Lemma repr_members_in_bounds h d ms fp a :
  repr_members h d ms fp -> a ∈ fp -> (a < List.length h)%nat.
Proof. intros H. by apply (proj2 (repr_in_bounds_mut h) _ _ _ H). Qed.

Lemma repr_frame_mut h :
  (forall v j fp, repr h v j fp ->
     forall h', (forall a, a ∈ fp -> h' !! a = h !! a) -> repr h' v j fp) /\
  (forall d ms fp, repr_members h d ms fp ->
     forall h', (forall a, a ∈ fp -> h' !! a = h !! a) -> repr_members h' d ms fp).
Proof.
  apply repr_mutind; try (intros; constructor; done).
  - intros a d ms fp Hl _ IH Hni h' Hsame. apply (repr_dict h' a d ms fp); [|apply IH|done].
    + rewrite Hsame; [done | set_solver].
    + intros x Hx. apply Hsame. set_solver.
  - intros k v j d ms fp1 fp2 _ IH1 _ IH2 Hdisj h' Hsame.
    constructor; [apply IH1 | apply IH2 | done]; intros x Hx; apply Hsame; set_solver.
Qed.

Lemma repr_frame h h' v j fp :
  repr h v j fp -> (forall a, a ∈ fp -> h' !! a = h !! a) -> repr h' v j fp.
Proof. intros H. by apply (proj1 (repr_frame_mut h) _ _ _ H). Qed.

Lemma repr_members_frame h h' d ms fp :
  repr_members h d ms fp -> (forall a, a ∈ fp -> h' !! a = h !! a) ->
  repr_members h' d ms fp.
Proof. intros H. by apply (proj2 (repr_frame_mut h) _ _ _ H). Qed.

Lemma repr_unique_mut h :
  (forall v j fp, repr h v j fp -> forall j' fp', repr h v j' fp' -> j = j' /\ fp = fp') /\
  (forall d ms fp, repr_members h d ms fp ->
     forall ms' fp', repr_members h d ms' fp' -> ms = ms' /\ fp = fp').
Proof.
  apply repr_mutind; try (intros; match goal with H : repr _ _ _ _ |- _ => by inversion H end).
  - intros a d ms fp Hl _ IH _ j' fp' H'.
    inversion H' as [| | | | | |a' d' ms' fp'' Hl' Hm' Hni']; subst.
    assert (d' = d) by congruence; subst d'.
    destruct (IH _ _ Hm') as [-> ->]. done.
  - intros ms' fp' H'. by inversion H'.
  - intros k v j d ms fp1 fp2 _ IH1 _ IH2 _ ms' fp' H'.
    inversion H' as [|k' v' j' d' ms'' fp1' fp2' Hv' Hd' Hdisj']; subst.
    destruct (IH1 _ _ Hv') as [-> ->]. destruct (IH2 _ _ Hd') as [-> ->]. done.
Qed.

Lemma repr_unique h v j fp j' fp' :
  repr h v j fp -> repr h v j' fp' -> j = j' /\ fp = fp'.
Proof. intros H. by apply (proj1 (repr_unique_mut h) _ _ _ H). Qed.

Lemma repr_members_get h d ms fp k :
  repr_members h d ms fp ->
  match Alist.get d k with
  | Some v =>
      exists j fpk, Alist.get ms k = Some j /\ repr h v j fpk /\ (forall a, a ∈ fpk -> a ∈ fp)
  | None => Alist.get ms k = None
  end.
Proof.
  induction 1 as [|k0 v j d ms fp1 fp2 Hv Hd IH Hdisj]; simpl; [done|].
  destruct (String.eqb k0 k).
  - exists j, fp1. split; [done|]. split; [done | set_solver].
  - destruct (Alist.get d k) as [v'|]; [|done].
    destruct IH as (j' & fpk & ? & ? & ?). exists j', fpk. set_solver.
Qed.

Lemma repr_members_keys h d ms fp :
  repr_members h d ms fp -> Alist.keys d = Alist.keys ms.
Proof. induction 1; simpl; [done | by f_equal]. Qed.

Lemma repr_dict_inv h a j fp :
  repr h (VDict a) j fp ->
  exists d ms fp', j = JObj ms /\ fp = a :: fp' /\ h !! a = Some d /\
                   repr_members h d ms fp' /\ a ∉ fp'.
Proof. inversion 1; subst. eauto 10. Qed.

Lemma repr_obj_inv h v ms fp :
  repr h v (JObj ms) fp ->
  exists a d fp', v = VDict a /\ fp = a :: fp' /\ h !! a = Some d /\
                  repr_members h d ms fp' /\ a ∉ fp'.
Proof. inversion 1; subst. eauto 10. Qed.

Lemma repr_is_dict h v j fp : repr h v j fp -> is_dict v = is_obj j.
Proof. by destruct 1. Qed.

Lemma repr_leaf h v j fp : repr h v j fp -> is_obj j = false -> v = leaf_value j /\ fp = [].
Proof. by destruct 1. Qed.

Lemma deref_lookup (h : heap) a d : h !! a = Some d -> deref h a = d.
Proof. intros H. unfold deref. by rewrite (list_lookup_total_correct _ _ _ H). Qed.

Lemma preserves_refl fp h : preserves fp h h.
Proof. split; [lia | done]. Qed.

Lemma preserves_weaken fp fp' h h' :
  preserves fp h h' -> (forall a, a ∈ fp -> a ∈ fp') -> preserves fp' h h'.
Proof. intros [Hlen Hsame] Hsub. split; [done|]. intros a Ha Hni. apply Hsame; auto. Qed.

Lemma preserves_trans fp fp1 h h1 h2 :
  preserves fp h h1 -> grown h fp fp1 -> preserves fp1 h1 h2 -> preserves fp h h2.
Proof.
  intros [Hlen Hsame] Hgrow [Hlen1 Hsame1]. split; [lia|].
  intros a Ha Hni. rewrite Hsame1, Hsame; try done; try lia.
  intros Hin. destruct (Hgrow a Hin); [done | lia].
Qed.

Lemma grown_refl h fp : grown h fp fp.
Proof. intros a Ha. by left. Qed.

Lemma grown_trans h h1 fp fp1 fp2 :
  (List.length h <= List.length h1)%nat ->
  grown h fp fp1 -> grown h1 fp1 fp2 -> grown h fp fp2.
Proof.
  intros Hlen H1 H2 a Ha. destruct (H2 a Ha) as [Hin|Hge]; [by apply H1 | right; lia].
Qed.

Lemma alist_set_same {V} (d : list (string * V)) k v :
  Alist.get d k = Some v -> Alist.set d k v = d.
Proof.
  induction d as [|[k' v'] d IH]; simpl; [done|].
  destruct (String.eqb k' k) eqn:E.
  - by intros [= ->].
  - intros H. by rewrite IH.
Qed.

(** Storing at a key a value whose tree lies in what the key held before,
    or in new objects. *)
Lemma members_set h h' d ms fp k v j fpv fpo :
  repr_members h d ms fp ->
  key_footprint h d k fpo ->
  repr h' v j fpv ->
  (forall a, a ∈ fp -> a ∉ fpo -> h' !! a = h !! a) ->
  (forall a, a ∈ fpv -> a ∈ fp -> a ∈ fpo) ->
  exists fp', repr_members h' (Alist.set d k v) (Alist.set ms k j) fp' /\
              forall a, a ∈ fp' -> a ∈ fp \/ a ∈ fpv.
Proof.
  intros Hm. revert fpo.
  induction Hm as [|k0 v0 j0 d ms fp1 fp2 Hv0 Hd IH Hdisj];
    intros fpo Hkey Hv Hsame Hin; simpl.
  - exists (fpv ++ []). split.
    + constructor; [done | constructor | intros a _ Ha; by apply elem_of_nil in Ha].
    + intros a Ha. right. by rewrite app_nil_r in Ha.
  - unfold key_footprint in Hkey; simpl in Hkey.
    destruct (String.eqb k0 k) eqn:E.
    + destruct Hkey as [j0' Hold].
      destruct (repr_unique _ _ _ _ _ _ Hv0 Hold) as [_ <-].
      exists (fpv ++ fp2). split.
      * constructor; [done| |].
        -- eapply repr_members_frame; [exact Hd|].
           intros a Ha. apply Hsame; [set_solver|]. intros Ha1. by apply (Hdisj a).
        -- intros a Ha Ha2. apply (Hdisj a); [|done]. apply Hin; set_solver.
      * intros a Ha. apply elem_of_app in Ha as [Ha|Ha]; [by right | left; set_solver].
    + assert (Hsub : forall a, a ∈ fpo -> a ∈ fp2).
      { pose proof (repr_members_get _ _ _ _ k Hd) as Hg.
        destruct (Alist.get d k) as [vk|].
        - destruct Hg as (jk & fpk & _ & Hk & Hsubk). destruct Hkey as [jk' Hk'].
          destruct (repr_unique _ _ _ _ _ _ Hk Hk') as [_ <-]. done.
        - subst fpo. intros a Ha. by apply elem_of_nil in Ha. }
      destruct (IH fpo) as (fp2' & Hm' & Hsub').
      * done.
      * done.
      * intros a Ha Hno. apply Hsame; [set_solver | done].
      * intros a Ha Ha2. apply Hin; [done | set_solver].
      * exists (fp1 ++ fp2'). split.
        -- constructor; [|done|].
           ++ eapply repr_frame; [exact Hv0|]. intros a Ha. apply Hsame; [set_solver|].
              intros Hao. apply (Hdisj a); auto.
           ++ intros a Ha1 Ha2. destruct (Hsub' a Ha2) as [Ha2'|Hav].
              ** by apply (Hdisj a).
              ** apply (Hdisj a); [done|]. apply Hsub, Hin; [done | set_solver].
        -- intros a Ha. apply elem_of_app in Ha as [Ha|Ha]; [left; set_solver|].
           destruct (Hsub' a Ha); [left; set_solver | by right].
Qed.

(** *** Objects created for a document *)

Lemma alloc_json_obj ms h :
  alloc_json (JObj ms) h =
    let '(d, h1) := alloc_members ms h in
    let '(a, h2) := alloc d h1 in (VDict a, h2).
Proof. reflexivity. Qed.

Lemma alloc_members_cons k j r h :
  alloc_members ((k, j) :: r) h =
    let '(v, h1) := alloc_json j h in
    let '(d, h2) := alloc_members r h1 in ((k, v) :: d, h2).
Proof. reflexivity. Qed.

Lemma lookup_alloc_old (h : heap) d a :
  (a < List.length h)%nat -> (h ++ [d]) !! a = h !! a.
Proof. intros. by apply lookup_app_l. Qed.

Lemma lookup_alloc_new (h : heap) d : (h ++ [d]) !! List.length h = Some d.
Proof. rewrite lookup_app_r by lia. by rewrite Nat.sub_diag. Qed.

Lemma alloc_members_repr ms :
  Forall (fun kj => alloc_json_post (snd kj)) ms ->
  forall h d h', alloc_members ms h = (d, h') ->
    exists fp, repr_members h' d ms fp /\
      (forall a, a ∈ fp -> (List.length h <= a)%nat) /\
      (List.length h <= List.length h')%nat /\
      (forall a, (a < List.length h)%nat -> h' !! a = h !! a).
Proof.
  induction 1 as [|[k j] r Hj _ IH]; intros h d h' Halloc.
  - injection Halloc as <- <-. exists []. split; [constructor|].
    split; [intros a Ha; by apply elem_of_nil in Ha | split; [lia | done]].
  - rewrite alloc_members_cons in Halloc.
    destruct (alloc_json j h) as [v h1] eqn:Ej.
    destruct (alloc_members r h1) as [d' h2] eqn:Er.
    injection Halloc as <- <-.
    destruct (Hj _ _ _ Ej) as (fp1 & Hv & Hge1 & Hlen1 & Hold1).
    destruct (IH _ _ _ Er) as (fp2 & Hd & Hge2 & Hlen2 & Hold2).
    exists (fp1 ++ fp2). repeat split.
    + constructor; [|done|].
      * eapply repr_frame; [exact Hv|]. intros a Ha. apply Hold2.
        by eapply repr_in_bounds.
      * intros a Ha1 Ha2. pose proof (repr_in_bounds _ _ _ _ _ Hv Ha1).
        pose proof (Hge2 _ Ha2). lia.
    + intros a Ha. apply elem_of_app in Ha as [Ha|Ha];
        [by apply Hge1 | pose proof (Hge2 _ Ha); lia].
    + lia.
    + intros a Ha. rewrite Hold2, Hold1; [done | done | lia].
Qed.

Lemma alloc_json_repr j : alloc_json_post j.
Proof.
  induction j as [| | | | | |ms IH] using json_ind;
    try (intros h v h' [= <- <-]; exists []; split; [constructor|];
         split; [intros a Ha; by apply elem_of_nil in Ha | split; [lia | done]]).
  intros h v h' Halloc. rewrite alloc_json_obj in Halloc.
  destruct (alloc_members ms h) as [d h1] eqn:Em.
  unfold alloc in Halloc. injection Halloc as <- <-.
  destruct (alloc_members_repr ms IH _ _ _ Em) as (fp & Hd & Hge & Hlen & Hold).
  exists (List.length h1 :: fp). repeat split.
  - apply (repr_dict _ _ d); [apply lookup_alloc_new| |].
    + eapply repr_members_frame; [exact Hd|]. intros a Ha.
      apply lookup_alloc_old. by eapply repr_members_in_bounds.
    + intros Hin. pose proof (repr_members_in_bounds _ _ _ _ _ Hd Hin). lia.
  - intros a Ha. apply elem_of_cons in Ha as [->|Ha]; [done | by apply Hge].
  - rewrite length_app; simpl; lia.
  - intros a Ha. rewrite lookup_alloc_old by lia. by apply Hold.
Qed.

(** ** Deep merge (C5) *)

(** The loop body, as the source has it. *)
Lemma _deep_merge_item_recurse h base key u b :
  Alist.get (deref h base) key = Some (VDict b) ->
  _deep_merge_item h base key (JObj u) = _deep_merge h b u.
Proof.
  intros Hget. simpl. rewrite Hget. clear Hget.
  revert h. induction u as [|[k j] u IH]; intros h; [done|].
  simpl. apply IH.
Qed.

Lemma _deep_merge_item_replace h base key item :
  both_mappings (Alist.get (deref h base) key) item = false ->
  _deep_merge_item h base key item =
    let '(v, h1) := alloc_json item h in
    store h1 base (Alist.set (deref h1 base) key v).
Proof.
  intros Hb. destruct item; simpl; try done;
    destruct (Alist.get (deref h base) key) as [[]|]; try done.
Qed.

Lemma merge_item_recurse b k u bo :
  Alist.get b k = Some (JObj bo) ->
  merge_item b k (JObj u) = Alist.set b k (JObj (merge_tree bo u)).
Proof.
  intros Hget. simpl. rewrite Hget. do 2 f_equal.
  clear Hget. revert bo. induction u as [|[k' j'] u IH]; intros bo; [done|].
  simpl. apply IH.
Qed.

Lemma merge_item_replace b k j :
  both_objects (Alist.get b k) j = false -> merge_item b k j = Alist.set b k j.
Proof.
  intros Hb. destruct j; simpl; try done; destruct (Alist.get b k) as [[]|]; done.
Qed.

Lemma merge_tree_repr_of_items u :
  Forall (fun kj => merge_item_post (snd kj)) u -> merge_tree_post u.
Proof.
  induction 1 as [|[k j] u Hj _ IH]; intros h base b fp Hrepr; simpl.
  - exists fp. split; [done|]. split; [apply preserves_refl | apply grown_refl].
  - destruct (Hj h base b fp k Hrepr) as (fp1 & Hr1 & Hp1 & Hg1).
    destruct (IH _ _ _ _ Hr1) as (fp2 & Hr2 & Hp2 & Hg2).
    exists fp2. split; [done|]. split.
    + eapply preserves_trans; eauto.
    + eapply grown_trans; [apply Hp1 | done | done].
Qed.

(** The incoming value replaces what the key held. *)
Lemma merge_replace_repr h base b fp k j :
  repr h (VDict base) (JObj b) fp ->
  both_mappings (Alist.get (deref h base) k) j = false ->
  exists fp',
    repr (_deep_merge_item h base k j) (VDict base) (JObj (Alist.set b k j)) fp' /\
    preserves fp h (_deep_merge_item h base k j) /\ grown h fp fp'.
Proof.
  intros Hrepr Hb. rewrite _deep_merge_item_replace by done.
  apply repr_dict_inv in Hrepr as (d & ms & fpm & [= <-] & -> & Hl & Hm & Hni).
  destruct (alloc_json j h) as [v h1] eqn:Ea.
  destruct (alloc_json_repr j _ _ _ Ea) as (fpv & Hv & Hge & Hlen & Hold).
  pose proof (lookup_lt_Some _ _ _ Hl) as Hbase.
  assert (Hd1 : deref h1 base = d) by (apply deref_lookup; by rewrite Hold).
  rewrite Hd1. unfold store.
  set (h' := <[base := Alist.set d k v]> h1).
  assert (Hother : forall a, a <> base -> h' !! a = h1 !! a).
  { intros a Ha. unfold h'. by rewrite list_lookup_insert_ne. }
  assert (Hkey : exists fpo, key_footprint h d k fpo /\ forall a, a ∈ fpo -> a ∈ fpm).
  { unfold key_footprint. pose proof (repr_members_get _ _ _ _ k Hm) as Hg.
    destruct (Alist.get d k) as [v0|].
    - destruct Hg as (j0 & fpk & _ & Hk & Hsub). exists fpk. eauto.
    - exists []. split; [done|]. intros a Ha. by apply elem_of_nil in Ha. }
  destruct Hkey as (fpo & Hkey & Hsubo).
  destruct (members_set h h' d b fpm k v j fpv fpo) as (fpm' & Hm' & Hsub'); try done.
  - eapply repr_frame; [exact Hv|]. intros a Ha. apply Hother.
    pose proof (Hge _ Ha). lia.
  - intros a Ha _. rewrite Hother.
    + apply Hold. by eapply repr_members_in_bounds.
    + intros ->. done.
  - intros a Ha Ham. pose proof (Hge _ Ha).
    pose proof (repr_members_in_bounds _ _ _ _ _ Hm Ham). lia.
  - exists (base :: fpm'). split; [|split].
    + apply (repr_dict _ _ (Alist.set d k v)); [|done|].
      * unfold h'. apply list_lookup_insert_eq. lia.
      * intros Hin. destruct (Hsub' _ Hin) as [?|Hv']; [done|].
        pose proof (Hge _ Hv'). lia.
    + split; [unfold h'; rewrite length_insert; lia|].
      intros a Ha Hni'. rewrite Hother; [by apply Hold|]. intros ->. apply Hni'. set_solver.
    + intros a Ha. apply elem_of_cons in Ha as [->|Ha]; [left; set_solver|].
      destruct (Hsub' _ Ha) as [?|Hv']; [left; set_solver | right; by apply Hge].
Qed.

Lemma merge_item_repr j : merge_item_post j.
Proof.
  induction j as [| | | | | |u IH] using json_ind;
    try (intros h base tb fp k Hrepr;
         rewrite merge_item_replace by (by destruct (Alist.get tb k) as [[]|]);
         apply merge_replace_repr;
         [done | by destruct (Alist.get (deref h base) k) as [[]|]]).
  intros h base b fp k Hrepr.
  destruct (both_mappings (Alist.get (deref h base) k) (JObj u)) eqn:Hb.
  - (* both are mappings: recurse *)
    pose proof Hrepr as Hrepr0.
    apply repr_dict_inv in Hrepr as (d & ms & fpm & [= <-] & -> & Hl & Hm & Hni).
    rewrite (deref_lookup _ _ _ Hl) in Hb.
    pose proof (repr_members_get _ _ _ _ k Hm) as Hg.
    destruct (Alist.get d k) as [[| | | | | |bo]|] eqn:Hk; try done.
    destruct Hg as (j0 & fpk & Hbk & Hrk & Hsubk).
    pose proof Hrk as Hrk0.
    apply repr_dict_inv in Hrk as (dk & bt & fpk' & -> & -> & _).
    rewrite (_deep_merge_item_recurse h base k u bo)
      by (by rewrite (deref_lookup _ _ _ Hl)).
    rewrite (merge_item_recurse b k u bt) by done.
    destruct (merge_tree_repr_of_items u IH h bo bt _ Hrk0) as (fpn & Hn & Hp & Hg).
    set (h' := _deep_merge h bo u) in *.
    pose proof (lookup_lt_Some _ _ _ Hl) as Hbase.
    assert (Hbase_out : base ∉ bo :: fpk') by (intros Hin; apply Hni; auto).
    destruct (members_set h h' d b fpm k (VDict bo) (JObj (merge_tree bt u)) fpn (bo :: fpk'))
      as (fpm' & Hm' & Hsub'); try done.
    + unfold key_footprint. rewrite Hk. eauto.
    + intros a Ha Hno. apply Hp; [|done]. by eapply repr_members_in_bounds.
    + intros a Ha Ham. destruct (Hg a Ha) as [?|Hge]; [done|].
      pose proof (repr_members_in_bounds _ _ _ _ _ Hm Ham). lia.
    + rewrite (alist_set_same d k) in Hm' by done.
      exists (base :: fpm'). split; [|split].
      * apply (repr_dict _ _ d); [|done|].
        -- rewrite (proj2 Hp); done.
        -- intros Hin. destruct (Hsub' _ Hin) as [?|Hn']; [done|].
           destruct (Hg _ Hn') as [?|?]; [by apply Hbase_out | lia].
      * eapply preserves_weaken; [exact Hp|]. intros a Ha. set_solver.
      * intros a Ha. apply elem_of_cons in Ha as [->|Ha]; [left; set_solver|].
        destruct (Hsub' _ Ha) as [?|Hn']; [left; set_solver|].
        destruct (Hg _ Hn') as [?|?]; [left; set_solver | by right].
  - (* the incoming value replaces the existing one *)
    assert (Hbo : both_objects (Alist.get b k) (JObj u) = false).
    { apply repr_dict_inv in Hrepr as (d & ms & fpm & [= <-] & -> & Hl & Hm & Hni).
      rewrite (deref_lookup _ _ _ Hl) in Hb.
      pose proof (repr_members_get _ _ _ _ k Hm) as Hg.
      destruct (Alist.get d k) as [v0|].
      - destruct Hg as (j0 & fpk & -> & Hrk & _).
        pose proof (repr_is_dict _ _ _ _ Hrk) as Hd. simpl in *.
        destruct v0, j0; simpl in *; done.
      - by rewrite Hg. }
    rewrite merge_item_replace by done. by apply merge_replace_repr.
Qed.

(** Refinement: on a tree, [_deep_merge] computes the specification's merge,
    touching nothing outside the base tree. *)
Lemma deep_merge_repr h base b fp u :
  repr h (VDict base) (JObj b) fp ->
  exists fp',
    repr (_deep_merge h base u) (VDict base) (JObj (merge_tree b u)) fp' /\
    preserves fp h (_deep_merge h base u) /\ grown h fp fp'.
Proof.
  apply merge_tree_repr_of_items. apply Forall_forall. intros kj _. apply merge_item_repr.
Qed.

Lemma merge_item_get_other b k j k' :
  k <> k' -> Alist.get (merge_item b k j) k' = Alist.get b k'.
Proof.
  intros Hne. destruct (both_objects (Alist.get b k) j) eqn:Hb.
  - destruct (Alist.get b k) as [[| | | | | |bo]|] eqn:Hk; try done.
    destruct j as [| | | | | |u]; try done.
    rewrite (merge_item_recurse b k u bo) by done. by apply alist_get_set_ne.
  - rewrite merge_item_replace by done. by apply alist_get_set_ne.
Qed.

Lemma merge_item_get_same b k j :
  Alist.get (merge_item b k j) k =
    match Alist.get b k, j with
    | Some (JObj existing), JObj inc => Some (JObj (merge_tree existing inc))
    | _, _ => Some j
    end.
Proof.
  destruct (both_objects (Alist.get b k) j) eqn:Hb.
  - destruct (Alist.get b k) as [[| | | | | |bo]|] eqn:Hk; try done.
    destruct j as [| | | | | |u]; try done.
    rewrite (merge_item_recurse b k u bo) by done. apply alist_get_set_eq.
  - rewrite merge_item_replace by done. rewrite alist_get_set_eq.
    destruct (Alist.get b k) as [[]|]; try done; destruct j; done.
Qed.

Lemma merge_tree_get b u k :
  NoDup (Alist.keys u) -> Alist.get (merge_tree b u) k = merged_at b u k.
Proof.
  revert b. induction u as [|[k0 j0] u IH]; intros b Hnd; [done|].
  simpl in Hnd. apply NoDup_cons in Hnd as [Hni Hnd].
  simpl. rewrite IH by done. unfold merged_at; simpl.
  destruct (String.eqb k0 k) eqn:E.
  - apply String.eqb_eq in E; subst k0.
    assert (Alist.get u k = None) as ->.
    { apply alist_get_None. intros Hin. apply Hni. by apply list_elem_of_In. }
    apply merge_item_get_same.
  - apply String.eqb_neq in E. rewrite merge_item_get_other by done. done.
Qed.

(** Reading a tree in the store is reading its document. *)
Lemma resolve_repr h v j fp keys :
  repr h v j fp ->
  match json_get j keys with
  | Some j' =>
      exists v' fp', resolve h v keys = Some v' /\ repr h v' j' fp' /\
                     forall a, a ∈ fp' -> a ∈ fp
  | None => resolve h v keys = None
  end.
Proof.
  revert v j fp. induction keys as [|k keys IH]; intros v j fp Hrepr; simpl.
  - exists v, fp. done.
  - destruct Hrepr as [| | | | | |a d ms fpm Hl Hm Hni]; try done.
    rewrite (deref_lookup _ _ _ Hl).
    pose proof (repr_members_get _ _ _ _ k Hm) as Hg.
    destruct (Alist.get d k) as [v'|].
    + destruct Hg as (j' & fpk & -> & Hrk & Hsub).
      specialize (IH _ _ _ Hrk). destruct (json_get j' keys); [|done].
      destruct IH as (v'' & fp'' & ? & ? & ?). exists v'', fp''. set_solver.
    + by rewrite Hg.
Qed.

(** [json.dump] of a tree is its document. *)
Lemma dump_value_dict fuel h a :
  dump_value (S fuel) h (VDict a) = option_map JObj (dump_entries fuel h (deref h a)).
Proof. reflexivity. Qed.

Lemma repr_NoDup_mut h :
  (forall v j fp, repr h v j fp -> NoDup fp) /\
  (forall d ms fp, repr_members h d ms fp -> NoDup fp).
Proof.
  apply repr_mutind; try (intros; by apply NoDup_nil).
  - intros a d ms fp _ _ IH Hni. by apply NoDup_cons.
  - intros k v j d ms fp1 fp2 _ IH1 _ IH2 Hdisj. apply NoDup_app. done.
Qed.

Lemma dump_value_repr_mut h :
  (forall v j fp, repr h v j fp ->
     forall fuel, (List.length fp <= fuel)%nat -> dump_value fuel h v = Some j) /\
  (forall d ms fp, repr_members h d ms fp ->
     forall fuel, (List.length fp <= fuel)%nat -> dump_entries fuel h d = Some ms).
Proof.
  apply repr_mutind; try (intros; by destruct fuel).
  - intros a d ms fp Hl _ IH _ fuel Hfuel. simpl in Hfuel.
    destruct fuel as [|fuel]; [lia|].
    rewrite dump_value_dict, (deref_lookup _ _ _ Hl), IH by lia. done.
  - intros k v j d ms fp1 fp2 _ IH1 _ IH2 _ fuel Hfuel.
    rewrite length_app in Hfuel. simpl.
    rewrite IH1 by lia.
    change (match dump_entries fuel h d with
            | Some js => Some ((k, j) :: js) | None => None end = Some ((k, j) :: ms)).
    by rewrite IH2 by lia.
Qed.

Lemma bounded_NoDup_length (l : list nat) n :
  NoDup l -> (forall a, a ∈ l -> (a < n)%nat) -> (List.length l <= n)%nat.
Proof.
  intros Hnd Hlt.
  assert (Hs : List.length (seq 0 n) = n) by apply length_seq.
  rewrite <- Hs. apply NoDup_ListNoDup in Hnd. apply (List.NoDup_incl_length Hnd).
  intros a Ha. apply in_seq. apply list_elem_of_In in Ha. specialize (Hlt a Ha). lia.
Qed.

Lemma dump_repr h v j fp : repr h v j fp -> dump h v = Some j.
Proof.
  intros Hr. unfold dump. apply (proj1 (dump_value_repr_mut h) _ _ _ Hr).
  pose proof (bounded_NoDup_length fp (List.length h)
                (proj1 (repr_NoDup_mut h) _ _ _ Hr)
                (fun a Ha => repr_in_bounds _ _ _ _ _ Hr Ha)). lia.
Qed.

Lemma _get_default_config_repr h base h0 :
  _get_default_config h = (base, h0) ->
  exists fp, repr h0 (VDict base) default_config fp /\
    (forall a, a ∈ fp -> (List.length h <= a)%nat) /\
    (List.length h <= List.length h0)%nat /\
    (forall a, (a < List.length h)%nat -> h0 !! a = h !! a).
Proof.
  intros E. apply (alloc_json_repr default_config h).
  unfold default_config. rewrite alloc_json_obj.
  unfold _get_default_config in E.
  destruct (alloc_members default_members h) as [d h1].
  destruct (alloc d h1) as [a h2]. by injection E as -> ->.
Qed.

(** C5: deep merge.  On a base tree, [_deep_merge] goes through the keys of
    the incoming document; where the existing and the incoming values are
    both mappings it recurses, and in every other case the incoming value
    replaces the existing one; keys the document does not name keep their
    value, and nothing outside the base tree changes.  Merging
    {"trading": {"max_quantity": 5}} over the defaults sets
    trading.max_quantity to 5 and leaves trading.default_symbol, the other
    keys of the section and the other sections as they were. *)
Theorem deep_merge_semantics :
  (forall h base b fp u,
     repr h (VDict base) (JObj b) fp ->
     NoDup (Alist.keys u) ->
     exists fp',
       repr (_deep_merge h base u) (VDict base) (JObj (merge_tree b u)) fp' /\
       preserves fp h (_deep_merge h base u) /\
       forall k, Alist.get (merge_tree b u) k = merged_at b u k) /\
  (forall (h : heap),
     let '(base, h0) := _get_default_config h in
     let h' := _deep_merge h0 base max_quantity_5 in
     let self := Manager "config.json" ".env" base base in
     lookup h' self "trading.max_quantity" VNone = VInt 5 /\
     lookup h' self "trading.default_symbol" VNone = VStr "BTCUSDT" /\
     dump h' (VDict base) =
       Some (JObj (Alist.set default_members "trading"
                     (JObj [("default_symbol", JStr "BTCUSDT");
                            ("max_quantity", JInt 5);
                            ("min_quantity", JFloat (PyNum.float_of_decimal false 1 (-3)));
                            ("supported_symbols",
                              JArr [JStr "BTCUSDT"; JStr "ETHUSDT";
                                    JStr "ADAUSDT"; JStr "DOTUSDT"]);
                            ("default_order_type", JStr "LIMIT")])))).
Proof.
  split.
  - intros h base b fp u Hrepr Hnd.
    destruct (deep_merge_repr h base b fp u Hrepr) as (fp' & Hr & Hp & _).
    exists fp'. split; [done|]. split; [done|]. intros k. by apply merge_tree_get.
  - intros h.
    destruct (_get_default_config h) as [base h0] eqn:E.
    destruct (_get_default_config_repr _ _ _ E) as (fp & Hr & _).
    destruct (deep_merge_repr h0 base _ fp max_quantity_5 Hr) as (fp' & Hr' & _).
    set (h' := _deep_merge h0 base max_quantity_5) in *.
    assert (Hread : forall keys,
              match json_get (JObj (merge_tree default_members max_quantity_5)) keys with
              | Some j' => exists v' fp'', resolve h' (VDict base) keys = Some v' /\
                                         repr h' v' j' fp'' /\ forall a, a ∈ fp'' -> a ∈ fp'
              | None => resolve h' (VDict base) keys = None
              end) by (intros keys; by apply resolve_repr).
    split; [|split].
    + unfold lookup; simpl config.
      specialize (Hread ["trading"; "max_quantity"]).
      destruct Hread as (v' & fp'' & Hres & Hv & _).
      change (PyStr.split "." "trading.max_quantity") with ["trading"; "max_quantity"].
      rewrite Hres. by inversion Hv.
    + unfold lookup; simpl config.
      specialize (Hread ["trading"; "default_symbol"]).
      destruct Hread as (v' & fp'' & Hres & Hv & _).
      change (PyStr.split "." "trading.default_symbol") with ["trading"; "default_symbol"].
      rewrite Hres. by inversion Hv.
    + by rewrite (dump_repr _ _ _ _ Hr').
Qed.

(** ** [set] (C3) *)

Lemma set_set_from h self path v :
  set h self path v = set_from h (VDict (config self)) (PyStr.split "." path) v.
Proof. reflexivity. Qed.

Lemma set_from_last h current k v : set_from h current [k] v = setitem h current k v.
Proof. reflexivity. Qed.

Lemma set_from_step h current k k2 r v :
  set_from h current (k :: k2 :: r) v =
    (present ← contains h current k;
     h1 ← (if negb present
           then let '(a, h0) := alloc [] h in setitem h0 current k (VDict a)
           else Ok h);
     current' ← getitem h1 current k;
     set_from h1 current' (k2 :: r) v).
Proof.
  unfold set_from.
  change (removelast (k :: k2 :: r)) with (k :: removelast (k2 :: r)).
  change (List.last (k :: k2 :: r) "") with (List.last (k2 :: r) "").
  simpl navigate. destruct (contains h current k) as [present|]; [|done].
  simpl. destruct (if negb present then _ else _) as [h1|]; [|done].
  simpl. destruct (getitem h1 current k); done.
Qed.

Lemma settable_empty k keys : settable (JObj []) (k :: keys) = true.
Proof. by destruct keys. Qed.

Lemma lookup_store_eq (h : heap) a d :
  (a < List.length h)%nat -> store h a d !! a = Some d.
Proof. intros. by apply list_lookup_insert_eq. Qed.

Lemma lookup_store_ne (h : heap) a b d : a <> b -> store h a d !! b = h !! b.
Proof. intros. by apply list_lookup_insert_ne. Qed.

Lemma length_store (h : heap) a d : List.length (store h a d) = List.length h.
Proof. apply length_insert. Qed.

Lemma set_from_ok keys : forall k h current j fp v,
  repr h current j fp ->
  settable j (k :: keys) = true ->
  exists h', set_from h current (k :: keys) v = Ok h' /\
             resolve h' current (k :: keys) = Some v /\
             preserves fp h h'.
Proof.
  induction keys as [|k2 r IH]; intros k h current j fp v Hrepr Hset.
  - (* the final segment *)
    simpl in Hset. destruct j as [| | | | | |ms]; try done.
    apply repr_obj_inv in Hrepr as (a & d & fpm & -> & -> & Hl & Hm & Hni).
    pose proof (lookup_lt_Some _ _ _ Hl) as Ha.
    rewrite set_from_last. simpl. eexists. split; [done|]. split.
    + rewrite (deref_lookup _ _ _ (lookup_store_eq _ _ _ Ha)).
      by rewrite alist_get_set_eq.
    + split; [by rewrite length_store|]. intros b Hb Hnot.
      apply lookup_store_ne. intros ->. apply Hnot. set_solver.
  - (* an intermediate segment *)
    change (settable j (k :: k2 :: r)) with
      (match j with
       | JObj ms => match Alist.get ms k with
                    | Some j' => settable j' (k2 :: r)
                    | None => true
                    end
       | _ => false
       end) in Hset.
    destruct j as [| | | | | |ms]; try done.
    apply repr_obj_inv in Hrepr as (a & d & fpm & -> & -> & Hl & Hm & Hni).
    pose proof (lookup_lt_Some _ _ _ Hl) as Ha.
    rewrite set_from_step. simpl contains. unfold Alist.has.
    rewrite (deref_lookup _ _ _ Hl).
    pose proof (repr_members_get _ _ _ _ k Hm) as Hg.
    destruct (Alist.get d k) as [v1|] eqn:Hk.
    + (* present: go down *)
      destruct Hg as (j1 & fpk & Hmk & Hr1 & Hsub). rewrite Hmk in Hset.
      simpl. rewrite (deref_lookup _ _ _ Hl), Hk. simpl.
      destruct (IH k2 h v1 j1 fpk v Hr1 Hset) as (h' & Hok & Hres & Hp).
      exists h'. split; [done|]. split.
      * simpl. assert (Hsame : h' !! a = Some d).
        { rewrite (proj2 Hp); [done | done |]. intros Hin. apply Hni. auto. }
        rewrite (deref_lookup _ _ _ Hsame), Hk. exact Hres.
      * eapply preserves_weaken; [exact Hp|]. set_solver.
    + (* missing: create an empty mapping and go down *)
      simpl. unfold alloc. simpl setitem.
      set (n := List.length h).
      assert (Hd0 : deref (h ++ [[]]) a = d).
      { apply deref_lookup. by rewrite lookup_alloc_old. }
      rewrite Hd0.
      set (d' := Alist.set d k (VDict n)).
      set (h1 := store (h ++ [[]]) a d').
      assert (Hlen1 : List.length h1 = S n).
      { unfold h1. rewrite length_store, length_app. simpl. lia. }
      assert (Hl1 : h1 !! a = Some d').
      { apply lookup_store_eq. rewrite length_app; simpl; lia. }
      assert (Hn1 : h1 !! n = Some []).
      { unfold h1. rewrite lookup_store_ne by (unfold n; lia). apply lookup_alloc_new. }
      simpl. rewrite (deref_lookup _ _ _ Hl1). unfold d' at 1.
      rewrite alist_get_set_eq. simpl.
      assert (Hrn : repr h1 (VDict n) (JObj []) [n]).
      { apply (repr_dict _ _ []); [done | constructor |].
        intros Hin. by apply elem_of_nil in Hin. }
      destruct (IH k2 h1 (VDict n) (JObj []) [n] v Hrn (settable_empty _ _))
        as (h' & Hok & Hres & Hp).
      exists h'. split; [done|]. split.
      * simpl. assert (Hsame : h' !! a = Some d').
        { rewrite (proj2 Hp); [done | lia |]. intros Hin.
          apply list_elem_of_singleton in Hin. unfold n in Hin. lia. }
        rewrite (deref_lookup _ _ _ Hsame). unfold d'. rewrite alist_get_set_eq.
        exact Hres.
      * split; [destruct Hp; lia|]. intros b Hb Hnot.
        rewrite (proj2 Hp); [|lia|].
        -- unfold h1. rewrite lookup_store_ne; [by apply lookup_alloc_old|].
           intros ->. apply Hnot. set_solver.
        -- intros Hin. apply list_elem_of_singleton in Hin. unfold n in Hin. lia.
Qed.

Lemma set_from_raises keys : forall k h current j fp v,
  repr h current j fp ->
  settable j (k :: keys) = false ->
  set_from h current (k :: keys) v = Raise TypeError.
Proof.
  induction keys as [|k2 r IH]; intros k h current j fp v Hrepr Hset.
  - simpl in Hset. rewrite set_from_last.
    pose proof (repr_is_dict _ _ _ _ Hrepr) as Hd. rewrite Hset in Hd.
    by destruct current.
  - change (settable j (k :: k2 :: r)) with
      (match j with
       | JObj ms => match Alist.get ms k with
                    | Some j' => settable j' (k2 :: r)
                    | None => true
                    end
       | _ => false
       end) in Hset.
    rewrite set_from_step.
    destruct Hrepr as [| | | | |l|a d ms fpm Hl Hm Hni]; try done.
    + (* a string: either branch of the membership test ends in TypeError *)
      simpl. by destruct (is_substring k s).
    + simpl. by destruct (existsb _ l).
    + simpl contains. unfold Alist.has. rewrite (deref_lookup _ _ _ Hl).
      pose proof (repr_members_get _ _ _ _ k Hm) as Hg.
      destruct (Alist.get d k) as [v1|] eqn:Hk.
      * destruct Hg as (j1 & fpk & Hmk & Hr1 & Hsub). rewrite Hmk in Hset.
        simpl. rewrite (deref_lookup _ _ _ Hl), Hk. simpl.
        by apply (IH k2 h v1 j1 fpk).
      * by rewrite Hg in Hset.
Qed.

Lemma split_nonempty c s : PyStr.split c s <> [].
Proof.
  induction s as [|x s IH]; simpl; [done|].
  destruct (Ascii.eqb x c); [done|]. by destruct (PyStr.split c s).
Qed.

(** C3, as the code has it: on a configuration tree, [set(path, value)]
    completes -- creating an empty mapping for every missing intermediate
    segment -- and the next [get(path)] returns the value, provided no
    intermediate segment of the path already holds a value that is not a
    mapping; objects outside the configuration tree are left alone. *)
Theorem set_then_get h self T fp path v default :
  repr h (VDict (config self)) T fp ->
  settable T (PyStr.split "." path) = true ->
  exists h', set h self path v = Ok h' /\
             get h' self path default = Ok v /\
             preserves fp h h'.
Proof.
  intros Hrepr Hset. rewrite set_set_from.
  destruct (PyStr.split "." path) as [|k keys] eqn:Hs; [by apply split_nonempty in Hs|].
  destruct (set_from_ok keys k h _ T fp v Hrepr Hset) as (h' & Hok & Hres & Hp).
  exists h'. split; [done|]. split; [|done].
  rewrite get_lookup. unfold lookup. rewrite Hs, Hres. done.
Qed.

(** When an intermediate segment holds a scalar, a string or a list,
    [set] raises [TypeError]. *)
Lemma set_raises h self T fp path v :
  repr h (VDict (config self)) T fp ->
  settable T (PyStr.split "." path) = false ->
  set h self path v = Raise TypeError.
Proof.
  intros Hrepr Hset. rewrite set_set_from.
  destruct (PyStr.split "." path) as [|k keys] eqn:Hs; [by apply split_nonempty in Hs|].
  by apply (set_from_raises keys k h _ T fp).
Qed.

(** C3 as stated fails: in the default configuration api.timeout is the
    integer 30, and [set("api.timeout.x", 1)] raises [TypeError]. *)
Lemma set_through_scalar_raises :
  exists self w,
    __init__ no_json (fresh_world []) "config.json" ".env" = Ok (self, w) /\
    lookup (w_heap w) self "api.timeout" VNone = VInt 30 /\
    set (w_heap w) self "api.timeout.x" (VInt 1) = Raise TypeError.
Proof. eexists _, _. split; [vm_compute; reflexivity|]. vm_compute. done. Qed.

(** ** The safe configuration (C8) *)

Lemma repr_members_filter h d ms fp (P : string -> bool) :
  repr_members h d ms fp ->
  exists fp',
    repr_members h (List.filter (fun kv => P (fst kv)) d)
                   (List.filter (fun kj => P (fst kj)) ms) fp' /\
    forall a, a ∈ fp' -> a ∈ fp.
Proof.
  induction 1 as [|k v j d ms fp1 fp2 Hv Hd IH Hdisj]; simpl.
  - exists []. split; [constructor | done].
  - destruct IH as (fp2' & Hm & Hsub). destruct (P k).
    + exists (fp1 ++ fp2'). split; [|set_solver].
      constructor; [done | done |]. intros a Ha1 Ha2. apply (Hdisj a); auto.
    + exists fp2'. split; [done | set_solver].
Qed.

Lemma alist_set_fresh {V} (d : list (string * V)) k v :
  ~ In k (Alist.keys d) -> Alist.set d k v = d ++ [(k, v)].
Proof.
  induction d as [|[k' v'] d IH]; simpl; [done|]. intros Hni.
  destruct (String.eqb k' k) eqn:E.
  - apply String.eqb_eq in E. exfalso. apply Hni. by left.
  - rewrite IH; [done|]. intros Hin. apply Hni. by right.
Qed.

Lemma safe_assign_tree acc T :
  NoDup (Alist.keys T) ->
  (forall k, In k (Alist.keys T) -> ~ In k (Alist.keys acc)) ->
  safe_assign acc T = acc ++ safe_tree T.
Proof.
  revert acc. induction T as [|[s j] T IH]; intros acc Hnd Hfresh; simpl.
  - by rewrite app_nil_r.
  - simpl in Hnd. apply NoDup_cons in Hnd as [Hni Hnd].
    rewrite alist_set_fresh by (apply Hfresh; by left).
    rewrite IH; [by rewrite <- app_assoc | done |].
    intros k Hk. unfold Alist.keys. rewrite map_app, in_app_iff. simpl.
    intros [Hin|[->|[]]].
    + apply (Hfresh k); [by right | done].
    + apply Hni. by apply list_elem_of_In.
Qed.

Lemma safe_sections_repr d : forall h T fpT s accd accT fpacc,
  repr_members h d T fpT ->
  sections_copyable T = true ->
  h !! s = Some accd ->
  repr_members h accd accT fpacc ->
  s ∉ fpacc -> s ∉ fpT ->
  (forall a, a ∈ fpacc -> a ∉ fpT) ->
  exists h' d' fp',
    safe_sections h s d = Ok h' /\
    h' !! s = Some d' /\
    repr_members h' d' (safe_assign accT T) fp' /\
    (s ∉ fp') /\
    preserves [s] h h'.
Proof.
  induction d as [|[section v] d IH];
    intros h T fpT s accd accT fpacc HT Hmaps Hs Hacc Hsacc HsT Hdisj.
  - inversion HT; subst. simpl. exists h, accd, fpacc.
    repeat split; try done.
  - inversion HT as [|k v' j d' T' fp1 fp2 Hv Hrest Hdisj12]; subst.
    unfold sections_copyable in Hmaps. simpl in Hmaps.
    apply andb_true_iff in Hmaps as [Hobj Hmaps].
    fold (sections_copyable T') in Hmaps.
    pose proof (lookup_lt_Some _ _ _ Hs) as Hsb.
    destruct j as [| | | | |l|ms]; try done.
    { (* a list outside the api section: [values.copy()] is the list *)
      inversion Hv; subst. simpl in Hobj.
      destruct (String.eqb section "api") eqn:Eapi; [done|].
      set (accd' := Alist.set accd section (VList l)).
      set (h2 := store h s accd').
      assert (Hstep : safe_sections h s ((section, VList l) :: d) = safe_sections h2 s d).
      { simpl. rewrite Eapi. simpl. by rewrite (deref_lookup _ _ _ Hs). }
      rewrite Hstep.
      assert (Hold : forall x, x <> s -> h2 !! x = h !! x).
      { intros x Hxs. unfold h2. by rewrite lookup_store_ne. }
      assert (Hkey : exists fpo, key_footprint h accd section fpo).
      { unfold key_footprint. pose proof (repr_members_get _ _ _ _ section Hacc) as Hg.
        destruct (Alist.get accd section).
        - destruct Hg as (j0 & fpk & _ & Hk & _). eauto.
        - eauto. }
      destruct Hkey as (fpo & Hkey).
      destruct (members_set h h2 accd accT fpacc section (VList l) (JArr l) [] fpo)
        as (fpacc' & Hacc' & Hsub'); try done.
      { constructor. }
      { intros x Hx _. apply Hold. intros ->. done. }
      { intros x Hx. by apply elem_of_nil in Hx. }
      assert (Hsubacc : forall x, x ∈ fpacc' -> x ∈ fpacc).
      { intros x Hx. destruct (Hsub' x Hx) as [?|Hn]; [done | by apply elem_of_nil in Hn]. }
      destruct (IH h2 T' fp2 s accd' (Alist.set accT section (JArr l)) fpacc')
        as (h' & d'' & fp' & Hok & Hs' & Hm' & Hsfp' & Hp'); try done.
      + eapply repr_members_frame; [exact Hrest|]. intros x Hx. apply Hold.
        intros ->. apply HsT. set_solver.
      + unfold h2. by apply lookup_store_eq.
      + intros Hin. apply Hsacc. by apply Hsubacc.
      + intros x Hx Hx2. apply (Hdisj x); [by apply Hsubacc | set_solver].
      + exists h', d'', fp'. split; [done|]. split; [done|]. split.
        * simpl. unfold safe_section. by rewrite Eapi.
        * split; [done|]. destruct Hp' as [Hlen' Hsame'].
          assert (Hlen2 : List.length h2 = List.length h) by (unfold h2; by rewrite length_store).
          split; [lia|]. intros x Hx Hxs.
          rewrite Hsame' by (done || lia). apply Hold. set_solver. }
    apply repr_obj_inv in Hv as (a & da & fpa & -> & -> & Hla & Hma & Hnia).
    pose proof (lookup_lt_Some _ _ _ Hla) as Hab.
    (* the copy of the section *)
    assert (Hds : forall dc, deref (h ++ [dc]) s = accd).
    { intros dc. apply deref_lookup. by rewrite lookup_alloc_old. }
    assert (Hcopy : exists dc msc fpc,
               repr_members h dc msc fpc /\ (forall x, x ∈ fpc -> x ∈ fpa) /\
               safe_section section (JObj ms) = JObj msc /\
               safe_sections h s ((section, VDict a) :: d) =
                 safe_sections
                   (store (h ++ [dc]) s (Alist.set accd section (VDict (List.length h))))
                   s d).
    { unfold safe_section. simpl safe_sections. unfold alloc.
      rewrite (deref_lookup _ _ _ Hla).
      destruct (String.eqb section "api").
      - destruct (repr_members_filter h da ms fpa (fun k => negb (is_sensitive k)) Hma)
          as (fpc & Hmc & Hsubc).
        eexists _, _, fpc. split; [exact Hmc|]. split; [done|]. split; [done|].
        simpl. by rewrite Hds.
      - exists da, ms, fpa. split; [done|]. split; [done|]. split; [done|].
        simpl. by rewrite Hds. }
    destruct Hcopy as (dc & msc & fpc & Hmc & Hsubc & Hsafe & Hstep).
    set (c := List.length h) in *.
    set (h1 := h ++ [dc]) in *.
    set (accd' := Alist.set accd section (VDict c)) in *.
    set (h2 := store h1 s accd') in *.
    rewrite Hstep.
    assert (Hlen1 : List.length h1 = S c) by (unfold h1; rewrite length_app; simpl; lia).
    assert (Hold : forall x, (x < c)%nat -> x <> s -> h2 !! x = h !! x).
    { intros x Hx Hxs. unfold h2. rewrite lookup_store_ne by done.
      by apply lookup_alloc_old. }
    assert (Hc2 : h2 !! c = Some dc).
    { unfold h2. rewrite lookup_store_ne by (unfold c; lia). apply lookup_alloc_new. }
    assert (Hs2 : h2 !! s = Some accd') by (apply lookup_store_eq; lia).
    assert (HfpaT : forall x, x ∈ fpa -> x ∈ (a :: fpa) ++ fp2) by set_solver.
    assert (Hbound : forall x, x ∈ (a :: fpa) ++ fp2 -> (x < c)%nat).
    { intros x Hx. exact (repr_members_in_bounds _ _ _ _ _ HT Hx). }
    assert (Hrc : repr h2 (VDict c) (JObj msc) (c :: fpc)).
    { apply (repr_dict _ _ dc); [done | |].
      - eapply repr_members_frame; [exact Hmc|]. intros x Hx. apply Hold.
        + apply Hbound, HfpaT, Hsubc, Hx.
        + intros ->. apply HsT, HfpaT, Hsubc, Hx.
      - intros Hin. pose proof (Hbound _ (HfpaT _ (Hsubc _ Hin))). lia. }
    assert (Hkey : exists fpo, key_footprint h accd section fpo).
    { unfold key_footprint. pose proof (repr_members_get _ _ _ _ section Hacc) as Hg.
      destruct (Alist.get accd section).
      - destruct Hg as (j0 & fpk & _ & Hk & _). eauto.
      - eauto. }
    destruct Hkey as (fpo & Hkey).
    destruct (members_set h h2 accd accT fpacc section (VDict c) (JObj msc) (c :: fpc) fpo)
      as (fpacc' & Hacc' & Hsub'); try done.
    { intros x Hx _. apply Hold.
      - exact (repr_members_in_bounds _ _ _ _ _ Hacc Hx).
      - intros ->. done. }
    { intros x Hx Hxa. exfalso. apply elem_of_cons in Hx as [->|Hx].
      - pose proof (repr_members_in_bounds _ _ _ _ _ Hacc Hxa). unfold c in *. lia.
      - apply (Hdisj x Hxa). apply HfpaT, Hsubc, Hx. }
    destruct (IH h2 T' fp2 s accd' (Alist.set accT section (JObj msc)) fpacc')
      as (h' & d'' & fp' & Hok & Hs' & Hm' & Hsfp' & Hp'); try done.
    + eapply repr_members_frame; [exact Hrest|]. intros x Hx. apply Hold.
      * apply Hbound. set_solver.
      * intros ->. apply HsT. set_solver.
    + intros Hin. destruct (Hsub' _ Hin) as [?|Hin']; [done|].
      apply elem_of_cons in Hin' as [->|Hin']; [lia|].
      apply HsT, HfpaT, Hsubc, Hin'.
    + intros Hin. apply HsT. set_solver.
    + intros x Hx Hx2. destruct (Hsub' _ Hx) as [Hxa|Hxc].
      * apply (Hdisj x Hxa). set_solver.
      * apply elem_of_cons in Hxc as [->|Hxc].
        -- assert (c < c)%nat by (apply Hbound; set_solver). lia.
        -- apply (Hdisj12 x); [|done]. set_solver.
    + exists h', d'', fp'. split; [done|]. split; [done|]. split.
      * simpl. by rewrite Hsafe.
      * split; [done|]. destruct Hp' as [Hlen' Hsame'].
        assert (List.length h2 = S c) by (unfold h2; by rewrite length_store).
        split; [fold c; lia|]. fold c. intros x Hx Hxs.
        rewrite Hsame' by (done || lia). apply Hold; [done|]. set_solver.
Qed.

Lemma create_safe_config_repr h self T fp :
  repr h (VDict (config self)) (JObj T) fp ->
  sections_copyable T = true ->
  exists safe h' fp',
    _create_safe_config h self = Ok (safe, h') /\
    repr h' (VDict safe) (JObj (safe_assign [] T)) fp' /\
    preserves [] h h'.
Proof.
  intros Hrepr Hmaps.
  apply repr_obj_inv in Hrepr as (a & d & fpm & [= <-] & -> & Hl & Hm & Hni).
  unfold _create_safe_config, alloc. rewrite (deref_lookup _ _ _ Hl).
  set (s := List.length h).
  assert (Hb : forall x, x ∈ fpm -> (x < s)%nat)
    by (intros x Hx; by eapply repr_members_in_bounds).
  destruct (safe_sections_repr d (h ++ [[]]) T fpm s [] [] [])
    as (h' & d' & fp' & Hok & Hs' & Hm' & Hsfp' & Hp'); try done.
  - eapply repr_members_frame; [exact Hm|]. intros x Hx.
    apply lookup_alloc_old. by apply Hb.
  - apply lookup_alloc_new.
  - constructor.
  - intros Hin. by apply elem_of_nil in Hin.
  - intros Hin. specialize (Hb _ Hin). lia.
  - intros x Hx. by apply elem_of_nil in Hx.
  - rewrite Hok. simpl. exists s, h', (s :: fp'). split; [done|]. split.
    + by apply (repr_dict _ _ d').
    + destruct Hp' as [Hlen' Hsame']. rewrite length_app in Hlen'. simpl in Hlen'.
      split; [fold s; lia|]. intros x Hx _. fold s in Hx.
      rewrite Hsame'.
      * by apply lookup_alloc_old.
      * rewrite length_app; simpl; fold s; lia.
      * intros Hin. apply list_elem_of_singleton in Hin. lia.
Qed.

Lemma alist_get_filter {V} (d : list (string * V)) (P : string -> bool) k :
  Alist.get (List.filter (fun kv => P (fst kv)) d) k =
    if P k then Alist.get d k else None.
Proof.
  induction d as [|[k' v'] d IH]; simpl; [by destruct (P k)|].
  destruct (P k') eqn:Ek'; simpl; destruct (String.eqb k' k) eqn:E; try done.
  - apply String.eqb_eq in E; subst. by rewrite Ek'.
  - apply String.eqb_eq in E; subst. by rewrite IH, Ek'.
Qed.

Lemma safe_tree_get T section :
  Alist.get (safe_tree T) section = option_map (safe_section section) (Alist.get T section).
Proof.
  induction T as [|[s j] T IH]; simpl; [done|].
  destruct (String.eqb s section) eqn:E; [|done].
  apply String.eqb_eq in E. by subst.
Qed.

Lemma safe_tree_keys T : Alist.keys (safe_tree T) = Alist.keys T.
Proof. unfold safe_tree, Alist.keys. rewrite map_map. done. Qed.

Lemma safe_tree_no_credential T k :
  is_sensitive k = true -> json_get (JObj (safe_tree T)) ["api"; k] = None.
Proof.
  intros Hk. simpl. rewrite safe_tree_get.
  destruct (Alist.get T "api") as [j|]; [|done]. simpl.
  destruct j; try done. simpl.
  rewrite (alist_get_filter _ (fun k => negb (is_sensitive k))). by rewrite Hk.
Qed.

Lemma safe_tree_api_other T k :
  is_sensitive k = false ->
  json_get (JObj (safe_tree T)) ["api"; k] = json_get (JObj T) ["api"; k].
Proof.
  intros Hk. simpl. rewrite safe_tree_get.
  destruct (Alist.get T "api") as [j|]; [|done]. simpl.
  destruct j; try done. simpl.
  rewrite (alist_get_filter _ (fun k => negb (is_sensitive k))). by rewrite Hk.
Qed.

Lemma safe_tree_other_section T section :
  section <> "api" -> Alist.get (safe_tree T) section = Alist.get T section.
Proof.
  intros Hne. rewrite safe_tree_get. destruct (Alist.get T section); [|done].
  simpl. unfold safe_section.
  destruct (String.eqb section "api") eqn:E; [by apply String.eqb_eq in E | done].
Qed.

Lemma sections_are_mappings_copyable T :
  sections_are_mappings T -> sections_copyable T = true.
Proof.
  induction 1 as [|[s j] T Hj _ IH]; [done|].
  unfold sections_copyable. simpl. apply andb_true_iff. split; [|exact IH].
  simpl in Hj. by destruct j.
Qed.

Lemma safe_sections_raises d : forall h s,
  forallb (fun sv => value_copyable (fst sv) (snd sv)) d = false ->
  safe_sections h s d = Raise AttributeError.
Proof.
  induction d as [|[section v] d IH]; intros h s Hd; [done|].
  simpl in Hd. apply andb_false_iff in Hd. simpl.
  destruct (String.eqb section "api") eqn:Eapi.
  - destruct v; try done. simpl. apply IH.
    destruct Hd as [Hd|Hd]; [done | exact Hd].
  - destruct v; try done; simpl; apply IH; (destruct Hd as [Hd|Hd]; [|exact Hd]);
      simpl in Hd; by rewrite ?Eapi in Hd.
Qed.

Lemma repr_members_copyable h d T fp :
  repr_members h d T fp ->
  forallb (fun sv => value_copyable (fst sv) (snd sv)) d = sections_copyable T.
Proof.
  unfold sections_copyable.
  induction 1 as [|k v j d ms fp1 fp2 Hv Hd IH Hdisj]; simpl; [done|].
  rewrite IH. f_equal. by destruct Hv.
Qed.

Lemma create_safe_config_raises h self T fp :
  repr h (VDict (config self)) (JObj T) fp ->
  sections_copyable T = false ->
  _create_safe_config h self = Raise AttributeError.
Proof.
  intros Hrepr Hnot.
  apply repr_obj_inv in Hrepr as (a & d & fpm & [= <-] & -> & Hl & Hm & Hni).
  unfold _create_safe_config, alloc. rewrite (deref_lookup _ _ _ Hl).
  rewrite safe_sections_raises; [done|].
  by rewrite (repr_members_copyable _ _ _ _ Hm).
Qed.

Lemma create_safe_config_tree h self T fp :
  repr h (VDict (config self)) (JObj T) fp ->
  NoDup (Alist.keys T) ->
  sections_copyable T = true ->
  exists safe h' fp',
    _create_safe_config h self = Ok (safe, h') /\
    repr h' (VDict safe) (JObj (safe_tree T)) fp' /\
    preserves [] h h'.
Proof.
  intros Hrepr Hnd Hmaps.
  destruct (create_safe_config_repr h self T fp Hrepr Hmaps) as (safe & h' & fp' & Hok & Hr & Hp).
  rewrite safe_assign_tree in Hr by (done || (intros k _ [])). simpl in Hr.
  by exists safe, h', fp'.
Qed.

(** C8: on every configuration tree, the result of [_create_safe_config]
    -- what [save_config] hands to [json.dump] -- is a new tree with the
    sections of the original: its api section has no [key] and no [secret]
    entry, whether they were set or not, and keeps the other api entries;
    every other section is equal to the original one; the original tree is
    not modified.  There is a result when the sections are mappings. *)
Theorem create_safe_config_spec h self T fp :
  repr h (VDict (config self)) (JObj T) fp ->
  NoDup (Alist.keys T) ->
  (forall safe h',
     _create_safe_config h self = Ok (safe, h') ->
     exists fp',
       repr h' (VDict safe) (JObj (safe_tree T)) fp' /\
       dump h' (VDict safe) = Some (JObj (safe_tree T)) /\
       preserves [] h h') /\
  (sections_are_mappings T ->
   exists safe h', _create_safe_config h self = Ok (safe, h')) /\
  Alist.keys (safe_tree T) = Alist.keys T /\
  json_get (JObj (safe_tree T)) ["api"; "key"] = None /\
  json_get (JObj (safe_tree T)) ["api"; "secret"] = None /\
  (forall k, k <> "key" -> k <> "secret" ->
     json_get (JObj (safe_tree T)) ["api"; k] = json_get (JObj T) ["api"; k]) /\
  (forall section, section <> "api" ->
     Alist.get (safe_tree T) section = Alist.get T section).
Proof.
  intros Hrepr Hnd.
  split; [|split].
  - intros safe h' Hok.
    destruct (sections_copyable T) eqn:Hcopy.
    + destruct (create_safe_config_tree h self T fp Hrepr Hnd Hcopy)
        as (safe0 & h0 & fp' & Hok0 & Hr & Hp).
      rewrite Hok in Hok0. injection Hok0 as <- <-.
      exists fp'. split; [done|]. split; [by eapply dump_repr | done].
    + by rewrite (create_safe_config_raises h self T fp Hrepr Hcopy) in Hok.
  - intros Hmaps.
    destruct (create_safe_config_tree h self T fp Hrepr Hnd
                (sections_are_mappings_copyable T Hmaps))
      as (safe & h' & _ & Hok & _).
    by exists safe, h'.
  - split; [apply safe_tree_keys|].
    split; [by apply safe_tree_no_credential|].
    split; [by apply safe_tree_no_credential|].
    split; [|apply safe_tree_other_section].
    intros k Hk1 Hk2. apply safe_tree_api_other.
    unfold is_sensitive, PyStr.in_list. simpl.
    apply String.eqb_neq in Hk1, Hk2. by rewrite Hk1, Hk2.
Qed.

(** ** [set] on a tree, for a value that is not a dictionary *)

Lemma repr_scalar h v : is_dict v = false -> repr h v (scalar_json v) [].
Proof. destruct v; try done; intros _; constructor. Qed.

Lemma json_set_step j k k2 r x :
  json_set j (k :: k2 :: r) x =
    match j with
    | JObj ms =>
        JObj (Alist.set ms k
                (json_set (match Alist.get ms k with
                           | Some j' => j' | None => JObj [] end) (k2 :: r) x))
    | _ => j
    end.
Proof. reflexivity. Qed.

Lemma settable_step j k k2 r :
  settable j (k :: k2 :: r) =
    match j with
    | JObj ms => match Alist.get ms k with
                 | Some j' => settable j' (k2 :: r)
                 | None => true
                 end
    | _ => false
    end.
Proof. reflexivity. Qed.

Lemma set_from_repr keys : forall k h current j fp v x,
  repr h current j fp ->
  settable j (k :: keys) = true ->
  (forall h', repr h' v x []) ->
  exists h' fp',
    set_from h current (k :: keys) v = Ok h' /\
    repr h' current (json_set j (k :: keys) x) fp' /\
    preserves fp h h' /\ grown h fp fp'.
Proof.
  induction keys as [|k2 r IH]; intros k h current j fp v x Hrepr Hset Hleaf.
  - simpl in Hset. destruct j as [| | | | | |ms]; try done.
    apply repr_obj_inv in Hrepr as (a & d & fpm & -> & -> & Hl & Hm & Hni).
    pose proof (lookup_lt_Some _ _ _ Hl) as Ha.
    rewrite set_from_last. simpl setitem. rewrite (deref_lookup _ _ _ Hl).
    set (h' := store h a (Alist.set d k v)).
    assert (Hkey : exists fpo, key_footprint h d k fpo).
    { unfold key_footprint. pose proof (repr_members_get _ _ _ _ k Hm) as Hg.
      destruct (Alist.get d k); [destruct Hg as (? & ? & _ & ? & _)|]; eauto. }
    destruct Hkey as (fpo & Hkey).
    destruct (members_set h h' d ms fpm k v x [] fpo) as (fpm' & Hm' & Hsub'); try done.
    { intros y Hy _. unfold h'. apply lookup_store_ne. intros ->. done. }
    { intros y Hy. by apply elem_of_nil in Hy. }
    assert (Hsub : forall y, y ∈ fpm' -> y ∈ fpm).
    { intros y Hy. destruct (Hsub' y Hy) as [?|Hn]; [done | by apply elem_of_nil in Hn]. }
    exists h', (a :: fpm'). split; [done|]. split; [|split].
    + simpl. apply (repr_dict _ _ (Alist.set d k v)); [|done|].
      * unfold h'. by apply lookup_store_eq.
      * intros Hin. apply Hni. auto.
    + split; [unfold h'; by rewrite length_store|]. intros y Hy Hny.
      unfold h'. apply lookup_store_ne. intros ->. apply Hny. set_solver.
    + intros y Hy. left. set_solver.
  - rewrite settable_step in Hset. rewrite json_set_step.
    destruct j as [| | | | | |ms]; try done.
    apply repr_obj_inv in Hrepr as (a & d & fpm & -> & -> & Hl & Hm & Hni).
    pose proof (lookup_lt_Some _ _ _ Hl) as Ha.
    rewrite set_from_step. simpl contains. unfold Alist.has.
    rewrite (deref_lookup _ _ _ Hl).
    pose proof (repr_members_get _ _ _ _ k Hm) as Hg.
    destruct (Alist.get d k) as [v1|] eqn:Hk.
    + destruct Hg as (j1 & fpk & Hmk & Hr1 & Hsub). rewrite Hmk in Hset. rewrite Hmk.
      simpl. rewrite (deref_lookup _ _ _ Hl), Hk. simpl.
      destruct (IH k2 h v1 j1 fpk v x Hr1 Hset Hleaf) as (h' & fpk' & Hok & Hr' & Hp & Hg').
      assert (Hanot : a ∉ fpk) by (intros Hin; apply Hni; auto).
      destruct (members_set h h' d ms fpm k v1 (json_set j1 (k2 :: r) x) fpk' fpk)
        as (fpm' & Hm' & Hsub'); try done.
      { unfold key_footprint. rewrite Hk. eauto. }
      { intros y Hy Hny. apply Hp; [|done]. by eapply repr_members_in_bounds. }
      { intros y Hy Hym. destruct (Hg' y Hy) as [?|Hge]; [done|].
        pose proof (repr_members_in_bounds _ _ _ _ _ Hm Hym). lia. }
      rewrite (alist_set_same d k) in Hm' by done.
      exists h', (a :: fpm'). split; [done|]. split; [|split].
      * apply (repr_dict _ _ d); [|done|].
        -- rewrite (proj2 Hp); done.
        -- intros Hin. destruct (Hsub' _ Hin) as [?|Hn']; [done|].
           destruct (Hg' _ Hn') as [?|?]; [done | lia].
      * eapply preserves_weaken; [exact Hp|]. set_solver.
      * intros y Hy. apply elem_of_cons in Hy as [->|Hy]; [left; set_solver|].
        destruct (Hsub' _ Hy) as [?|Hn']; [left; set_solver|].
        destruct (Hg' _ Hn') as [?|?]; [left; set_solver | by right].
    + rewrite Hg. simpl. unfold alloc. simpl setitem.
      set (n := List.length h).
      assert (Hd0 : deref (h ++ [[]]) a = d).
      { apply deref_lookup. by rewrite lookup_alloc_old. }
      rewrite Hd0.
      set (d' := Alist.set d k (VDict n)).
      set (h1 := store (h ++ [[]]) a d').
      assert (Hlen1 : List.length h1 = S n).
      { unfold h1. rewrite length_store, length_app. simpl. lia. }
      assert (Hl1 : h1 !! a = Some d').
      { apply lookup_store_eq. rewrite length_app; simpl; lia. }
      assert (Hn1 : h1 !! n = Some []).
      { unfold h1. rewrite lookup_store_ne by (unfold n; lia). apply lookup_alloc_new. }
      simpl. rewrite (deref_lookup _ _ _ Hl1). unfold d' at 1.
      rewrite alist_get_set_eq. simpl.
      assert (Hrn : repr h1 (VDict n) (JObj []) [n]).
      { apply (repr_dict _ _ []); [done | constructor |].
        intros Hin. by apply elem_of_nil in Hin. }
      destruct (IH k2 h1 (VDict n) (JObj []) [n] v x Hrn (settable_empty _ _) Hleaf)
        as (h' & fpn' & Hok & Hr' & Hp & Hg').
      assert (Hfresh : forall y, y ∈ fpn' -> (n <= y)%nat).
      { intros y Hy. destruct (Hg' y Hy) as [Hy'|?]; [|lia].
        apply list_elem_of_singleton in Hy'. lia. }
      assert (Hold : forall y, (y < n)%nat -> y <> a -> h' !! y = h !! y).
      { intros y Hy Hya. rewrite (proj2 Hp); [|lia|].
        - unfold h1. rewrite lookup_store_ne by done. by apply lookup_alloc_old.
        - intros Hin. apply list_elem_of_singleton in Hin. lia. }
      assert (Hbm : forall y, y ∈ fpm -> (y < n)%nat).
      { intros y Hy. exact (repr_members_in_bounds _ _ _ _ _ Hm Hy). }
      destruct (members_set h h' d ms fpm k (VDict n) (json_set (JObj []) (k2 :: r) x) fpn' [])
        as (fpm' & Hm' & Hsub'); try done.
      { unfold key_footprint. by rewrite Hk. }
      { intros y Hy _. apply Hold; [by apply Hbm|]. intros ->. done. }
      { intros y Hy Hym. specialize (Hfresh y Hy). specialize (Hbm y Hym). lia. }
      exists h', (a :: fpm'). split; [done|]. split; [|split].
      * apply (repr_dict _ _ d'); [|done|].
        -- rewrite (proj2 Hp); [done | lia |]. intros Hin.
           apply list_elem_of_singleton in Hin. unfold n in Hin. lia.
        -- intros Hin. destruct (Hsub' _ Hin) as [?|Hn']; [done|].
           specialize (Hfresh _ Hn'). unfold n in Hfresh. lia.
      * split; [destruct Hp; lia|]. intros y Hy Hny. apply Hold; [done|].
        intros ->. apply Hny. set_solver.
      * intros y Hy. apply elem_of_cons in Hy as [->|Hy]; [left; set_solver|].
        destruct (Hsub' _ Hy) as [?|Hn']; [left; set_solver|].
        right. by apply Hfresh.
Qed.

(** ** The environment pass *)

Lemma convert_env_value_scalar text : is_dict (_convert_env_value text) = false.
Proof.
  unfold _convert_env_value.
  destruct (PyStr.in_list _ _); [done|].
  destruct (if negb _ then _ else _); [done|].
  by destruct (PyNum.py_float text).
Qed.

Lemma env_vars_loop_step w self env_key section config_key rest :
  env_vars_loop w self ((env_key, (section, config_key)) :: rest) =
    match os_getenv w env_key with
    | None => env_vars_loop w self rest
    | Some env_value =>
        h2 ← set_from (w_heap w) (VDict (config self)) [section; config_key]
               (_convert_env_value env_value);
        env_vars_loop (with_heap w h2) self rest
    end.
Proof.
  simpl. destruct (os_getenv w env_key) as [t|]; [|done].
  rewrite set_from_step. simpl.
  destruct (negb _); simpl.
  - destruct (Alist.get _ section); [|done]. simpl. by rewrite set_from_last.
  - destruct (Alist.get _ section); [|done]. simpl. by rewrite set_from_last.
Qed.

Lemma json_set_is_obj T keys x : is_obj T = true -> keys <> [] -> is_obj (json_set T keys x) = true.
Proof.
  destruct T; try done. intros _ Hk. destruct keys as [|k [|k2 r]]; done.
Qed.

Lemma json_get_set_same T s k x :
  settable T [s; k] = true -> json_get (json_set T [s; k] x) [s; k] = Some x.
Proof.
  rewrite settable_step, json_set_step. destruct T as [| | | | | |ms]; try done.
  intros Hset. simpl. rewrite alist_get_set_eq.
  destruct (Alist.get ms s) as [inner|].
  - simpl in Hset. destruct inner; try done. simpl. by rewrite alist_get_set_eq.
  - simpl. by rewrite String.eqb_refl.
Qed.

Lemma json_get_set_other T s k s' k' x :
  (s, k) <> (s', k') ->
  settable T [s'; k'] = true ->
  json_get (json_set T [s'; k'] x) [s; k] = json_get T [s; k].
Proof.
  rewrite settable_step, json_set_step. destruct T as [| | | | | |ms]; try done.
  intros Hne Hset. simpl. rewrite alist_get_set.
  destruct (String.eqb s' s) eqn:E; [|done].
  apply String.eqb_eq in E; subst s'.
  assert (k' <> k) by congruence.
  destruct (Alist.get ms s) as [inner|].
  - simpl in Hset. destruct inner; try done. simpl. by rewrite alist_get_set_ne.
  - simpl. destruct (String.eqb k' k) eqn:E'; [by apply String.eqb_eq in E' | done].
Qed.

Lemma settable_json_set T s k s' k' x :
  settable T [s; k] = true -> settable T [s'; k'] = true ->
  settable (json_set T [s'; k'] x) [s; k] = true.
Proof.
  rewrite !settable_step, json_set_step. destruct T as [| | | | | |ms]; try done.
  intros H1 H2. rewrite alist_get_set.
  destruct (String.eqb s' s) eqn:E; [|done].
  apply String.eqb_eq in E; subst s'.
  destruct (Alist.get ms s) as [inner|]; [|done].
  simpl in *. by destruct inner.
Qed.

Lemma destinations_settable_step getenv T s' k' x table :
  settable T [s'; k'] = true ->
  destinations_settable getenv T table ->
  destinations_settable getenv (json_set T [s'; k'] x) table.
Proof.
  intros Hs Hall. unfold destinations_settable. eapply Forall_impl; [exact Hall|].
  intros e [Hn|He]; [by left | right]. by apply settable_json_set.
Qed.

Lemma destinations_steps_settable getenv table : forall T,
  destinations_settable getenv T table -> steps_settable getenv T table.
Proof.
  induction table as [|[n [s k]] table IH]; intros T Hok; [done|].
  apply Forall_cons in Hok as [Hhead Hok]. simpl in Hhead.
  cbn [steps_settable]. destruct (getenv n) as [t|]; [|by apply IH].
  destruct Hhead as [?|Hset]; [done|]. split; [done|].
  apply IH. by apply destinations_settable_step.
Qed.

Lemma env_apply_other getenv table : forall T s k,
  ~ In (s, k) (map snd table) ->
  steps_settable getenv T table ->
  json_get (env_apply getenv T table) [s; k] = json_get T [s; k].
Proof.
  induction table as [|[n [s' k']] table IH]; intros T s k Hni Hok; [done|].
  assert (Hne : (s, k) <> (s', k')) by (intros Heq; apply Hni; left; done).
  assert (Hni' : ~ In (s, k) (map snd table)) by (intros Hin; apply Hni; by right).
  cbn [env_apply steps_settable] in *. destruct (getenv n) as [t|].
  - destruct Hok as [Hset Hok]. rewrite IH; [by apply json_get_set_other | done | done].
  - by apply IH.
Qed.

Lemma env_apply_get getenv table : forall T n s k t,
  List.NoDup (map snd table) ->
  steps_settable getenv T table ->
  In (n, (s, k)) table -> getenv n = Some t ->
  json_get (env_apply getenv T table) [s; k] = Some (scalar_json (_convert_env_value t)).
Proof.
  induction table as [|[n' [s' k']] table IH]; intros T n s k t Hnd Hok Hin Hn; [done|].
  simpl in Hnd. apply List.NoDup_cons_iff in Hnd as [Hni Hnd].
  cbn [env_apply steps_settable] in *.
  destruct Hin as [[= -> -> ->]|Hin].
  - rewrite Hn in *. destruct Hok as [Hset Hok].
    rewrite env_apply_other; [by apply json_get_set_same | done | done].
  - destruct (getenv n') as [t'|]; [|by eapply IH].
    destruct Hok as [Hset Hok]. by eapply IH.
Qed.

Lemma env_vars_loop_repr self table : forall w T fp,
  repr (w_heap w) (VDict (config self)) T fp ->
  steps_settable (os_getenv w) T table ->
  exists w' fp',
    env_vars_loop w self table = Ok w' /\
    repr (w_heap w') (VDict (config self)) (env_apply (os_getenv w) T table) fp' /\
    w_environ w' = w_environ w /\ w_files w' = w_files w /\
    preserves fp (w_heap w) (w_heap w') /\ grown (w_heap w) fp fp'.
Proof.
  induction table as [|[n [s k]] table IH]; intros w T fp Hrepr Hok.
  - exists w, fp. repeat split; try done. intros a Ha. by left.
  - rewrite env_vars_loop_step. cbn [env_apply steps_settable] in *.
    destruct (os_getenv w n) as [t|] eqn:Hn; [|by apply IH].
    destruct Hok as [Hset Hok].
    destruct (set_from_repr [k] s (w_heap w) _ T fp (_convert_env_value t)
                (scalar_json (_convert_env_value t)) Hrepr Hset)
      as (h2 & fp2 & Hset2 & Hr2 & Hp2 & Hg2).
    { intros h'. apply repr_scalar, convert_env_value_scalar. }
    rewrite Hset2. simpl.
    destruct (IH (with_heap w h2) _ fp2 Hr2 Hok)
      as (w' & fp' & Hloop & Hr' & He & Hf & Hp' & Hg').
    exists w', fp'. split; [done|]. split; [done|]. split; [done|]. split; [done|].
    split.
    + eapply preserves_trans; [exact Hp2 | exact Hg2 | exact Hp'].
    + eapply grown_trans; [apply Hp2 | exact Hg2 | exact Hg'].
Qed.

(** When the pass completes, every assignment it made was possible. *)
Lemma env_vars_loop_settable self table : forall w w' T fp,
  repr (w_heap w) (VDict (config self)) T fp ->
  env_vars_loop w self table = Ok w' ->
  steps_settable (os_getenv w) T table.
Proof.
  induction table as [|[n [s k]] table IH]; intros w w' T fp Hrepr Hloop; [done|].
  rewrite env_vars_loop_step in Hloop. cbn [steps_settable].
  destruct (os_getenv w n) as [t|] eqn:Hn; [|by eapply IH].
  destruct (settable T [s; k]) eqn:Hset.
  - split; [done|].
    destruct (set_from_repr [k] s (w_heap w) _ T fp (_convert_env_value t)
                (scalar_json (_convert_env_value t)) Hrepr Hset)
      as (h2 & fp2 & Hset2 & Hr2 & _).
    { intros h'. apply repr_scalar, convert_env_value_scalar. }
    rewrite Hset2 in Hloop. simpl in Hloop.
    by apply (IH (with_heap w h2) w' _ fp2).
  - rewrite (set_from_raises [k] s (w_heap w) _ T fp) in Hloop by done. done.
Qed.

(** The pass is the loop over the table; proofs rewrite with this equation
    so that the table is never unfolded. *)
Lemma load_from_env_vars_eq w self :
  _load_from_env_vars w self = env_vars_loop w self env_mappings.
Proof. reflexivity. Qed.

Lemma env_vars_loop_unset w self table :
  (forall name dest, In (name, dest) table -> os_getenv w name = None) ->
  env_vars_loop w self table = Ok w.
Proof.
  induction table as [|[n [s k]] table IH]; intros Hnone; [done|].
  rewrite env_vars_loop_step, (Hnone n (s, k)) by (by left).
  apply IH. intros name dest Hin. apply (Hnone name dest). by right.
Qed.

(** ** Construction: defaults, then the structured file *)

Lemma merge_tree_nil b : merge_tree b [] = b.
Proof. reflexivity. Qed.

Lemma init_stages json_loads w cf ef :
  exists c d h1 fp,
    __init__ json_loads w cf ef =
      (w2 ← _load_from_env_vars
              (_load_from_env_file (with_heap w h1) (Manager cf ef c d))
              (Manager cf ef c d);
       Ok (Manager cf ef c d, w2)) /\
    repr h1 (VDict c)
      (JObj (merge_tree default_members (file_members json_loads w cf))) fp /\
    (List.length (w_heap w) <= List.length h1)%nat /\
    (forall a, a ∈ fp -> (List.length (w_heap w) <= a)%nat) /\
    (forall a, (a < List.length (w_heap w))%nat -> h1 !! a = w_heap w !! a).
Proof.
  unfold __init__, alloc.
  destruct (_get_default_config (w_heap w ++ [[]])) as [d h2] eqn:Ed.
  destruct (_get_default_config_repr _ _ _ Ed) as (fpd & Hrd & Hged & Hlend & Holdd).
  apply repr_obj_inv in Hrd as (d' & dd & fpm & [= <-] & -> & Hld & Hmd & Hnid).
  rewrite length_app in *. simpl in *.
  unfold load_config, alloc. simpl. rewrite (deref_lookup _ _ _ Hld).
  set (c := List.length h2).
  set (h3 := h2 ++ [dd]).
  assert (Hr3 : repr h3 (VDict c) (JObj default_members) (c :: fpm)).
  { apply (repr_dict _ _ dd); [apply lookup_alloc_new| |].
    - eapply repr_members_frame; [exact Hmd|]. intros a Ha.
      apply lookup_alloc_old. by eapply repr_members_in_bounds.
    - intros Hin. pose proof (repr_members_in_bounds _ _ _ _ _ Hmd Hin). lia. }
  assert (Hlen3 : List.length h3 = S c) by (unfold h3; rewrite length_app; simpl; lia).
  assert (Hfp3 : forall a, a ∈ c :: fpm -> (List.length (w_heap w) <= a)%nat).
  { intros a Ha. apply elem_of_cons in Ha as [->|Ha]; [unfold c; lia|].
    assert (a ∈ d :: fpm) as Ha' by set_solver. specialize (Hged a Ha'). lia. }
  assert (Hold3 : forall a, (a < List.length (w_heap w))%nat -> h3 !! a = w_heap w !! a).
  { intros a Ha. unfold h3. rewrite lookup_alloc_old by (unfold c; lia).
    rewrite Holdd by lia. by apply lookup_alloc_old. }
  unfold _load_from_json, file_members. simpl.
  destruct (Alist.get (w_files w) cf) as [text|];
    [destruct (json_loads text) as [[| | | | | |ms]|]|];
    try (exists c, d, h3, (c :: fpm); split; [reflexivity|];
         split; [exact Hr3|]; split; [lia|]; split; [exact Hfp3 | exact Hold3]).
  destruct (deep_merge_repr h3 c default_members (c :: fpm) ms Hr3) as (fp' & Hr' & Hp' & Hg').
  exists c, d, (_deep_merge h3 c ms), fp'. split; [reflexivity|]. split; [exact Hr'|].
  destruct Hp' as [Hlen' Hsame']. split; [lia|]. split.
  - intros a Ha. destruct (Hg' a Ha) as [Ha'|Hge]; [by apply Hfp3 | lia].
  - intros a Ha. rewrite Hsame'; [by apply Hold3 | lia |].
    intros Hin. specialize (Hfp3 a Hin). lia.
Qed.

(** ** Precedence of the sources (C1) *)

Lemma merge_tree_keeps_object u : forall b s,
  (forall j, In (s, j) u -> is_obj j = true) ->
  (exists bo, Alist.get b s = Some (JObj bo)) ->
  exists mo, Alist.get (merge_tree b u) s = Some (JObj mo).
Proof.
  induction u as [|[k j] u IH]; intros b s Hobj Hb; [done|].
  simpl. apply IH.
  - intros j' Hin. apply Hobj. by right.
  - destruct (String.eqb k s) eqn:E.
    + apply String.eqb_eq in E; subst k. rewrite merge_item_get_same.
      destruct Hb as [bo ->]. specialize (Hobj j (or_introl eq_refl)).
      destruct j; try done. eauto.
    + apply String.eqb_neq in E. by rewrite merge_item_get_other.
Qed.

Lemma default_sections_are_mappings s :
  In s section_names -> exists bo, Alist.get default_members s = Some (JObj bo).
Proof.
  intros Hin. simpl in Hin.
  repeat (destruct Hin as [<-|Hin]; [eexists; reflexivity|]). done.
Qed.

Lemma env_mappings_shape :
  Forall (fun e => In (fst (snd e)) section_names /\
                   PyStr.split "." (dotted (snd e)) = [fst (snd e); snd (snd e)])
         env_mappings.
Proof.
  repeat (apply List.Forall_cons;
          [split; [simpl; repeat (first [left; reflexivity | right]) | reflexivity]|]).
  apply List.Forall_nil.
Qed.

Lemma env_mappings_distinct : List.NoDup (map snd env_mappings).
Proof. apply NoDup_ListNoDup, (bool_decide_unpack _). by vm_compute. Qed.

Lemma env_mappings_settable getenv M :
  (forall s, In s section_names -> exists mo, Alist.get M s = Some (JObj mo)) ->
  destinations_settable getenv (JObj M) env_mappings.
Proof.
  intros Hsec. unfold destinations_settable.
  eapply Forall_impl; [exact env_mappings_shape|].
  intros [n [s k]] [Hin _]. right. simpl in *.
  destruct (Hsec s Hin) as [mo ->]. done.
Qed.

Lemma leaf_value_scalar_json v : is_dict v = false -> leaf_value (scalar_json v) = v.
Proof. by destruct v. Qed.

Lemma scalar_json_not_obj v : is_obj (scalar_json v) = false.
Proof. by destruct v. Qed.

Lemma load_from_env_file_frame w self :
  w_heap (_load_from_env_file w self) = w_heap w /\
  w_files (_load_from_env_file w self) = w_files w.
Proof. unfold _load_from_env_file. by destruct (Alist.get (w_files w) (env_file self)). Qed.

(** C1: precedence.  Whenever construction completes, the tree it leaves
    is the defaults, with the structured file merged over them, with the
    environment pass applied last; so for every entry of the variable table
    whose variable is set -- by the process environment or by the dotenv
    file -- [get] at the entry's path returns the coerced value of the
    variable, whatever the defaults and the file hold there.  Construction
    completes when the file keeps the five-section shape (what it gives for a
    section name is a mapping). *)
Theorem env_overrides_file_and_defaults json_loads w cf ef :
  (forall self w',
     __init__ json_loads w cf ef = Ok (self, w') ->
     (exists fp,
        repr (w_heap w') (VDict (config self))
          (env_apply (os_getenv w')
             (JObj (merge_tree default_members (file_members json_loads w cf)))
             env_mappings) fp) /\
     forall name dest text default,
       In (name, dest) env_mappings -> os_getenv w' name = Some text ->
       get (w_heap w') self (dotted dest) default = Ok (_convert_env_value text)) /\
  (file_sections_are_mappings (file_members json_loads w cf) ->
   exists self w', __init__ json_loads w cf ef = Ok (self, w')).
Proof.
  destruct (init_stages json_loads w cf ef) as (c & d & h1 & fp1 & Hinit & Hr1 & _).
  set (self0 := Manager cf ef c d) in *.
  set (M := merge_tree default_members (file_members json_loads w cf)) in *.
  set (w1 := _load_from_env_file (with_heap w h1) self0) in *.
  destruct (load_from_env_file_frame (with_heap w h1) self0) as [Hh1 _].
  fold w1 in Hh1. simpl in Hh1.
  assert (Hr1' : repr (w_heap w1) (VDict (config self0)) (JObj M) fp1) by (by rewrite Hh1).
  rewrite load_from_env_vars_eq in Hinit.
  split.
  - intros self w' Hok. rewrite Hinit in Hok.
    destruct (env_vars_loop w1 self0 env_mappings) as [w2|] eqn:Hloop; [|done].
    simpl in Hok. injection Hok as <- <-.
    pose proof (env_vars_loop_settable self0 env_mappings w1 w2 _ _ Hr1' Hloop) as Hsteps.
    destruct (env_vars_loop_repr self0 env_mappings w1 (JObj M) fp1 Hr1' Hsteps)
      as (w' & fp' & Hloop' & Hr' & Henv & _).
    assert (w' = w2) by congruence; subst w'.
    assert (Hgetenv : os_getenv w2 = os_getenv w1).
    { unfold os_getenv. by rewrite Henv. }
    rewrite Hgetenv. split; [by exists fp'|].
    intros name [s k] text default Hin Hset. rewrite get_lookup. unfold lookup.
    pose proof env_mappings_shape as Hshape.
    rewrite Forall_forall in Hshape.
    destruct (Hshape (name, (s, k))) as [_ Hsplit]; [by apply list_elem_of_In|].
    simpl in Hsplit. rewrite Hsplit.
    pose proof (resolve_repr _ _ _ _ [s; k] Hr') as Hres.
    rewrite (env_apply_get (os_getenv w1) env_mappings (JObj M) name s k text) in Hres;
      [|exact env_mappings_distinct | done | done | done].
    destruct Hres as (v' & fp'' & -> & Hv' & _).
    apply repr_leaf in Hv' as [-> _]; [|apply scalar_json_not_obj].
    f_equal. apply leaf_value_scalar_json, convert_env_value_scalar.
  - intros Hfile.
    assert (Hsec : forall s, In s section_names -> exists mo, Alist.get M s = Some (JObj mo)).
    { intros s Hs. apply merge_tree_keeps_object.
      - intros j Hin. by apply (Hfile s j).
      - by apply default_sections_are_mappings. }
    destruct (env_vars_loop_repr self0 env_mappings w1 (JObj M) fp1 Hr1')
      as (w' & fp' & Hloop & _).
    { by apply destinations_steps_settable, env_mappings_settable. }
    exists self0, w'. rewrite Hinit, Hloop. done.
Qed.

(** ** Persist, then load (C9) *)

Lemma wf_json_obj ms :
  wf_json (JObj ms) <-> NoDup (Alist.keys ms) /\ Forall (fun kj => wf_json (snd kj)) ms.
Proof.
  simpl. apply and_iff_compat_l.
  induction ms as [|[k j] ms IH]; simpl.
  - split; [constructor | done].
  - rewrite Forall_cons, IH. done.
Qed.

Lemma NoDup_keys_filter {V} (d : list (string * V)) (P : string * V -> bool) :
  NoDup (Alist.keys d) -> NoDup (Alist.keys (List.filter P d)).
Proof.
  induction d as [|[k v] d IH]; simpl; [done|].
  intros Hnd. apply NoDup_cons in Hnd as [Hni Hnd].
  destruct (P (k, v)); [|by apply IH]. simpl. apply NoDup_cons. split; [|by apply IH].
  intros Hin. apply Hni. unfold Alist.keys in *.
  apply list_elem_of_fmap in Hin as ([k' v'] & -> & Hin).
  apply list_elem_of_fmap. exists (k', v'). split; [done|].
  apply list_elem_of_In in Hin. apply filter_In in Hin as [Hin _].
  by apply list_elem_of_In.
Qed.

Lemma wf_json_without_credentials j : wf_json j -> wf_json (without_credentials j).
Proof.
  destruct j as [| | | | | |ms]; try done. unfold without_credentials.
  rewrite !wf_json_obj. intros [Hnd Hall]. split; [by apply NoDup_keys_filter|].
  apply Forall_forall. intros kj Hin. rewrite Forall_forall in Hall. apply Hall.
  apply list_elem_of_In in Hin. apply filter_In in Hin as [Hin _].
  by apply list_elem_of_In.
Qed.

Lemma wf_json_safe_tree T : wf_json (JObj T) -> wf_json (JObj (safe_tree T)).
Proof.
  rewrite !wf_json_obj. intros [Hnd Hall]. split; [by rewrite safe_tree_keys|].
  unfold safe_tree. apply Forall_fmap. eapply Forall_impl; [exact Hall|].
  intros [s j] Hwf. simpl in *. unfold safe_section.
  destruct (String.eqb s "api"); [by apply wf_json_without_credentials | done].
Qed.

Lemma merge_keeps_leaf keys : forall b u j,
  wf_json (JObj u) ->
  json_get (JObj u) keys = Some j -> is_obj j = false ->
  json_get (JObj (merge_tree b u)) keys = Some j.
Proof.
  induction keys as [|k rest IH]; intros b u j Hwf Hget Hleaf.
  - injection Hget as <-. done.
  - apply wf_json_obj in Hwf as [Hnd Hall].
    simpl in Hget. simpl. rewrite merge_tree_get by done. unfold merged_at.
    destruct (Alist.get u k) as [ju|] eqn:Hk; [|done].
    assert (Hwfu : wf_json ju).
    { rewrite Forall_forall in Hall.
      apply (Hall (k, ju)), list_elem_of_In, alist_get_Some_In, Hk. }
    destruct (Alist.get b k) as [[| | | | | |bo]|]; try done.
    destruct ju as [| | | | | |uo]; try done.
    destruct rest as [|k2 r].
    + injection Hget as <-. done.
    + by apply IH.
Qed.

Lemma safe_tree_keeps_leaf T keys j :
  json_get (JObj T) keys = Some j -> is_obj j = false ->
  credential_path keys = false ->
  json_get (JObj (safe_tree T)) keys = Some j.
Proof.
  destruct keys as [|s rest]; [by intros [= <-]|].
  simpl. rewrite safe_tree_get.
  destruct (Alist.get T s) as [js|]; [|done]. simpl.
  unfold safe_section. destruct (String.eqb s "api"); [|done].
  destruct rest as [|k r].
  - intros [= ->] Hleaf _. by destruct j.
  - simpl. intros Hget Hleaf Hk. destruct js as [| | | | | |ms]; try done. simpl.
    rewrite (alist_get_filter _ (fun k => negb (is_sensitive k))). by rewrite Hk.
Qed.

Lemma alist_keys_In_get {V} (d : list (string * V)) k :
  In k (Alist.keys d) -> exists v, Alist.get d k = Some v.
Proof.
  intros Hin. destruct (Alist.get d k) eqn:E; [eauto|].
  by apply alist_get_None in E.
Qed.

(** C9: round trip.  From a configuration tree whose sections are mappings,
    [save_config(path)] followed by a construction that reads [path] as its
    structured file -- no dotenv file, none of the table's variables set, and
    a [json] module that reads back the document it wrote -- gives a
    configuration in which every path that held a value (other than a
    mapping) outside [api.key] and [api.secret] holds the same value. *)
Theorem persist_load_roundtrip json_loads json_dumps w self T fp path ef :
  repr (w_heap w) (VDict (config self)) (JObj T) fp ->
  wf_json (JObj T) ->
  sections_are_mappings T ->
  path <> "" ->
  json_loads (json_dumps (JObj (safe_tree T))) = Some (JObj (safe_tree T)) ->
  let w1 := save_config json_dumps w self (Some path) in
  Alist.get (w_files w1) ef = None ->
  (forall name dest, In (name, dest) env_mappings -> os_getenv w1 name = None) ->
  exists self' w',
    __init__ json_loads w1 path ef = Ok (self', w') /\
    forall p v default,
      resolve (w_heap w) (VDict (config self)) (PyStr.split "." p) = Some v ->
      is_dict v = false ->
      credential_path (PyStr.split "." p) = false ->
      get (w_heap w') self' p default = Ok v.
Proof.
  intros Hrepr Hwf Hmaps Hpath Hcodec w1 Hnoenv Hunset.
  pose proof (proj1 (wf_json_obj T) Hwf) as [Hnd _].
  destruct (create_safe_config_tree _ _ _ _ Hrepr Hnd
              (sections_are_mappings_copyable T Hmaps))
    as (safe & hs & fps & Hsafe & Hrs & _).
  pose proof (dump_repr _ _ _ _ Hrs) as Hdump.
  assert (Hw1 : w1 = World hs (w_environ w)
                       (Alist.set (w_files w) path (json_dumps (JObj (safe_tree T))))).
  { destruct (String.eqb path "") eqn:E; [by apply String.eqb_eq in E |].
    unfold w1, save_config. cbv beta iota zeta.
    rewrite Hsafe, E. cbv beta iota. by rewrite E, Hdump. }
  assert (Hdoc : file_members json_loads w1 path = safe_tree T).
  { unfold file_members. rewrite Hw1. simpl. by rewrite alist_get_set_eq, Hcodec. }
  destruct (init_stages json_loads w1 path ef) as (c & d & h1 & fp1 & Hinit & Hr1 & _).
  rewrite Hdoc in Hr1.
  set (self' := Manager path ef c d) in *.
  assert (Hfile : _load_from_env_file (with_heap w1 h1) self' = with_heap w1 h1).
  { unfold _load_from_env_file. simpl. by rewrite Hnoenv. }
  rewrite Hfile, load_from_env_vars_eq in Hinit.
  rewrite env_vars_loop_unset in Hinit by (intros name dest Hin; by apply (Hunset name dest)).
  exists self', (with_heap w1 h1). split; [exact Hinit|].
  intros p v default Hres Hleaf Hcred. rewrite get_lookup. unfold lookup. simpl.
  pose proof (resolve_repr _ _ _ _ (PyStr.split "." p) Hrepr) as Hold.
  destruct (json_get (JObj T) (PyStr.split "." p)) as [j|] eqn:Hj; [|congruence].
  destruct Hold as (v0 & fp0 & Hres0 & Hv0 & _).
  assert (v0 = v) by congruence; subst v0.
  assert (Hjleaf : is_obj j = false) by (by rewrite <- (repr_is_dict _ _ _ _ Hv0)).
  apply repr_leaf in Hv0 as [-> _]; [|done].
  pose proof (resolve_repr _ _ _ _ (PyStr.split "." p) Hr1) as Hnew.
  rewrite (merge_keeps_leaf _ _ _ j) in Hnew; try done.
  - destruct Hnew as (v' & fp' & -> & Hv' & _).
    apply repr_leaf in Hv' as [-> _]; done.
  - by apply wf_json_safe_tree.
  - by apply safe_tree_keeps_leaf.
Qed.

(** ** The defaults are shared, not copied (C4) *)

(** C4, where the code departs from the claim: [self.defaults.copy()] copies
    the top-level dictionary only, so the section dictionaries of the working
    tree are the ones of [self.defaults].  After a construction that merges
    {"trading": {"max_quantity": 5}} and reads BINANCE_API_KEY=k, the stored
    defaults hold trading.max_quantity = 5 (the built-in default is 1000) and
    an api.key entry: they are no longer the built-in defaults. *)
Theorem load_config_mutates_defaults :
  exists self w,
    __init__ (sample_loads (JObj max_quantity_5))
      (World [] [("BINANCE_API_KEY", "k")] [("config.json", "saved")])
      "config.json" ".env" = Ok (self, w) /\
    json_get default_config ["trading"; "max_quantity"] = Some (JInt 1000) /\
    resolve (w_heap w) (VDict (defaults self)) ["trading"; "max_quantity"] = Some (VInt 5) /\
    json_get default_config ["api"; "key"] = None /\
    resolve (w_heap w) (VDict (defaults self)) ["api"; "key"] = Some (VStr "k") /\
    dump (w_heap w) (VDict (defaults self)) <> Some default_config /\
    Alist.get (deref (w_heap w) (config self)) "trading" =
      Alist.get (deref (w_heap w) (defaults self)) "trading".
Proof.
  eexists _, _. split; [vm_compute; reflexivity|].
  repeat split; try (vm_compute; reflexivity).
  vm_compute. discriminate.
Qed.

(** ** The statements on concrete configurations *)

Ltac repr_eval :=
  repeat first
    [ apply repr_none | apply repr_bool | apply repr_int | apply repr_float
    | apply repr_str | apply repr_list | apply repr_nil
    | eapply repr_dict; [reflexivity | | ]
    | eapply repr_cons ];
  try (intros a Ha; set_solver); try set_solver.

Lemma sample_repr :
  repr sample_heap (VDict 0) (JObj sample_tree) [0; 1; 2]%nat.
Proof.
  eassert (H : repr sample_heap (VDict 0) (JObj sample_tree) _);
    [unfold sample_tree; repr_eval | exact H].
Defined.

Ltac nodup_eval := apply (bool_decide_unpack _); vm_compute; exact I.

(** C3 on the sample: ["a.b.c"] goes through two segments that do not exist. *)
Lemma set_then_get_witness :
  settable (JObj sample_tree) (PyStr.split "." "a.b.c") = true /\
  exists h', set sample_heap sample_self "a.b.c" (VInt 1) = Ok h' /\
             get h' sample_self "a.b.c" VNone = Ok (VInt 1) /\
             preserves [0; 1; 2]%nat sample_heap h'.
Proof.
  split; [reflexivity|].
  apply (set_then_get sample_heap sample_self (JObj sample_tree) [0; 1; 2]%nat
           "a.b.c" (VInt 1) VNone sample_repr).
  reflexivity.
Defined.

(** C5 on the sample: the incoming document names one key of one section. *)
Lemma deep_merge_semantics_witness :
  NoDup (Alist.keys max_quantity_5) /\
  exists fp',
    repr (_deep_merge sample_heap 0 max_quantity_5) (VDict 0)
      (JObj (merge_tree sample_tree max_quantity_5)) fp' /\
    preserves [0; 1; 2]%nat sample_heap (_deep_merge sample_heap 0 max_quantity_5) /\
    forall k, Alist.get (merge_tree sample_tree max_quantity_5) k =
              merged_at sample_tree max_quantity_5 k.
Proof.
  assert (Hnd : NoDup (Alist.keys max_quantity_5)) by nodup_eval.
  split; [exact Hnd|].
  exact (proj1 deep_merge_semantics sample_heap 0%nat sample_tree [0; 1; 2]%nat
           max_quantity_5 sample_repr Hnd).
Defined.

(** C8 on the sample, whose api section holds both credentials. *)
Lemma create_safe_config_spec_witness :
  NoDup (Alist.keys sample_tree) /\ sections_are_mappings sample_tree /\
  exists safe h' fp',
    _create_safe_config sample_heap sample_self = Ok (safe, h') /\
    repr h' (VDict safe) (JObj (safe_tree sample_tree)) fp' /\
    dump h' (VDict safe) =
      Some (JObj [("api", JObj [("timeout", JInt 30)]);
                  ("trading", JObj [("max_quantity", JInt 5);
                                    ("default_symbol", JStr "ETHUSDT")])]) /\
    preserves [] sample_heap h'.
Proof.
  assert (Hnd : NoDup (Alist.keys sample_tree)) by nodup_eval.
  assert (Hmaps : sections_are_mappings sample_tree)
    by (repeat apply List.Forall_cons; try apply List.Forall_nil; reflexivity).
  split; [exact Hnd|]. split; [exact Hmaps|].
  destruct (create_safe_config_spec sample_heap sample_self sample_tree [0; 1; 2]%nat
              sample_repr Hnd) as (Hresult & Hreturns & _).
  destruct (Hreturns Hmaps) as (safe & h' & Hok).
  destruct (Hresult safe h' Hok) as (fp' & Hr & Hdump & Hp).
  exists safe, h', fp'. split; [exact Hok|]. split; [exact Hr|].
  split; [exact Hdump | exact Hp].
Defined.

Lemma sample_wf : wf_json (JObj sample_tree).
Proof. simpl. repeat split; nodup_eval. Defined.

(** C9 on the sample: saved, then read back by a new manager. *)
Lemma persist_load_roundtrip_witness :
  let loads := sample_loads (JObj (safe_tree sample_tree)) in
  let w := World sample_heap [] [] in
  let w1 := save_config sample_dumps w sample_self (Some "config.json") in
  exists self' w',
    __init__ loads w1 "config.json" ".env" = Ok (self', w') /\
    forall p v default,
      resolve sample_heap (VDict 0) (PyStr.split "." p) = Some v ->
      is_dict v = false ->
      credential_path (PyStr.split "." p) = false ->
      get (w_heap w') self' p default = Ok v.
Proof.
  intros loads w w1.
  apply (persist_load_roundtrip loads sample_dumps w sample_self sample_tree
           [0; 1; 2]%nat "config.json" ".env" sample_repr sample_wf).
  - repeat apply List.Forall_cons; try apply List.Forall_nil; reflexivity.
  - discriminate.
  - reflexivity.
  - reflexivity.
  - intros name dest _. reflexivity.
Defined.

(** C1 on a file that sets trading.max_quantity to 5 (default 1000) and an
    environment that sets MAX_QUANTITY=7: [get] returns 7. *)
Lemma env_overrides_file_and_defaults_witness :
  let loads := sample_loads (JObj max_quantity_5) in
  let w := World [] [("MAX_QUANTITY", "7")] [("config.json", "saved")] in
  file_sections_are_mappings (file_members loads w "config.json") /\
  json_get default_config ["trading"; "max_quantity"] = Some (JInt 1000) /\
  json_get (JObj (file_members loads w "config.json")) ["trading"; "max_quantity"]
    = Some (JInt 5) /\
  exists self w',
    __init__ loads w "config.json" ".env" = Ok (self, w') /\
    get (w_heap w') self "trading.max_quantity" VNone = Ok (VInt 7).
Proof.
  intros loads w.
  assert (Hfile : file_sections_are_mappings (file_members loads w "config.json")).
  { intros k j Hin _. vm_compute in Hin. destruct Hin as [[= <- <-]|[]]. reflexivity. }
  split; [exact Hfile|]. split; [reflexivity|]. split; [reflexivity|].
  destruct (env_overrides_file_and_defaults loads w "config.json" ".env")
    as [Hafter Hcompletes].
  destruct (Hcompletes Hfile) as (self & w' & Hinit).
  exists self, w'. split; [exact Hinit|].
  destruct (Hafter self w' Hinit) as [_ Hget].
  apply (Hget "MAX_QUANTITY" ("trading", "max_quantity") "7" VNone).
  - simpl. tauto.
  - vm_compute in Hinit. injection Hinit as <- <-. reflexivity.
Defined.

(** ** Outside the five-section shape *)

(** A top-level entry that is not a mapping has neither [items()] nor
    [copy()]: [_create_safe_config] raises and [save_config] writes nothing. *)
Example create_safe_config_scalar_section :
  exists h,
    set sample_heap sample_self "x" (VInt 1) = Ok h /\
    _create_safe_config h sample_self = Raise AttributeError /\
    save_config sample_dumps (World h [] []) sample_self None = World h [] [].
Proof. eexists. split; [vm_compute; reflexivity|]. split; reflexivity. Qed.

(** A file that gives a number for a section makes the environment pass
    raise when a variable of that section is set. *)
Example init_raises_on_scalar_section :
  __init__ (sample_loads (JObj [("api", JInt 5)]))
    (World [] [("API_TIMEOUT", "1")] [("config.json", "saved")])
    "config.json" ".env" = Raise TypeError.
Proof. vm_compute. reflexivity. Qed.

(** * Further properties of the code *)

(** ** Construction: when it fails *)

Lemma settable_section T s k :
  settable T [s; k] =
    match T with
    | JObj ms => match Alist.get ms s with
                 | Some j => is_obj j
                 | None => true
                 end
    | _ => false
    end.
Proof. rewrite settable_step. by destruct T. Qed.

Lemma json_set_section ms s k x :
  json_set (JObj ms) [s; k] x =
    JObj (Alist.set ms s
            (json_set (match Alist.get ms s with
                       | Some j => j | None => JObj [] end) [k] x)).
Proof. by rewrite json_set_step. Qed.

Lemma settable_json_set_inv T s k s' k' x :
  settable T [s'; k'] = true ->
  settable (json_set T [s'; k'] x) [s; k] = true ->
  settable T [s; k] = true.
Proof.
  destruct T as [| | | | | |ms]; try done.
  rewrite json_set_section, !settable_section, alist_get_set.
  destruct (String.eqb s' s) eqn:E; [|done].
  apply String.eqb_eq in E; subst s'.
  by destruct (Alist.get ms s).
Qed.

Lemma steps_destinations_settable getenv table : forall T,
  steps_settable getenv T table -> destinations_settable getenv T table.
Proof.
  induction table as [|[n [s k]] table IH]; intros T Hok; [apply List.Forall_nil|].
  cbn [steps_settable] in Hok. apply List.Forall_cons.
  - simpl. destruct (getenv n); [right; apply Hok | by left].
  - destruct (getenv n) as [t|]; [|by apply IH].
    destruct Hok as [Hset Hok]. apply IH in Hok.
    eapply Forall_impl; [exact Hok|].
    intros [n' [s' k']] [Hnone|Hset']; [by left|right]. cbn [fst snd] in *.
    exact (settable_json_set_inv _ _ _ _ _ _ Hset Hset').
Qed.

(** The pass raises [TypeError], and nothing else. *)
Lemma env_vars_loop_raises self table : forall w T fp e,
  repr (w_heap w) (VDict (config self)) T fp ->
  env_vars_loop w self table = Raise e -> e = TypeError.
Proof.
  induction table as [|[n [s k]] table IH]; intros w T fp e Hrepr Hloop; [done|].
  rewrite env_vars_loop_step in Hloop.
  destruct (os_getenv w n) as [t|] eqn:Hn; [|by eapply IH].
  destruct (settable T [s; k]) eqn:Hset.
  - destruct (set_from_repr [k] s (w_heap w) _ T fp (_convert_env_value t)
                (scalar_json (_convert_env_value t)) Hrepr Hset)
      as (h2 & fp2 & Hset2 & Hr2 & _).
    { intros h'. apply repr_scalar, convert_env_value_scalar. }
    rewrite Hset2 in Hloop. simpl in Hloop.
    by apply (IH (with_heap w h2) _ fp2 e Hr2).
  - rewrite (set_from_raises [k] s (w_heap w) _ T fp) in Hloop by done.
    simpl in Hloop. congruence.
Qed.

Lemma load_from_env_file_environ w self :
  w_environ (_load_from_env_file w self) = dotenv_environ w (env_file self).
Proof.
  unfold _load_from_env_file, dotenv_environ.
  by destruct (Alist.get (w_files w) (env_file self)).
Qed.

Lemma destinations_settable_sections getenv M :
  destinations_settable getenv (JObj M) env_mappings <->
  forall name section key j,
    In (name, (section, key)) env_mappings -> getenv name <> None ->
    Alist.get M section = Some j -> is_obj j = true.
Proof.
  unfold destinations_settable. rewrite Forall_forall. split.
  - intros Hall name s k j Hin Hset Hget.
    destruct (Hall (name, (s, k))) as [Hnone|Hok]; [by apply list_elem_of_In|done|].
    cbn [fst snd] in Hok. rewrite settable_section, Hget in Hok. exact Hok.
  - intros Hall [name [s k]] Hin. cbn [fst snd].
    destruct (getenv name) eqn:Hn; [right|by left].
    rewrite settable_section.
    destruct (Alist.get M s) as [j|] eqn:Hget; [|done].
    apply (Hall name s k j); [by apply list_elem_of_In|congruence|done].
Qed.

(** X1: construction completes exactly when, for every table variable that
    is set (in the process environment or by the dotenv file), what the
    defaults merged with the structured file hold for the variable's section
    is a mapping; when construction does not complete, the exception is
    [TypeError]. *)
Theorem init_completes_iff json_loads w cf ef :
  let M := merge_tree default_members (file_members json_loads w cf) in
  let getenv := Alist.get (dotenv_environ w ef) in
  ((exists self w', __init__ json_loads w cf ef = Ok (self, w')) <->
   (forall name section key j,
      In (name, (section, key)) env_mappings -> getenv name <> None ->
      Alist.get M section = Some j -> is_obj j = true)) /\
  (forall e, __init__ json_loads w cf ef = Raise e -> e = TypeError).
Proof.
  intros M getenv.
  destruct (init_stages json_loads w cf ef) as (c & d & h1 & fp1 & Hinit & Hr1 & _).
  rewrite load_from_env_vars_eq in Hinit.
  destruct (load_from_env_file_frame (with_heap w h1) (Manager cf ef c d)) as [Hh1 _].
  pose proof (load_from_env_file_environ (with_heap w h1) (Manager cf ef c d)) as Henv.
  remember (_load_from_env_file (with_heap w h1) (Manager cf ef c d)) as w1 eqn:Ew1.
  clear Ew1. cbn [w_heap with_heap] in Hh1.
  change (dotenv_environ (with_heap w h1) (env_file (Manager cf ef c d)))
    with (dotenv_environ w ef) in Henv.
  rewrite <- Hh1 in Hr1.
  assert (Hgetenv : os_getenv w1 = getenv).
  { unfold os_getenv, getenv. by rewrite Henv. }
  rewrite <- destinations_settable_sections, <- Hgetenv.
  split; [split|].
  - intros (self & w' & Hok). rewrite Hinit in Hok.
    destruct (env_vars_loop w1 (Manager cf ef c d) env_mappings) as [w2|] eqn:Hloop;
      [|discriminate Hok].
    apply steps_destinations_settable.
    exact (env_vars_loop_settable (Manager cf ef c d) _ _ _ _ _ Hr1 Hloop).
  - intros Hdest. apply destinations_steps_settable in Hdest.
    destruct (env_vars_loop_repr (Manager cf ef c d) _ _ _ _ Hr1 Hdest)
      as (w' & fp' & Hloop & _).
    exists (Manager cf ef c d), w'. rewrite Hinit, Hloop. reflexivity.
  - intros e Hraise. rewrite Hinit in Hraise.
    destruct (env_vars_loop w1 (Manager cf ef c d) env_mappings) as [w2|e'] eqn:Hloop;
      [discriminate Hraise|].
    injection Hraise as <-.
    exact (env_vars_loop_raises (Manager cf ef c d) _ _ _ _ _ Hr1 Hloop).
Qed.

(** ** The dotenv file *)

Lemma split_first_None c s :
  PyStr.contains_char c s = false -> PyStr.split_first c s = None.
Proof.
  induction s as [|x r IH]; simpl; [done|].
  destruct (Ascii.eqb x c); [done|]. simpl. intros H. by rewrite IH.
Qed.

Lemma split_first_Some c s :
  PyStr.contains_char c s = true -> exists a b, PyStr.split_first c s = Some (a, b).
Proof.
  induction s as [|x r IH]; simpl; [done|].
  destruct (Ascii.eqb x c); [eauto|]. simpl. intros H.
  destruct (IH H) as (a & b & ->). eauto.
Qed.

Lemma os_environ_set_accepts env k v :
  os_environ_set env k v =
    if environ_accepts k v then Ok (Alist.set env k v) else Raise ValueError.
Proof.
  unfold environ_accepts, os_environ_set.
  by destruct (String.eqb k "" || PyStr.contains_char "=" k
               || PyStr.contains_char NUL k || PyStr.contains_char NUL v).
Qed.

(** One turn of the loop, by what the line asks for. *)
Lemma env_file_loop_step env line rest :
  env_file_loop env (line :: rest) =
    match dotenv_assignment line with
    | Some (k, v) =>
        if environ_accepts k v then env_file_loop (Alist.set env k v) rest else env
    | None => env_file_loop env rest
    end.
Proof.
  cbn [env_file_loop]. unfold dotenv_assignment.
  destruct (negb (String.eqb (PyStr.strip line) "")
            && negb (PyStr.startswith_char "#" (PyStr.strip line))); [|done].
  cbn [andb].
  destruct (PyStr.contains_char "=" (PyStr.strip line)) eqn:Hc.
  - destruct (split_first_Some _ _ Hc) as (a & b & ->).
    rewrite os_environ_set_accepts. by destruct (environ_accepts _ _).
  - by rewrite (split_first_None _ _ Hc).
Qed.

(** X2: a line whose assignment [os.environ] refuses (an empty name, as in
    [=value], or a null character) ends the pass: the lines after it are not
    read, whatever they are, and the assignments made before it stay. *)
Theorem env_file_stops_at_refused_line env pre line rest k v :
  dotenv_assignment line = Some (k, v) ->
  environ_accepts k v = false ->
  env_file_loop env (pre ++ line :: rest) = env_file_loop env pre.
Proof.
  intros Hline Hbad. revert env.
  induction pre as [|l pre IH]; intros env.
  - rewrite app_nil_l, env_file_loop_step, Hline, Hbad. reflexivity.
  - rewrite <- app_comm_cons, !env_file_loop_step.
    destruct (dotenv_assignment l) as [[k' v']|]; [|apply IH].
    destruct (environ_accepts k' v'); [apply IH | reflexivity].
Qed.

Lemma env_file_loop_keeps lines name : forall env,
  (forall line v, In line lines -> dotenv_assignment line <> Some (name, v)) ->
  Alist.get (env_file_loop env lines) name = Alist.get env name.
Proof.
  induction lines as [|l lines IH]; intros env Hno; [done|].
  rewrite env_file_loop_step.
  assert (Hrest : forall line v, In line lines -> dotenv_assignment line <> Some (name, v)).
  { intros line v Hin. apply Hno. by right. }
  destruct (dotenv_assignment l) as [[k v]|] eqn:Hl; [|by apply IH].
  destruct (environ_accepts k v); [|done].
  rewrite IH by done. apply alist_get_set_ne.
  intros ->. by apply (Hno l v); [left|].
Qed.

(** X3: the dotenv pass changes only the variables its lines name: a
    variable that no line of the file assigns has, after the pass, the value
    it had in the process environment (and a missing file changes nothing). *)
Theorem env_file_keeps_unassigned w self name :
  (forall text line v,
     Alist.get (w_files w) (env_file self) = Some text ->
     In line (text_lines text) -> dotenv_assignment line <> Some (name, v)) ->
  os_getenv (_load_from_env_file w self) name = os_getenv w name.
Proof.
  intros Hno. unfold os_getenv. rewrite load_from_env_file_environ.
  unfold dotenv_environ.
  destruct (Alist.get (w_files w) (env_file self)) as [text|] eqn:Hf; [|done].
  apply env_file_loop_keeps. intros line v. by apply Hno.
Qed.

Lemma env_file_loop_assign_all lines : forall env,
  Forall (fun line => forall k v,
            dotenv_assignment line = Some (k, v) -> environ_accepts k v = true) lines ->
  env_file_loop env lines = assign_all env (omap dotenv_assignment lines).
Proof.
  induction lines as [|l lines IH]; intros env Hall; [done|].
  apply Forall_cons in Hall as [Hl Hall].
  rewrite env_file_loop_step. cbn [omap list_omap].
  destruct (dotenv_assignment l) as [[k v]|]; [|by apply IH].
  rewrite (Hl k v eq_refl). by rewrite IH.
Qed.

Lemma alist_get_app {V} (d1 d2 : list (string * V)) k :
  Alist.get (d1 ++ d2) k =
    match Alist.get d1 k with
    | Some v => Some v
    | None => Alist.get d2 k
    end.
Proof.
  induction d1 as [|[k' v'] d1 IH]; simpl; [done|].
  by destruct (String.eqb k' k).
Qed.

Lemma alist_get_assign_all kvs k : forall env,
  Alist.get (assign_all env kvs) k =
    match Alist.get (rev kvs) k with
    | Some v => Some v
    | None => Alist.get env k
    end.
Proof.
  induction kvs as [|[k' v'] kvs IH]; intros env; [done|].
  cbn [assign_all fold_left fst snd]. fold (assign_all (Alist.set env k' v') kvs).
  rewrite IH. cbn [rev]. rewrite alist_get_app.
  destruct (Alist.get (rev kvs) k); [done|].
  rewrite alist_get_set. simpl. by destruct (String.eqb k' k).
Qed.

(** X4: when [os.environ] accepts every assignment of the dotenv file, a
    variable holds, after the pass, the value of the last line that assigns
    it, and the value of the process environment when no line does: the file
    overrides the process environment. *)
Theorem env_file_last_assignment_wins w self text name :
  Alist.get (w_files w) (env_file self) = Some text ->
  Forall (fun line => forall k v,
            dotenv_assignment line = Some (k, v) -> environ_accepts k v = true)
         (text_lines text) ->
  os_getenv (_load_from_env_file w self) name =
    match Alist.get (rev (omap dotenv_assignment (text_lines text))) name with
    | Some v => Some v
    | None => os_getenv w name
    end.
Proof.
  intros Hf Hall. unfold os_getenv. rewrite load_from_env_file_environ.
  unfold dotenv_environ. rewrite Hf.
  rewrite env_file_loop_assign_all by done. apply alist_get_assign_all.
Qed.

(** ** What the command-line interface reads (cli.py) *)

Lemma merge_tree_absent u : forall b k,
  Alist.get u k = None -> Alist.get (merge_tree b u) k = Alist.get b k.
Proof.
  induction u as [|[k' j] u IH]; intros b k Hget; [done|].
  simpl in Hget. destruct (String.eqb k' k) eqn:E; [done|].
  apply String.eqb_neq in E. simpl. rewrite IH by done.
  by apply merge_item_get_other.
Qed.

Lemma json_set_top_other T s k x key :
  s <> key -> json_get (json_set T [s; k] x) [key] = json_get T [key].
Proof.
  intros Hne. destruct T as [| | | | | |ms]; try done.
  rewrite json_set_section. cbn [json_get]. by rewrite alist_get_set_ne.
Qed.

Lemma env_apply_top_other getenv table key : forall T,
  Forall (fun e => fst (snd e) <> key) table ->
  json_get (env_apply getenv T table) [key] = json_get T [key].
Proof.
  induction table as [|[n [s k]] table IH]; intros T Hall; [done|].
  apply Forall_cons in Hall as [Hs Hall]. cbn [env_apply].
  destruct (getenv n); [|by apply IH].
  rewrite IH by done. by apply json_set_top_other.
Qed.

Lemma env_mappings_sections key :
  ~ In key section_names -> Forall (fun e => fst (snd e) <> key) env_mappings.
Proof.
  intros Hkey. eapply Forall_impl; [exact env_mappings_shape|].
  intros [n [s k]] [Hin _] Heq. apply Hkey. by rewrite <- Heq.
Qed.

(** The tree construction leaves, and the environment it was built from. *)
Lemma init_tree json_loads w cf ef self w' :
  __init__ json_loads w cf ef = Ok (self, w') ->
  exists fp,
    repr (w_heap w') (VDict (config self))
      (env_apply (Alist.get (dotenv_environ w ef))
         (JObj (merge_tree default_members (file_members json_loads w cf)))
         env_mappings) fp /\
    w_environ w' = dotenv_environ w ef /\
    steps_settable (Alist.get (dotenv_environ w ef))
      (JObj (merge_tree default_members (file_members json_loads w cf))) env_mappings.
Proof.
  intros Hok.
  destruct (init_stages json_loads w cf ef) as (c & d & h1 & fp1 & Hinit & Hr1 & _).
  rewrite load_from_env_vars_eq in Hinit.
  destruct (load_from_env_file_frame (with_heap w h1) (Manager cf ef c d)) as [Hh1 _].
  pose proof (load_from_env_file_environ (with_heap w h1) (Manager cf ef c d)) as Henv.
  remember (_load_from_env_file (with_heap w h1) (Manager cf ef c d)) as w1 eqn:Ew1.
  clear Ew1. cbn [w_heap with_heap] in Hh1.
  change (dotenv_environ (with_heap w h1) (env_file (Manager cf ef c d)))
    with (dotenv_environ w ef) in Henv.
  rewrite <- Hh1 in Hr1. rewrite Hinit in Hok.
  destruct (env_vars_loop w1 (Manager cf ef c d) env_mappings) as [w2|] eqn:Hloop;
    [|discriminate Hok].
  injection Hok as <- <-.
  pose proof (env_vars_loop_settable (Manager cf ef c d) _ _ _ _ _ Hr1 Hloop) as Hsteps.
  destruct (env_vars_loop_repr (Manager cf ef c d) _ _ _ _ Hr1 Hsteps)
    as (w' & fp' & Hloop' & Hr' & Henv' & _).
  assert (w' = w2) by congruence; subst w'.
  unfold os_getenv in Hr', Hsteps. rewrite Henv in Hr', Hsteps.
  exists fp'. split; [exact Hr'|]. split; [congruence | exact Hsteps].
Qed.

Lemma lookup_absent h self T fp path default :
  repr h (VDict (config self)) T fp ->
  json_get T (PyStr.split "." path) = None ->
  get h self path default = Ok default.
Proof.
  intros Hrepr Hget. rewrite get_lookup. unfold lookup.
  pose proof (resolve_repr _ _ _ _ (PyStr.split "." path) Hrepr) as Hres.
  rewrite Hget in Hres. by rewrite Hres.
Qed.

Lemma init_top_level_absent json_loads w cf ef self w' key default :
  __init__ json_loads w cf ef = Ok (self, w') ->
  PyStr.split "." key = [key] ->
  ~ In key section_names ->
  Alist.get (file_members json_loads w cf) key = None ->
  get (w_heap w') self key default = Ok default.
Proof.
  intros Hok Hsplit Hkey Hfile.
  destruct (init_tree _ _ _ _ _ _ Hok) as (fp & Hrepr & _).
  apply (lookup_absent _ _ _ _ _ _ Hrepr). rewrite Hsplit.
  rewrite env_apply_top_other by (by apply env_mappings_sections).
  cbn [json_get]. rewrite merge_tree_absent by done.
  assert (Hdef : Alist.get default_members key = None).
  { apply alist_get_None. intros Hin. apply Hkey. exact Hin. }
  by rewrite Hdef.
Qed.

(** X5: the logger configuration the command-line interface reads with
    [get('log_level')], [get('max_log_size')] and [get('log_backup_count')]
    -- top-level names, where the settings live under [logging] -- is the
    three fallbacks INFO, 10485760 and 5 for every manager construction
    produces, whatever LOG_LEVEL, MAX_LOG_SIZE and LOG_BACKUP_COUNT and the
    file's [logging] section say, unless the structured file itself has
    top-level members of these names. *)
Theorem cli_log_config_ignores_settings json_loads w cf ef self w' :
  __init__ json_loads w cf ef = Ok (self, w') ->
  (forall key, In key ["log_level"; "max_log_size"; "log_backup_count"] ->
     Alist.get (file_members json_loads w cf) key = None) ->
  cli_log_config (w_heap w') self =
    Ok [("log_level", VStr "INFO"); ("max_bytes", VInt 10485760);
        ("backup_count", VInt 5)].
Proof.
  intros Hok Hfile. unfold cli_log_config.
  rewrite !(init_top_level_absent _ _ _ _ _ _ _ _ Hok);
    try reflexivity; try (apply Hfile; simpl; tauto);
    try (intros Hin; simpl in Hin; repeat destruct Hin as [Hin|Hin]; discriminate Hin).
  all: try (intros Hin; simpl in Hin; intuition discriminate).
Qed.

(** ** Saving *)

Lemma resolve_frame keys : forall h h' v j fp,
  repr h v j fp -> (forall a, a ∈ fp -> h' !! a = h !! a) ->
  resolve h' v keys = resolve h v keys.
Proof.
  induction keys as [|k rest IH]; intros h h' v j fp Hrepr Hsame; [done|].
  destruct v as [| | | | | |a]; try done.
  apply repr_dict_inv in Hrepr as (d & ms & fp' & -> & -> & Hd & Hm & Hni).
  cbn [resolve].
  assert (Hd' : h' !! a = Some d) by (rewrite Hsame; [done | by left]).
  rewrite (deref_lookup _ _ _ Hd), (deref_lookup _ _ _ Hd').
  pose proof (repr_members_get _ _ _ _ k Hm) as Hk.
  destruct (Alist.get d k) as [v|]; [|done].
  destruct Hk as (j & fpk & _ & Hv & Hsub).
  apply (IH _ _ _ _ _ Hv). intros b Hb. apply Hsame. right. by apply Hsub.
Qed.

Lemma plain_file_name_nonempty p :
  plain_file_name p = true -> String.eqb p "" = false.
Proof.
  unfold plain_file_name. destruct (String.eqb p ""); [|done].
  by rewrite !andb_false_l.
Qed.

(** X6: when its target -- the path it is given, or the manager's own file
    when it is given none (or the empty path) -- is a plain file name of the
    working directory, [save_config] writes one file, at that name: the
    document written is the tree without [api.key] and [api.secret]; the
    other files, the environment and what every path of the configuration
    resolves to are as before.  When a top-level entry of the configuration
    has no [copy()] (a number, a string, ...), nothing is written at all. *)
Theorem save_config_effect json_dumps w self T fp path :
  repr (w_heap w) (VDict (config self)) (JObj T) fp ->
  NoDup (Alist.keys T) ->
  plain_file_name (save_target self path) = true ->
  let w' := save_config json_dumps w self path in
  (if sections_copyable T
   then w_files w' =
          Alist.set (w_files w) (save_target self path) (json_dumps (JObj (safe_tree T)))
   else w' = w) /\
  w_environ w' = w_environ w /\
  (forall other, other <> save_target self path ->
     Alist.get (w_files w') other = Alist.get (w_files w) other) /\
  (forall keys, resolve (w_heap w') (VDict (config self)) keys =
                resolve (w_heap w) (VDict (config self)) keys).
Proof.
  intros Hrepr Hnd Hname w'. subst w'. unfold save_config.
  fold (save_target self path). cbv zeta.
  rewrite (plain_file_name_nonempty _ Hname).
  destruct (sections_copyable T) eqn:Hc.
  - destruct (create_safe_config_tree _ _ _ _ Hrepr Hnd Hc)
      as (safe & hs & fps & -> & Hrs & Hp).
    rewrite (dump_repr _ _ _ _ Hrs). cbn [w_files w_environ w_heap].
    split; [done|]. split; [done|]. split.
    + intros other Hne. by apply alist_get_set_ne.
    + intros keys. apply (resolve_frame _ _ _ _ _ _ Hrepr).
      intros a Ha. apply Hp; [by eapply repr_in_bounds | apply not_elem_of_nil].
  - rewrite (create_safe_config_raises _ _ _ _ Hrepr Hc). done.
Qed.

(** ** What an accepted configuration guarantees *)

Lemma find_none_Forall {A} (f : A -> bool) l :
  List.find f l = None -> Forall (fun x => f x = false) l.
Proof.
  induction l as [|x l IH]; simpl; [constructor|].
  destruct (f x) eqn:E; [done|]. intros H. constructor; [done | by apply IH].
Qed.

(** X7: when [validate_config] returns [True] it has logged nothing, and:
    [get_api_credentials] returns two values that are true; each of the four
    limits is a number and is not [<= 0]; the default symbol is a string of
    three characters or more; the log level is a string whose upper case is
    one of the five level names.  So the calls the command-line interface
    makes after an accepted validation do not raise. *)
Theorem validate_config_true h self logs :
  validate_config h self = Ok (true, logs) ->
  logs = [] /\
  (exists k s, get_api_credentials h self = Ok (k, s) /\
               truthy h k = true /\ truthy h s = true) /\
  (exists limits, get_risk_limits h self = Ok limits /\
     Forall (fun kv => is_number (snd kv) = true /\ le_zero (snd kv) = false) limits) /\
  (exists s, get_default_symbol h self = Ok (VStr s) /\ (3 <= String.length s)%nat) /\
  (exists l, get h self "logging.log_level" (VStr "INFO") = Ok (VStr l) /\
             In (PyStr.upper l) log_levels).
Proof.
  unfold validate_config, validate_checks, get_default_symbol.
  rewrite get_api_credentials_spec, get_risk_limits_spec, !get_lookup.
  destruct (has_credentials h self) eqn:Hcred; [|discriminate].
  cbn [mbind result_bind bind].
  destruct (List.find invalid_limit (limits_of h self)) as [[key v]|] eqn:Hfind;
    [discriminate|].
  destruct (lookup h self "trading.default_symbol" (VStr "BTCUSDT")) as [| | | |s| |] eqn:Hs;
    try discriminate.
  cbn [is_str negb orb str_len].
  destruct (Z.of_nat (String.length s) <? 3) eqn:Hlen; [discriminate|].
  destruct (lookup h self "logging.log_level" (VStr "INFO")) as [| | | |l| |] eqn:Hl;
    try discriminate.
  cbn [str_upper mbind result_bind bind].
  destruct (PyStr.in_list (PyStr.upper l) log_levels) eqn:Hlvl; [|discriminate].
  cbn [negb]. intros [= <-]. split; [done|].
  apply andb_true_iff in Hcred as [Hk Hsec].
  split; [by eauto|]. split.
  - eexists. split; [reflexivity|].
    eapply Forall_impl; [exact (find_none_Forall _ _ Hfind)|].
    intros kv Hkv. unfold invalid_limit in Hkv.
    apply orb_false_iff in Hkv as [Hn Hle]. by apply negb_false_iff in Hn.
  - split.
    + exists s. split; [done|]. apply Z.ltb_ge in Hlen. lia.
    + exists l. split; [done|]. unfold PyStr.in_list in Hlvl.
      apply existsb_exists in Hlvl as (x & Hin & Heq).
      apply String.eqb_eq in Heq. by subst x.
Qed.

(** ** Credentials are not written, so they are not read back *)

Lemma init_completes_when_sections json_loads w cf ef :
  file_sections_are_mappings (file_members json_loads w cf) ->
  exists self w', __init__ json_loads w cf ef = Ok (self, w').
Proof.
  intros Hfile.
  destruct (init_stages json_loads w cf ef) as (c & d & h1 & fp1 & Hinit & Hr1 & _).
  rewrite load_from_env_vars_eq in Hinit.
  destruct (load_from_env_file_frame (with_heap w h1) (Manager cf ef c d)) as [Hh1 _].
  remember (_load_from_env_file (with_heap w h1) (Manager cf ef c d)) as w1 eqn:Ew1.
  clear Ew1. cbn [w_heap with_heap] in Hh1. rewrite <- Hh1 in Hr1.
  destruct (env_vars_loop_repr (Manager cf ef c d) env_mappings w1 _ fp1 Hr1)
    as (w' & fp' & Hloop & _).
  { apply destinations_steps_settable, env_mappings_settable.
    intros s Hs. apply merge_tree_keeps_object.
    - intros j Hin. by apply (Hfile s j).
    - by apply default_sections_are_mappings. }
  exists (Manager cf ef c d), w'. rewrite Hinit, Hloop. reflexivity.
Qed.

Lemma env_apply_unset getenv table : forall T s k,
  (forall n, In (n, (s, k)) table -> getenv n = None) ->
  steps_settable getenv T table ->
  json_get (env_apply getenv T table) [s; k] = json_get T [s; k].
Proof.
  induction table as [|[n' [s' k']] table IH]; intros T s k Hnone Hok; [done|].
  cbn [env_apply steps_settable] in *.
  assert (Hrest : forall n, In (n, (s, k)) table -> getenv n = None).
  { intros n Hin. apply Hnone. by right. }
  destruct (getenv n') as [t|] eqn:Hn; [|by apply IH].
  destruct Hok as [Hset Hok]. rewrite IH by done.
  apply json_get_set_other; [|done].
  intros [= <- <-]. rewrite (Hnone n') in Hn by (by left). discriminate.
Qed.

Lemma sensitive_cases k : is_sensitive k = true -> k = "key" \/ k = "secret".
Proof.
  unfold is_sensitive, PyStr.in_list. simpl. rewrite !orb_true_iff.
  intros [H|[H|H]]; [left|right|done]; by apply String.eqb_eq in H.
Qed.

Lemma merged_safe_no_credential T k :
  NoDup (Alist.keys T) -> sections_are_mappings T -> is_sensitive k = true ->
  json_get (JObj (merge_tree default_members (safe_tree T))) ["api"; k] = None.
Proof.
  intros Hnd Hmaps Hk. cbn [json_get].
  rewrite merge_tree_get by (by rewrite safe_tree_keys).
  unfold merged_at. rewrite safe_tree_get.
  destruct (Alist.get T "api") as [j|] eqn:Hapi; cbn [option_map].
  - assert (Hobj : is_obj j = true).
    { unfold sections_are_mappings in Hmaps. rewrite Forall_forall in Hmaps.
      apply (Hmaps ("api", j)), list_elem_of_In, alist_get_Some_In, Hapi. }
    destruct j as [| | | | | |ms]; try done.
    change (safe_section "api" (JObj ms))
      with (JObj (List.filter (fun kj => negb (is_sensitive (fst kj))) ms)).
    change (Alist.get default_members "api")
      with (Some (JObj [("testnet", JBool true); ("timeout", JInt 30);
                        ("retry_attempts", JInt 3);
                        ("rate_limit_buffer", JFloat (PyNum.float_of_decimal false 1 (-1)))])).
    cbn iota. rewrite merge_tree_absent.
    + by destruct (sensitive_cases k Hk) as [-> | ->].
    + rewrite (alist_get_filter ms (fun k => negb (is_sensitive k))). by rewrite Hk.
  - by destruct (sensitive_cases k Hk) as [-> | ->].
Qed.

(** X8: a configuration that is saved and then read back by a new manager
    has lost its credentials: unless BINANCE_API_KEY and BINANCE_API_SECRET
    are both set for the new manager, its [get_api_credentials] raises
    [ValueError] and its [validate_config] returns [False] with the record
    of a failed validation. *)
Theorem saved_config_has_no_credentials json_loads json_dumps w self T fp path ef :
  repr (w_heap w) (VDict (config self)) (JObj T) fp ->
  wf_json (JObj T) ->
  sections_are_mappings T ->
  path <> "" ->
  json_loads (json_dumps (JObj (safe_tree T))) = Some (JObj (safe_tree T)) ->
  let w1 := save_config json_dumps w self (Some path) in
  let getenv := Alist.get (dotenv_environ w1 ef) in
  getenv "BINANCE_API_KEY" = None \/ getenv "BINANCE_API_SECRET" = None ->
  exists self' w',
    __init__ json_loads w1 path ef = Ok (self', w') /\
    get_api_credentials (w_heap w') self' = Raise ValueError /\
    validate_config (w_heap w') self' = Ok (false, [ValidationFailed]).
Proof.
  intros Hrepr Hwf Hmaps Hpath Hcodec w1 getenv Hunset.
  pose proof (proj1 (wf_json_obj T) Hwf) as [Hnd _].
  destruct (create_safe_config_tree _ _ _ _ Hrepr Hnd
              (sections_are_mappings_copyable T Hmaps))
    as (safe & hs & fps & Hsafe & Hrs & _).
  pose proof (dump_repr _ _ _ _ Hrs) as Hdump.
  assert (Hw1 : w1 = World hs (w_environ w)
                       (Alist.set (w_files w) path (json_dumps (JObj (safe_tree T))))).
  { destruct (String.eqb path "") eqn:E; [by apply String.eqb_eq in E |].
    unfold w1, save_config. cbv beta iota zeta.
    rewrite Hsafe, E. cbv beta iota. by rewrite E, Hdump. }
  assert (Hdoc : file_members json_loads w1 path = safe_tree T).
  { unfold file_members. rewrite Hw1. cbn [w_files].
    by rewrite alist_get_set_eq, Hcodec. }
  clearbody w1.
  destruct (init_completes_when_sections json_loads w1 path ef) as (self' & w' & Hok).
  { rewrite Hdoc. intros s j Hin _. unfold safe_tree in Hin.
    apply in_map_iff in Hin as ([s' j'] & [= <- <-] & Hin). cbn [fst snd].
    unfold sections_are_mappings in Hmaps. rewrite Forall_forall in Hmaps.
    apply list_elem_of_In, Hmaps in Hin. cbn [snd] in Hin.
    destruct j'; try done. unfold safe_section. by destruct (String.eqb s' "api"). }
  exists self', w'. split; [exact Hok|].
  destruct (init_tree _ _ _ _ _ _ Hok) as (fp' & Hr' & _ & Hsteps).
  rewrite Hdoc in Hr', Hsteps. fold getenv in Hr', Hsteps.
  assert (Hcred : has_credentials (w_heap w') self' = false).
  { unfold has_credentials. apply andb_false_iff.
    destruct Hunset as [Hkey|Hsec]; [left|right].
    - assert (Hget : get (w_heap w') self' "api.key" VNone = Ok VNone).
      { apply (lookup_absent _ _ _ _ _ _ Hr').
        change (PyStr.split "." "api.key") with ["api"; "key"].
        rewrite env_apply_unset; [by apply merged_safe_no_credential| |exact Hsteps].
        intros n Hin. simpl in Hin.
        repeat (destruct Hin as [Hin|Hin]; [by injection Hin as <-|]). done. }
      rewrite get_lookup in Hget. by injection Hget as ->.
    - assert (Hget : get (w_heap w') self' "api.secret" VNone = Ok VNone).
      { apply (lookup_absent _ _ _ _ _ _ Hr').
        change (PyStr.split "." "api.secret") with ["api"; "secret"].
        rewrite env_apply_unset; [by apply merged_safe_no_credential| |exact Hsteps].
        intros n Hin. simpl in Hin.
        repeat (destruct Hin as [Hin|Hin]; [by injection Hin as <-|]). done. }
      rewrite get_lookup in Hget. by injection Hget as ->. }
  assert (Hraise : get_api_credentials (w_heap w') self' = Raise ValueError).
  { by rewrite get_api_credentials_spec, Hcred. }
  split; [exact Hraise|].
  unfold validate_config, validate_checks. by rewrite Hraise.
Qed.

(** ** [set] and the other paths *)

Lemma diverges_nonempty p q : diverges p q = true -> q <> [].
Proof. destruct p, q; done. Qed.

Lemma json_get_set_diverges p : forall q T x,
  diverges p q = true -> json_get (json_set T p x) q = json_get T q.
Proof.
  induction p as [|a p IH]; intros q T x Hdiv; [done|].
  destruct q as [|b q]; [done|].
  destruct T as [| | | | | |ms]; try (by destruct p).
  cbn [diverges] in Hdiv.
  destruct p as [|k2 r].
  - cbn [json_set json_get]. rewrite alist_get_set.
    destruct (String.eqb a b); [done|reflexivity].
  - rewrite json_set_step. cbn [json_get]. rewrite alist_get_set.
    destruct (String.eqb a b) eqn:E; [|reflexivity].
    apply String.eqb_eq in E; subst b. rewrite IH by done.
    destruct (Alist.get ms a); [reflexivity|].
    pose proof (diverges_nonempty _ _ Hdiv). by destruct q.
Qed.

(** X9: [set(p, v)] with a value that is not a dictionary leaves every path
    that parts ways with [p] as it was: the document there is the same, and
    [get] returns what it returned before wherever the path held a value
    other than a mapping, or nothing. *)
Theorem set_keeps_other_paths h self T fp p q v :
  repr h (VDict (config self)) T fp ->
  settable T (PyStr.split "." p) = true ->
  is_dict v = false ->
  diverges (PyStr.split "." p) (PyStr.split "." q) = true ->
  exists h' T' fp',
    set h self p v = Ok h' /\
    repr h' (VDict (config self)) T' fp' /\
    json_get T' (PyStr.split "." q) = json_get T (PyStr.split "." q) /\
    forall default,
      match json_get T (PyStr.split "." q) with
      | Some j => is_obj j = false
      | None => True
      end ->
      get h' self q default = get h self q default.
Proof.
  intros Hrepr Hset Hv Hdiv. rewrite set_set_from.
  destruct (PyStr.split "." p) as [|k keys] eqn:Hp; [done|].
  destruct (set_from_repr keys k h _ T fp v (scalar_json v) Hrepr Hset)
    as (h' & fp' & Hok & Hr' & _).
  { intros h'. by apply repr_scalar. }
  exists h', (json_set T (k :: keys) (scalar_json v)), fp'.
  split; [exact Hok|]. split; [exact Hr'|].
  pose proof (json_get_set_diverges _ _ T (scalar_json v) Hdiv) as Hsame.
  split; [exact Hsame|].
  intros default Hleaf. rewrite !get_lookup. unfold lookup. f_equal.
  pose proof (resolve_repr _ _ _ _ (PyStr.split "." q) Hrepr) as Hold.
  pose proof (resolve_repr _ _ _ _ (PyStr.split "." q) Hr') as Hnew.
  rewrite Hsame in Hnew.
  destruct (json_get T (PyStr.split "." q)) as [j|].
  - destruct Hold as (v0 & fp0 & -> & Hv0 & _).
    destruct Hnew as (v1 & fp1 & -> & Hv1 & _).
    apply repr_leaf in Hv0 as [-> _]; [|done].
    by apply repr_leaf in Hv1 as [-> _].
  - by rewrite Hold, Hnew.
Qed.

(** ** What the merge keeps *)

Lemma alist_keys_set_has {V} (d : list (string * V)) k v :
  Alist.keys (Alist.set d k v) =
    if Alist.has d k then Alist.keys d else Alist.keys d ++ [k].
Proof.
  unfold Alist.has, Alist.keys.
  induction d as [|[k' v'] d IH]; simpl; [done|].
  destruct (String.eqb k' k); [done|]. simpl. rewrite IH.
  by destruct (Alist.get d k).
Qed.

Lemma merge_item_keys b k j :
  Alist.keys (merge_item b k j) =
    if Alist.has b k then Alist.keys b else Alist.keys b ++ [k].
Proof.
  destruct (both_objects (Alist.get b k) j) eqn:E.
  - destruct (Alist.get b k) as [[| | | | | |bo]|] eqn:Hb; try done.
    destruct j as [| | | | | |u]; try done.
    rewrite (merge_item_recurse _ _ _ _ Hb). apply alist_keys_set_has.
  - rewrite merge_item_replace by done. apply alist_keys_set_has.
Qed.

Lemma alist_has_In {V} (d : list (string * V)) k :
  Alist.has d k = false <-> ~ In k (Alist.keys d).
Proof.
  unfold Alist.has. rewrite <- alist_get_None. by destruct (Alist.get d k).
Qed.

Lemma merge_tree_keys u : forall b,
  exists new,
    Alist.keys (merge_tree b u) = Alist.keys b ++ new /\
    forall k, In k new -> In k (Alist.keys u) /\ ~ In k (Alist.keys b).
Proof.
  induction u as [|[k j] u IH]; intros b.
  - exists []. split; [by rewrite app_nil_r|]. intros k [].
  - cbn [merge_tree]. destruct (IH (merge_item b k j)) as (new & Hkeys & Hnew).
    rewrite merge_item_keys in Hkeys, Hnew.
    destruct (Alist.has b k) eqn:Hhas.
    + exists new. split; [exact Hkeys|]. intros k' Hin.
      destruct (Hnew k' Hin) as [Hu Hb]. split; [by right | exact Hb].
    + exists (k :: new). split; [by rewrite Hkeys, <- app_assoc|].
      intros k' [<-|Hin].
      * split; [by left | by apply alist_has_In].
      * destruct (Hnew k' Hin) as [Hu Hb]. split; [by right|].
        intros Hb'. apply Hb, in_or_app. by left.
Qed.

(** X10: [_deep_merge] never removes a key of the dictionary it merges
    into, and never moves one: the keys of [base] after the merge are its
    keys before, in the same order, followed by keys of the update that it
    did not have. *)
Theorem deep_merge_keeps_keys h base b fp u :
  repr h (VDict base) (JObj b) fp ->
  exists new,
    Alist.keys (deref (_deep_merge h base u) base) = Alist.keys (deref h base) ++ new /\
    forall k, In k new -> In k (Alist.keys u) /\ ~ In k (Alist.keys (deref h base)).
Proof.
  intros Hrepr.
  destruct (deep_merge_repr h base b fp u Hrepr) as (fp' & Hr' & _).
  apply repr_dict_inv in Hrepr as (d & ms & fp0 & [= <-] & _ & Hd & Hm & _).
  apply repr_dict_inv in Hr' as (d' & ms' & fp1 & [= <-] & _ & Hd' & Hm' & _).
  rewrite (deref_lookup _ _ _ Hd), (deref_lookup _ _ _ Hd').
  rewrite (repr_members_keys _ _ _ _ Hm), (repr_members_keys _ _ _ _ Hm').
  apply merge_tree_keys.
Qed.

(** ** The summary *)

Lemma truthy_and h a b :
  truthy h (if truthy h a then b else a) = truthy h a && truthy h b.
Proof. by destruct (truthy h a) eqn:E. Qed.

(** X11: [get_config_summary] raises exactly when what
    [trading.supported_symbols] holds has no length -- [None], a boolean or a
    number -- and the exception is [TypeError]; otherwise it returns, its
    [api] entry has the keys testnet, timeout and has_credentials and no
    other, the count is that length, and has_credentials is true exactly
    when [get_api_credentials] returns. *)
Theorem config_summary_spec h self :
  let symbols :=
    lookup h self "trading.supported_symbols" (VList [JStr "BTCUSDT"; JStr "ETHUSDT"]) in
  (forall e, get_config_summary h self = Raise e ->
     e = TypeError /\ py_len h symbols = Raise TypeError) /\
  (forall n, py_len h symbols = Ok n ->
     exists summary api trading,
       get_config_summary h self = Ok summary /\
       Alist.get summary "api" = Some api /\
       Alist.keys api = ["testnet"; "timeout"; "has_credentials"] /\
       Alist.get api "has_credentials" = Some (VBool (has_credentials h self)) /\
       Alist.get summary "trading" = Some trading /\
       Alist.get trading "supported_symbols_count" = Some (VInt n)) /\
  (has_credentials h self = true <->
   exists k s, get_api_credentials h self = Ok (k, s)).
Proof.
  intros symbols.
  assert (Heq : get_config_summary h self =
    (count ← py_len h symbols;
     Ok [("api", [("testnet", lookup h self "api.testnet" (VBool true));
                  ("timeout", lookup h self "api.timeout" VNone);
                  ("has_credentials", VBool (has_credentials h self))]);
         ("trading", [("default_symbol",
                        lookup h self "trading.default_symbol" (VStr "BTCUSDT"));
                      ("supported_symbols_count", VInt count)]);
         ("risk_limits", limits_of h self);
         ("logging",
           [("log_level", lookup h self "logging.log_level" (VStr "INFO"));
            ("max_log_size", lookup h self "logging.max_log_size" (VInt (10 * 1024 * 1024)));
            ("log_backup_count", lookup h self "logging.log_backup_count" (VInt 5));
            ("enable_trade_logging",
              lookup h self "logging.enable_trade_logging" (VBool true));
            ("enable_error_logging",
              lookup h self "logging.enable_error_logging" (VBool true))])])).
  { unfold get_config_summary, is_testnet, get_default_symbol, get_supported_symbols,
      get_logging_config.
    rewrite get_risk_limits_spec, !get_lookup. cbn [mbind result_bind bind].
    assert (Hboth :
      (if truthy h (lookup h self "api.key" VNone)
       then Ok (lookup h self "api.secret" VNone)
       else Ok (lookup h self "api.key" VNone)) =
      Ok (if truthy h (lookup h self "api.key" VNone)
          then lookup h self "api.secret" VNone
          else lookup h self "api.key" VNone)).
    { by destruct (truthy h _). }
    rewrite Hboth. cbn [mbind result_bind bind]. rewrite truthy_and.
    fold (has_credentials h self). fold symbols.
    by destruct (py_len h symbols). }
  split; [|split].
  - intros e He. rewrite Heq in He.
    destruct symbols; simpl in *; try discriminate; by injection He as <-.
  - intros n Hn. rewrite Heq, Hn. cbn [mbind result_bind bind].
    eexists _, _, _. repeat split; reflexivity.
  - rewrite get_api_credentials_spec.
    destruct (has_credentials h self); split; try done; eauto.
    intros (k & s & Hks). discriminate.
Qed.

(** ** The fallbacks of the getters *)

Lemma get_leaf h self T fp path default j :
  repr h (VDict (config self)) T fp ->
  json_get T (PyStr.split "." path) = Some j -> is_obj j = false ->
  get h self path default = Ok (leaf_value j).
Proof.
  intros Hrepr Hget Hleaf. rewrite get_lookup. unfold lookup.
  pose proof (resolve_repr _ _ _ _ (PyStr.split "." path) Hrepr) as Hres.
  rewrite Hget in Hres. destruct Hres as (v & fp' & -> & Hv & _).
  by apply repr_leaf in Hv as [-> _].
Qed.

(** X12: the fallback each getter passes to [get] is the value the built-in
    defaults hold at the getter's path, so on the defaults the getters
    return what they return on an empty configuration -- except
    [get_supported_symbols], whose fallback lists two symbols where the
    defaults list four. *)
Theorem getter_fallbacks_match_defaults h self fp h0 self0 fp0 :
  repr h (VDict (config self)) default_config fp ->
  repr h0 (VDict (config self0)) (JObj []) fp0 ->
  is_testnet h self = is_testnet h0 self0 /\
  get_default_symbol h self = get_default_symbol h0 self0 /\
  get_risk_limits h self = get_risk_limits h0 self0 /\
  get_logging_config h self = get_logging_config h0 self0 /\
  get_supported_symbols h self =
    Ok (VList [JStr "BTCUSDT"; JStr "ETHUSDT"; JStr "ADAUSDT"; JStr "DOTUSDT"]) /\
  get_supported_symbols h0 self0 = Ok (VList [JStr "BTCUSDT"; JStr "ETHUSDT"]).
Proof.
  intros Hd He.
  assert (Hdef : forall path default j,
            json_get default_config (PyStr.split "." path) = Some j ->
            is_obj j = false -> get h self path default = Ok (leaf_value j)).
  { intros path default j. by apply get_leaf with (fp := fp). }
  assert (Hempty : forall path default,
            json_get (JObj []) (PyStr.split "." path) = None ->
            get h0 self0 path default = Ok default).
  { intros path default. by apply lookup_absent with (fp := fp0). }
  unfold is_testnet, get_default_symbol, get_risk_limits, get_logging_config,
    get_supported_symbols.
  repeat match goal with
         | |- context [get h self ?p ?d] =>
             erewrite (Hdef p d) by reflexivity
         | |- context [get h0 self0 ?p ?d] =>
             rewrite (Hempty p d) by reflexivity
         end.
  repeat split; reflexivity.
Qed.

(** ** The example files *)

Lemma create_example_files_get json_dumps json_dumps_cut w self p :
  Alist.get (w_files (create_example_files json_dumps json_dumps_cut w self)) p =
    match Alist.get (w_files w) p with
    | Some text => Some text
    | None =>
        if String.eqb ".env.example" p then Some env_content
        else if String.eqb "config.example.json" p
             then Some (match dump (w_heap w) (VDict (defaults self)) with
                        | Some doc => json_dumps doc
                        | None => json_dumps_cut (w_heap w) (VDict (defaults self))
                        end)
             else None
    end.
Proof.
  unfold create_example_files.
  destruct (Alist.get (w_files w) ".env.example") as [e|] eqn:He.
  - destruct (Alist.get (w_files w) "config.example.json") as [c|] eqn:Hc.
    + destruct (Alist.get (w_files w) p) eqn:Hp; [done|].
      destruct (String.eqb ".env.example" p) eqn:E;
        [apply String.eqb_eq in E; congruence|].
      destruct (String.eqb "config.example.json" p) eqn:E'; [|done].
      apply String.eqb_eq in E'. congruence.
    + destruct (dump (w_heap w) (VDict (defaults self))) as [doc|];
        cbn [w_files]; rewrite alist_get_set;
        (destruct (String.eqb "config.example.json" p) eqn:E';
         [ apply String.eqb_eq in E'; subst p; rewrite Hc; reflexivity
         | destruct (Alist.get (w_files w) p) eqn:Hp; [done|];
           destruct (String.eqb ".env.example" p) eqn:E; [|done];
           apply String.eqb_eq in E; congruence ]).
  - cbn [w_files w_heap].
    rewrite (alist_get_set_ne _ ".env.example" "config.example.json") by done.
    destruct (Alist.get (w_files w) "config.example.json") as [c|] eqn:Hc.
    + cbn [w_files]. rewrite alist_get_set.
      destruct (String.eqb ".env.example" p) eqn:E.
      * apply String.eqb_eq in E; subst p. by rewrite He.
      * destruct (Alist.get (w_files w) p) eqn:Hp; [done|].
        destruct (String.eqb "config.example.json" p) eqn:E'; [|done].
        apply String.eqb_eq in E'. congruence.
    + destruct (dump (w_heap w) (VDict (defaults self))) as [doc|];
        cbn [w_files]; rewrite !alist_get_set;
        (destruct (String.eqb "config.example.json" p) eqn:E';
         [ apply String.eqb_eq in E'; subst p; rewrite Hc; reflexivity
         | destruct (String.eqb ".env.example" p) eqn:E;
           [ apply String.eqb_eq in E; subst p; rewrite He; reflexivity
           | by destruct (Alist.get (w_files w) p) ] ]).
Qed.

Lemma create_example_files_frame json_dumps json_dumps_cut w self :
  w_heap (create_example_files json_dumps json_dumps_cut w self) = w_heap w /\
  w_environ (create_example_files json_dumps json_dumps_cut w self) = w_environ w.
Proof.
  unfold create_example_files.
  destruct (Alist.get (w_files w) ".env.example");
    cbn [w_files w_heap w_environ];
    destruct (Alist.get _ "config.example.json"); try done;
    by destruct (dump _ _).
Qed.

Lemma create_example_files_exist json_dumps json_dumps_cut w self e c :
  Alist.get (w_files w) ".env.example" = Some e ->
  Alist.get (w_files w) "config.example.json" = Some c ->
  create_example_files json_dumps json_dumps_cut w self = w.
Proof. intros He Hc. unfold create_example_files. by rewrite He, Hc. Qed.

(** X13: [create_example_files] creates at most [.env.example] and
    [config.example.json], each only when no file of that name exists: a
    file that exists keeps its content, the store and the environment are
    untouched, a missing [.env.example] gets the example text, and a second
    call changes nothing. *)
Theorem create_example_files_keeps_existing json_dumps json_dumps_cut w self :
  let w' := create_example_files json_dumps json_dumps_cut w self in
  (forall p text, Alist.get (w_files w) p = Some text ->
                  Alist.get (w_files w') p = Some text) /\
  (forall p, p <> ".env.example" -> p <> "config.example.json" ->
             Alist.get (w_files w') p = Alist.get (w_files w) p) /\
  (Alist.get (w_files w) ".env.example" = None ->
   Alist.get (w_files w') ".env.example" = Some env_content) /\
  w_heap w' = w_heap w /\ w_environ w' = w_environ w /\
  create_example_files json_dumps json_dumps_cut w' self = w'.
Proof.
  intros w'. subst w'.
  destruct (create_example_files_frame json_dumps json_dumps_cut w self) as [Hh He].
  repeat split; try done.
  - intros p text Hp. by rewrite create_example_files_get, Hp.
  - intros p Hp Hp'. rewrite create_example_files_get.
    destruct (Alist.get (w_files w) p); [done|].
    apply String.eqb_neq in Hp, Hp'. rewrite String.eqb_sym in Hp, Hp'.
    by rewrite Hp, Hp'.
  - intros Hnone. by rewrite create_example_files_get, Hnone.
  - pose proof (create_example_files_get json_dumps json_dumps_cut w self ".env.example") as H1.
    pose proof (create_example_files_get json_dumps json_dumps_cut w self "config.example.json") as H2.
    destruct (Alist.get (w_files w) ".env.example");
      destruct (Alist.get (w_files w) "config.example.json");
      (eapply create_example_files_exist; [exact H1 | exact H2]).
Qed.

Lemma example_assignments :
  omap dotenv_assignment (text_lines env_content) =
    [ ("BINANCE_API_KEY", "your_api_key_here");
      ("BINANCE_API_SECRET", "your_api_secret_here");
      ("BINANCE_TESTNET", "true");
      ("DEFAULT_SYMBOL", "BTCUSDT");
      ("MAX_QUANTITY", "1000");
      ("MIN_QUANTITY", "0.001");
      ("LOG_LEVEL", "INFO");
      ("MAX_LOG_SIZE", "10485760");
      ("LOG_BACKUP_COUNT", "5");
      ("MAX_DAILY_TRADES", "50");
      ("MAX_POSITION_SIZE", "100");
      ("ENABLE_STOP_LOSS", "true") ].
Proof. vm_compute. reflexivity. Qed.

Lemma accepted_forallb lines :
  forallb (fun line => match dotenv_assignment line with
                       | Some (k, v) => environ_accepts k v
                       | None => true
                       end) lines = true ->
  Forall (fun line => forall k v,
            dotenv_assignment line = Some (k, v) -> environ_accepts k v = true) lines.
Proof.
  intros Hall. apply Forall_forall. intros line Hin k v Hline.
  rewrite forallb_forall in Hall. apply list_elem_of_In in Hin.
  specialize (Hall line Hin). by rewrite Hline in Hall.
Qed.

Lemma example_environ w ef name :
  Alist.get (w_files w) ef = Some env_content ->
  Alist.get (dotenv_environ w ef) name =
    match Alist.get (rev (omap dotenv_assignment (text_lines env_content))) name with
    | Some v => Some v
    | None => Alist.get (w_environ w) name
    end.
Proof.
  intros Hf. unfold dotenv_environ. rewrite Hf.
  rewrite env_file_loop_assign_all; [apply alist_get_assign_all|].
  apply accepted_forallb. vm_compute. reflexivity.
Qed.

(** What [get] returns at the path of a table variable that is set. *)
Lemma init_env_get json_loads w cf ef self w' name s k text default :
  __init__ json_loads w cf ef = Ok (self, w') ->
  In (name, (s, k)) env_mappings ->
  Alist.get (dotenv_environ w ef) name = Some text ->
  get (w_heap w') self (dotted (s, k)) default = Ok (_convert_env_value text).
Proof.
  intros Hok Hin Hset.
  destruct (init_tree _ _ _ _ _ _ Hok) as (fp & Hrepr & _ & Hsteps).
  pose proof env_mappings_shape as Hshape. rewrite Forall_forall in Hshape.
  destruct (Hshape (name, (s, k))) as [_ Hsplit]; [by apply list_elem_of_In|].
  cbn [fst snd] in Hsplit.
  rewrite (get_leaf _ _ _ _ _ _ (scalar_json (_convert_env_value text)) Hrepr).
  - f_equal. apply leaf_value_scalar_json, convert_env_value_scalar.
  - rewrite Hsplit.
    apply (env_apply_get _ env_mappings _ name s k text);
      [exact env_mappings_distinct | exact Hsteps | exact Hin | exact Hset].
  - apply scalar_json_not_obj.
Qed.

(** X14: with the example dotenv text as the dotenv file, unchanged, every
    manager construction produces passes [validate_config]: the placeholder
    credentials [your_api_key_here] and [your_api_secret_here] are what
    [get_api_credentials] returns, and the limits, the symbol and the log
    level the text names are the accepted ones -- whatever the process
    environment and the structured file say there. *)
Theorem example_env_passes_validation json_loads w cf ef self w' :
  Alist.get (w_files w) ef = Some env_content ->
  __init__ json_loads w cf ef = Ok (self, w') ->
  get_api_credentials (w_heap w') self =
    Ok (VStr "your_api_key_here", VStr "your_api_secret_here") /\
  validate_config (w_heap w') self = Ok (true, []).
Proof.
  intros Hf Hok.
  assert (Hget : forall name s k text default,
            In (name, (s, k)) env_mappings ->
            Alist.get (rev (omap dotenv_assignment (text_lines env_content))) name
              = Some text ->
            get (w_heap w') self (dotted (s, k)) default = Ok (_convert_env_value text)).
  { intros name s k text default Hin Hname.
    apply (init_env_get _ _ _ _ _ _ name s k text default Hok Hin).
    by rewrite (example_environ _ _ _ Hf), Hname. }
  rewrite example_assignments in Hget.
  assert (Hkey : get (w_heap w') self "api.key" VNone = Ok (VStr "your_api_key_here")).
  { apply (Hget "BINANCE_API_KEY" "api" "key" "your_api_key_here");
      [simpl; tauto | reflexivity]. }
  assert (Hsec : get (w_heap w') self "api.secret" VNone
                 = Ok (VStr "your_api_secret_here")).
  { apply (Hget "BINANCE_API_SECRET" "api" "secret" "your_api_secret_here");
      [simpl; tauto | reflexivity]. }
  assert (Hcred : get_api_credentials (w_heap w') self =
                  Ok (VStr "your_api_key_here", VStr "your_api_secret_here")).
  { unfold get_api_credentials. rewrite Hkey, Hsec. reflexivity. }
  split; [exact Hcred|].
  unfold validate_config, validate_checks, get_risk_limits, get_default_symbol.
  rewrite Hcred.
  assert (H1 : get (w_heap w') self "risk_management.max_daily_trades" (VInt 50)
               = Ok (_convert_env_value "50")).
  { apply (Hget "MAX_DAILY_TRADES" "risk_management" "max_daily_trades" "50");
      [simpl; tauto | reflexivity]. }
  assert (H2 : get (w_heap w') self "risk_management.max_position_size" (VInt 100)
               = Ok (_convert_env_value "100")).
  { apply (Hget "MAX_POSITION_SIZE" "risk_management" "max_position_size" "100");
      [simpl; tauto | reflexivity]. }
  assert (H3 : get (w_heap w') self "trading.max_quantity" (VInt 1000)
               = Ok (_convert_env_value "1000")).
  { apply (Hget "MAX_QUANTITY" "trading" "max_quantity" "1000");
      [simpl; tauto | reflexivity]. }
  assert (H4 : get (w_heap w') self "trading.min_quantity"
                 (VFloat (PyNum.float_of_decimal false 1 (-3)))
               = Ok (_convert_env_value "0.001")).
  { apply (Hget "MIN_QUANTITY" "trading" "min_quantity" "0.001");
      [simpl; tauto | reflexivity]. }
  assert (H5 : get (w_heap w') self "trading.default_symbol" (VStr "BTCUSDT")
               = Ok (_convert_env_value "BTCUSDT")).
  { apply (Hget "DEFAULT_SYMBOL" "trading" "default_symbol" "BTCUSDT");
      [simpl; tauto | reflexivity]. }
  assert (H6 : get (w_heap w') self "logging.log_level" (VStr "INFO")
               = Ok (_convert_env_value "INFO")).
  { apply (Hget "LOG_LEVEL" "logging" "log_level" "INFO");
      [simpl; tauto | reflexivity]. }
  rewrite H1, H2, H3, H4, H5, H6.
  vm_compute. reflexivity.
Qed.

(** ** Strings: [upper], [lower] and [strip] *)

Lemma upper_char_idem c : PyStr.upper_char (PyStr.upper_char c) = PyStr.upper_char c.
Proof. destruct c as [[] [] [] [] [] [] [] []]; reflexivity. Qed.

Lemma upper_lower_char c : PyStr.upper_char (PyStr.lower_char c) = PyStr.upper_char c.
Proof. destruct c as [[] [] [] [] [] [] [] []]; reflexivity. Qed.

Lemma is_space_upper_char c : PyStr.is_space (PyStr.upper_char c) = PyStr.is_space c.
Proof. destruct c as [[] [] [] [] [] [] [] []]; reflexivity. Qed.

Lemma upper_idem s : PyStr.upper (PyStr.upper s) = PyStr.upper s.
Proof.
  unfold PyStr.upper. induction s as [|c r IH]; simpl; [done|].
  by rewrite upper_char_idem, IH.
Qed.

Lemma upper_lower s : PyStr.upper (PyStr.lower s) = PyStr.upper s.
Proof.
  unfold PyStr.upper, PyStr.lower. induction s as [|c r IH]; simpl; [done|].
  by rewrite upper_lower_char, IH.
Qed.

Lemma upper_lstrip s : PyStr.upper (PyStr.lstrip s) = PyStr.lstrip (PyStr.upper s).
Proof.
  unfold PyStr.upper. induction s as [|c r IH]; [done|].
  cbn [PyStr.lstrip PyStr.smap]. rewrite is_space_upper_char.
  by destruct (PyStr.is_space c).
Qed.

Lemma upper_rstrip s : PyStr.upper (PyStr.rstrip s) = PyStr.rstrip (PyStr.upper s).
Proof.
  unfold PyStr.upper. induction s as [|c r IH]; [done|].
  cbn [PyStr.rstrip PyStr.smap]. rewrite <- IH, is_space_upper_char.
  destruct (PyStr.rstrip r); cbn [PyStr.smap]; [|done].
  by destruct (PyStr.is_space c).
Qed.

Lemma upper_strip s : PyStr.upper (PyStr.strip s) = PyStr.strip (PyStr.upper s).
Proof. unfold PyStr.strip. by rewrite upper_rstrip, upper_lstrip. Qed.

Lemma lstrip_head s :
  PyStr.lstrip s = "" \/ exists c r, PyStr.lstrip s = String c r /\ PyStr.is_space c = false.
Proof.
  induction s as [|c r IH]; [by left|]. cbn [PyStr.lstrip].
  destruct (PyStr.is_space c) eqn:E; [exact IH|]. right. eauto.
Qed.

Lemma rstrip_head c r :
  PyStr.is_space c = false -> exists r', PyStr.rstrip (String c r) = String c r'.
Proof.
  intros Hc. cbn [PyStr.rstrip]. rewrite Hc. destruct (PyStr.rstrip r); eauto.
Qed.

Lemma rstrip_idem s : PyStr.rstrip (PyStr.rstrip s) = PyStr.rstrip s.
Proof.
  induction s as [|c r IH]; [done|]. cbn [PyStr.rstrip].
  destruct (PyStr.rstrip r) as [|x y] eqn:E.
  - destruct (PyStr.is_space c) eqn:Hc; [done|]. cbn [PyStr.rstrip]. by rewrite Hc.
  - cbn [PyStr.rstrip]. cbn [PyStr.rstrip] in IH.
    destruct (match PyStr.rstrip y with
              | "" => if PyStr.is_space x then "" else String x ""
              | String a s0 => String x (String a s0)
              end) eqn:E'; [done|].
    by rewrite IH.
Qed.

Lemma strip_idem s : PyStr.strip (PyStr.strip s) = PyStr.strip s.
Proof.
  unfold PyStr.strip.
  destruct (lstrip_head s) as [->|(c & r & -> & Hc)]; [done|].
  destruct (rstrip_head c r Hc) as (r' & Hr). rewrite Hr.
  cbn [PyStr.lstrip]. rewrite Hc, <- Hr. apply rstrip_idem.
Qed.

Lemma strip_upper_strip_upper s :
  PyStr.strip (PyStr.upper (PyStr.strip (PyStr.upper s))) = PyStr.strip (PyStr.upper s).
Proof. by rewrite upper_strip, upper_idem, strip_idem. Qed.

(** ** The validators of utils.py *)

(** X15: [validate_trading_pair] is idempotent: formatting a formatted
    symbol gives the same symbol and the same warning; and for ASCII text
    the symbol it returns does not depend on the case of the letters
    typed. *)
Theorem validate_trading_pair_idempotent symbol :
  Utils.validate_trading_pair (fst (Utils.validate_trading_pair symbol)) =
    Utils.validate_trading_pair symbol /\
  (PyStr.is_ascii symbol = true ->
   Utils.validate_trading_pair (PyStr.lower symbol) = Utils.validate_trading_pair symbol).
Proof.
  unfold Utils.validate_trading_pair. cbn [fst].
  by rewrite strip_upper_strip_upper, upper_lower.
Qed.

Lemma in_list_In s l : PyStr.in_list s l = true <-> In s l.
Proof.
  unfold PyStr.in_list. rewrite existsb_exists. split.
  - intros (x & Hin & Heq). apply String.eqb_eq in Heq. by subst x.
  - intros Hin. exists s. split; [done | apply String.eqb_refl].
Qed.

(** X16: [validate_order_side] returns only BUY or SELL, and
    [validate_order_type] only MARKET, LIMIT or STOP-LIMIT; what they return
    they accept again unchanged; the only exception they raise is
    [ValueError]; the answer does not depend on white space around the
    text, nor, for ASCII text, on the case of the letters. *)
Theorem validate_order_side_and_type :
  (forall s r, Utils.validate_order_side s = Ok r ->
     In r ["BUY"; "SELL"] /\ Utils.validate_order_side r = Ok r) /\
  (forall s r, Utils.validate_order_type s = Ok r ->
     In r ["MARKET"; "LIMIT"; "STOP-LIMIT"] /\ Utils.validate_order_type r = Ok r) /\
  (forall s e, Utils.validate_order_side s = Raise e \/
               Utils.validate_order_type s = Raise e -> e = ValueError) /\
  (forall s, Utils.validate_order_side (PyStr.strip s) = Utils.validate_order_side s /\
             Utils.validate_order_type (PyStr.strip s) = Utils.validate_order_type s) /\
  (forall s, PyStr.is_ascii s = true ->
             Utils.validate_order_side (PyStr.lower s) = Utils.validate_order_side s /\
             Utils.validate_order_type (PyStr.lower s) = Utils.validate_order_type s).
Proof.
  unfold Utils.validate_order_side, Utils.validate_order_type.
  split; [|split; [|split; [|split]]].
  - intros s r.
    destruct (PyStr.in_list (PyStr.strip (PyStr.upper s)) ["BUY"; "SELL"]) eqn:E;
      [|discriminate].
    intros [= <-]. rewrite strip_upper_strip_upper, E.
    split; [by apply in_list_In | reflexivity].
  - intros s r.
    destruct (PyStr.in_list (PyStr.strip (PyStr.upper s))
                ["MARKET"; "LIMIT"; "STOP-LIMIT"]) eqn:E; [|discriminate].
    intros [= <-]. rewrite strip_upper_strip_upper, E.
    split; [by apply in_list_In | reflexivity].
  - intros s e [H|H];
      match type of H with
      | (if negb ?b then _ else _) = _ => destruct b
      end; by inversion H.
  - intros s. by rewrite !upper_strip, !strip_idem.
  - intros s _. by rewrite !upper_lower.
Qed.

(** ** [validate_input] *)

Lemma validate_input_step s rest ty min_value max_value :
  Utils.validate_input (Utils.Line s :: rest) ty min_value max_value =
    let again (m : Utils.message) :=
      let '(o, ms, unread) := Utils.validate_input rest ty min_value max_value in
      (o, m :: ms, unread) in
    match ty with
    | Utils.TStr =>
        if negb (String.eqb (PyStr.strip s) "")
        then (Utils.Returned (VStr (PyStr.upper (PyStr.strip s))), [], rest)
        else again Utils.EmptyInput
    | _ =>
        match Utils.convert ty (PyStr.strip s) with
        | None => again Utils.InvalidInput
        | Some v =>
            if match min_value with Some m => Utils.below v m | None => false end
            then again Utils.AtLeast
            else if match max_value with Some m => Utils.above v m | None => false end
            then again Utils.AtMost
            else (Utils.Returned v, [], rest)
        end
    end.
Proof. reflexivity. Qed.

(** X17: when [validate_input] returns, one message was printed for each
    line it refused, and the value comes from the next line: for [str], the
    stripped line in upper case, which is not empty; for a number, the
    conversion of the stripped line, which is not below the minimum and not
    above the maximum that were given. *)
Theorem validate_input_returned inputs : forall ty min_value max_value v msgs unread,
  Utils.validate_input inputs ty min_value max_value = (Utils.Returned v, msgs, unread) ->
  (exists refused s,
     inputs = map Utils.Line refused ++ Utils.Line s :: unread /\
     List.length refused = List.length msgs /\
     match ty with
     | Utils.TStr => PyStr.strip s <> "" /\ v = VStr (PyStr.upper (PyStr.strip s))
     | _ => Utils.convert ty (PyStr.strip s) = Some v
     end) /\
  (forall m, min_value = Some m -> Utils.below v m = false) /\
  (forall m, max_value = Some m -> Utils.above v m = false).
Proof.
  induction inputs as [|[s|] rest IH]; intros ty mn mx v msgs unread Hrun;
    [discriminate | | discriminate].
  rewrite validate_input_step in Hrun. cbv zeta in Hrun.
  assert (Hagain : forall m,
    (let '(o, ms, unread0) := Utils.validate_input rest ty mn mx in (o, m :: ms, unread0))
      = (Utils.Returned v, msgs, unread) ->
    (exists refused s0,
       Utils.Line s :: rest = map Utils.Line refused ++ Utils.Line s0 :: unread /\
       List.length refused = List.length msgs /\
       match ty with
       | Utils.TStr => PyStr.strip s0 <> "" /\ v = VStr (PyStr.upper (PyStr.strip s0))
       | _ => Utils.convert ty (PyStr.strip s0) = Some v
       end) /\
    (forall m, mn = Some m -> Utils.below v m = false) /\
    (forall m, mx = Some m -> Utils.above v m = false)).
  { intros m Hm.
    destruct (Utils.validate_input rest ty mn mx) as [[o ms] un] eqn:Hrest.
    injection Hm as -> <- ->.
    destruct (IH _ _ _ _ _ _ Hrest) as ((refused & s0 & -> & Hlen & Hv) & Hmin & Hmax).
    split; [|by split].
    exists (s :: refused), s0. split; [reflexivity|]. split; [simpl; by rewrite Hlen|done]. }
  assert (Hnum : forall ty', ty' = ty -> ty <> Utils.TStr ->
    match Utils.convert ty (PyStr.strip s) with
    | None =>
        let '(o, ms, unread0) := Utils.validate_input rest ty mn mx in
        (o, Utils.InvalidInput :: ms, unread0)
    | Some v0 =>
        if match mn with Some m => Utils.below v0 m | None => false end
        then let '(o, ms, unread0) := Utils.validate_input rest ty mn mx in
             (o, Utils.AtLeast :: ms, unread0)
        else if match mx with Some m => Utils.above v0 m | None => false end
             then let '(o, ms, unread0) := Utils.validate_input rest ty mn mx in
                  (o, Utils.AtMost :: ms, unread0)
             else (Utils.Returned v0, [], rest)
    end = (Utils.Returned v, msgs, unread) ->
    (exists refused s0,
       Utils.Line s :: rest = map Utils.Line refused ++ Utils.Line s0 :: unread /\
       List.length refused = List.length msgs /\
       Utils.convert ty (PyStr.strip s0) = Some v) /\
    (forall m, mn = Some m -> Utils.below v m = false) /\
    (forall m, mx = Some m -> Utils.above v m = false)).
  { intros ty' _ Hty Hrun'.
    assert (Hagain' : forall m,
      (let '(o, ms, unread0) := Utils.validate_input rest ty mn mx in (o, m :: ms, unread0))
        = (Utils.Returned v, msgs, unread) ->
      (exists refused s0,
         Utils.Line s :: rest = map Utils.Line refused ++ Utils.Line s0 :: unread /\
         List.length refused = List.length msgs /\
         Utils.convert ty (PyStr.strip s0) = Some v) /\
      (forall m, mn = Some m -> Utils.below v m = false) /\
      (forall m, mx = Some m -> Utils.above v m = false)).
    { intros m Hm. destruct (Hagain m Hm) as (Hex & Hb). split; [|exact Hb].
      destruct Hex as (refused & s0 & H1 & H2 & H3). exists refused, s0.
      by destruct ty. }
    destruct (Utils.convert ty (PyStr.strip s)) as [v0|] eqn:Hconv; [|by eapply Hagain'].
    destruct (match mn with Some m => Utils.below v0 m | None => false end) eqn:Hmin;
      [by eapply Hagain'|].
    destruct (match mx with Some m => Utils.above v0 m | None => false end) eqn:Hmax;
      [by eapply Hagain'|].
    injection Hrun' as <- <- <-.
    split; [|split].
    - exists [], s. by repeat split.
    - intros m ->. exact Hmin.
    - intros m ->. exact Hmax. }
  destruct ty.
  - destruct (String.eqb (PyStr.strip s) "") eqn:E; cbn [negb] in Hrun;
      [by eapply Hagain|].
    injection Hrun as <- <- <-. apply String.eqb_neq in E.
    split; [|split].
    + exists [], s. by repeat split.
    + by intros m _.
    + by intros m _.
  - by apply (Hnum Utils.TInt).
  - by apply (Hnum Utils.TFloat).
Qed.

Lemma SFltb_nan_l f : SFltb S754_nan f = false.
Proof. by destruct f. Qed.

Lemma SFltb_nan_r f : SFltb f S754_nan = false.
Proof. by destruct f as [| [] | |]. Qed.

Lemma find_symbol_found items symbol : forall s,
  find_symbol items symbol = Some s ->
  exists before after ms,
    items = before ++ s :: after /\ s = JObj ms /\
    Alist.get ms "symbol" = Some (JStr symbol) /\
    Forall (fun b => exists bs x, b = JObj bs /\ Alist.get bs "symbol" = Some x /\
                                  x <> JStr symbol) before.
Proof.
  induction items as [|i items IH]; intros s Hfind; [discriminate|].
  cbn [find_symbol] in Hfind.
  destruct i as [| | | | | |ms]; try discriminate.
  destruct (Alist.get ms "symbol") as [x|] eqn:Hx; [|discriminate].
  assert (Hnext : x <> JStr symbol -> find_symbol items symbol = Some s ->
            exists before after ms0,
              JObj ms :: items = before ++ s :: after /\ s = JObj ms0 /\
              Alist.get ms0 "symbol" = Some (JStr symbol) /\
              Forall (fun b => exists bs x, b = JObj bs /\ Alist.get bs "symbol" = Some x /\
                                            x <> JStr symbol) before).
  { intros Hne Hrest.
    destruct (IH s Hrest) as (before & after & ms0 & -> & -> & Hsym & Hall).
    exists (JObj ms :: before), after, ms0. repeat split; try done.
    apply List.Forall_cons; [|done]. eauto. }
  destruct x as [| | | |x| |]; try (by apply Hnext).
  destruct (String.eqb x symbol) eqn:E.
  - apply String.eqb_eq in E; subst x. injection Hfind as <-.
    exists [], items, ms. repeat split; try done; try apply List.Forall_nil.
  - apply String.eqb_neq in E. apply Hnext; [congruence | done].
Qed.

(** X18: [get_symbol_info] returns an entry only when it is a mapping whose
    [symbol] is the symbol asked for, and every entry listed before it is a
    mapping with another [symbol]: an entry without one, or one that is not
    a mapping, hides every entry after it. *)
Theorem get_symbol_info_found exchange_info symbol s :
  get_symbol_info exchange_info symbol = Some s ->
  exists info items before after ms,
    exchange_info = Some (JObj info) /\
    Alist.get info "symbols" = Some (JArr items) /\
    items = before ++ s :: after /\ s = JObj ms /\
    Alist.get ms "symbol" = Some (JStr symbol) /\
    Forall (fun b => exists bs x, b = JObj bs /\ Alist.get bs "symbol" = Some x /\
                                  x <> JStr symbol) before.
Proof.
  unfold get_symbol_info. intros Hget.
  destruct exchange_info as [[| | | | | |info]|]; try discriminate.
  destruct (Alist.get info "symbols") as [[| | | | |items|]|] eqn:Hs; try discriminate.
  destruct (find_symbol_found _ _ _ Hget) as (before & after & ms & H1 & H2 & H3 & H4).
  exists info, items, before, after, ms. by repeat split.
Qed.

Lemma get_symbol_info_shape exchange_info symbol s :
  get_symbol_info exchange_info symbol = Some s ->
  exists ms x, s = JObj ms /\ Alist.get ms "symbol" = Some x.
Proof.
  unfold get_symbol_info. intros Hget.
  destruct exchange_info as [[| | | | | |info]|]; try discriminate.
  destruct (Alist.get info "symbols") as [[| | | | |items|]|]; try discriminate.
  destruct (find_symbol_found _ _ _ Hget) as (_ & _ & ms & _ & -> & H3 & _). eauto.
Qed.

(** X19: the text [nan] passes every range check: [validate_input] with
    [float] returns the NaN for it whatever the minimum and the maximum; and
    [validate_order_params] accepts a NaN quantity whenever the exchange
    lists the symbol and the price, if one is given, is not [<= 0]. *)
Theorem nan_quantity_is_accepted :
  (forall rest min_value max_value,
     Utils.validate_input (Utils.Line "nan" :: rest) Utils.TFloat min_value max_value =
       (Utils.Returned (VFloat S754_nan), [], rest)) /\
  (forall exchange_info symbol price s,
     get_symbol_info exchange_info symbol = Some s ->
     validate_order_params exchange_info symbol S754_nan price =
       match price with Some p => negb (SFleb p PyNum.fzero) | None => true end).
Proof.
  split.
  - intros rest mn mx. rewrite validate_input_step. cbv zeta.
    change (Utils.convert Utils.TFloat (PyStr.strip "nan")) with (Some (VFloat S754_nan)).
    cbn [Utils.below Utils.above].
    destruct mn, mx; by rewrite ?SFltb_nan_l, ?SFltb_nan_r.
  - intros info symbol price s Hs. unfold validate_order_params. rewrite Hs.
    destruct (get_symbol_info_shape _ _ _ Hs) as (ms & x & -> & Hx).
    assert (Ht : json_truthy (JObj ms) = true).
    { destruct ms; [discriminate Hx | reflexivity]. }
    rewrite Ht. cbn [negb].
    change (SFleb S754_nan PyNum.fzero) with false. cbv iota.
    destruct price as [p|]; [|done]. by destruct (SFleb p PyNum.fzero).
Qed.

(** ** The defaults follow the configuration *)

Lemma load_from_json_nothing json_loads w self :
  file_members json_loads w (config_file self) = [] ->
  _load_from_json json_loads w self = w.
Proof.
  unfold file_members, _load_from_json.
  destruct (Alist.get (w_files w) (config_file self)) as [text|]; [|done].
  destruct (json_loads text) as [[| | | | | |ms]|]; try done.
  intros ->. by destruct w.
Qed.

(** Construction without a structured document: the working dictionary and
    the stored defaults are two dictionaries with the same entries. *)
Lemma init_stages_shared json_loads w cf ef :
  file_members json_loads w cf = [] ->
  exists c d h1 dd fpm,
    __init__ json_loads w cf ef =
      (w2 ← _load_from_env_vars
              (_load_from_env_file (with_heap w h1) (Manager cf ef c d))
              (Manager cf ef c d);
       Ok (Manager cf ef c d, w2)) /\
    h1 !! c = Some dd /\ h1 !! d = Some dd /\ c <> d /\
    repr_members h1 dd default_members fpm /\ (c ∉ fpm) /\ (d ∉ fpm).
Proof.
  intros Hfile. unfold __init__, alloc.
  destruct (_get_default_config (w_heap w ++ [[]])) as [d h2] eqn:Ed.
  destruct (_get_default_config_repr _ _ _ Ed) as (fpd & Hrd & Hged & Hlend & Holdd).
  apply repr_obj_inv in Hrd as (d' & dd & fpm & [= <-] & -> & Hld & Hmd & Hnid).
  unfold load_config, alloc. cbn [w_heap with_heap defaults config_file env_file].
  rewrite (deref_lookup _ _ _ Hld).
  rewrite (load_from_json_nothing json_loads
             (with_heap (with_heap w h2) (h2 ++ [dd]))
             (Manager cf ef (List.length h2) d)) by exact Hfile.
  exists (List.length h2), d, (h2 ++ [dd]), dd, fpm.
  assert (Hd : (d < List.length h2)%nat) by (by eapply lookup_lt_Some).
  split; [reflexivity|]. split; [apply lookup_alloc_new|].
  split; [by rewrite lookup_alloc_old|]. split; [lia|]. split; [|split; [|done]].
  - eapply repr_members_frame; [exact Hmd|]. intros a Ha.
    apply lookup_alloc_old. by eapply repr_members_in_bounds.
  - intros Hin. pose proof (repr_members_in_bounds _ _ _ _ _ Hmd Hin). lia.
Qed.

Lemma json_set_keeps_sections T s k x s' :
  (exists j, json_get T [s'] = Some j) ->
  exists j, json_get (json_set T [s; k] x) [s'] = Some j.
Proof.
  intros [j Hj]. destruct T as [| | | | | |ms]; try done.
  rewrite json_set_section. cbn [json_get] in *. rewrite alist_get_set.
  destruct (String.eqb s s'); eauto.
Qed.

(** An assignment below a section that exists leaves the top dictionary. *)
Lemma set_from_keeps_top h c T fp s k v h' :
  repr h (VDict c) T fp ->
  (exists j, json_get T [s] = Some j) ->
  set_from h (VDict c) [s; k] v = Ok h' ->
  h' !! c = h !! c.
Proof.
  intros Hrepr [j Hj] Hset.
  apply repr_dict_inv in Hrepr as (dc & ms & fp' & -> & -> & Hc & Hm & Hni).
  cbn [json_get] in Hj.
  pose proof (repr_members_get _ _ _ _ s Hm) as Hs.
  rewrite set_from_step in Hset. cbn [contains getitem] in Hset.
  rewrite (deref_lookup _ _ _ Hc) in Hset. unfold Alist.has in Hset.
  destruct (Alist.get dc s) as [v'|] eqn:Hv'.
  - cbn [mbind result_bind bind negb] in Hset.
    rewrite (deref_lookup _ _ _ Hc), Hv' in Hset.
    cbn [mbind result_bind bind] in Hset. rewrite set_from_last in Hset.
    destruct Hs as (j' & fpk & _ & Hrv & Hsub).
    destruct v' as [| | | | | |a]; try discriminate Hset.
    cbn [setitem] in Hset. injection Hset as <-.
    apply lookup_store_ne. intros ->. apply Hni, Hsub.
    apply repr_dict_inv in Hrv as (? & ? & ? & _ & -> & _). by left.
  - destruct (Alist.get ms s); [discriminate Hs | discriminate Hj].
Qed.

Lemma env_vars_loop_keeps_top self table : forall w T fp w',
  repr (w_heap w) (VDict (config self)) T fp ->
  (forall n s k, In (n, (s, k)) table -> exists j, json_get T [s] = Some j) ->
  env_vars_loop w self table = Ok w' ->
  w_heap w' !! config self = w_heap w !! config self.
Proof.
  induction table as [|[n [s k]] table IH]; intros w T fp w' Hrepr Hsec Hloop.
  - by injection Hloop as <-.
  - rewrite env_vars_loop_step in Hloop.
    assert (Hrest : forall n s k, In (n, (s, k)) table -> exists j, json_get T [s] = Some j).
    { intros n' s' k' Hin. apply (Hsec n' s' k'). by right. }
    destruct (os_getenv w n) as [t|] eqn:Hn; [|by eapply IH].
    destruct (settable T [s; k]) eqn:Hset.
    + destruct (set_from_repr [k] s (w_heap w) _ T fp (_convert_env_value t)
                  (scalar_json (_convert_env_value t)) Hrepr Hset)
        as (h2 & fp2 & Hset2 & Hr2 & _).
      { intros h'. apply repr_scalar, convert_env_value_scalar. }
      rewrite Hset2 in Hloop. cbn [mbind result_bind bind] in Hloop.
      rewrite (IH (with_heap w h2) _ fp2 w' Hr2); [|
        intros n' s' k' Hin; by eapply json_set_keeps_sections, Hrest | exact Hloop].
      cbn [w_heap with_heap].
      apply (set_from_keeps_top _ _ _ _ _ _ _ _ Hrepr (Hsec n s k (or_introl eq_refl)) Hset2).
    + rewrite (set_from_raises [k] s (w_heap w) _ T fp) in Hloop by done. discriminate.
Qed.

Lemma env_mappings_default_sections n s k :
  In (n, (s, k)) env_mappings -> exists j, json_get default_config [s] = Some j.
Proof.
  intros Hin. pose proof env_mappings_shape as Hshape. rewrite Forall_forall in Hshape.
  destruct (Hshape (n, (s, k))) as [Hs _]; [by apply list_elem_of_In|].
  cbn [fst snd] in Hs.
  destruct (default_sections_are_mappings s Hs) as [bo Hbo].
  exists (JObj bo). unfold default_config. cbn [json_get]. by rewrite Hbo.
Qed.

(** X20: when construction reads no structured document (no file, a file
    that does not parse, or one that holds no member), the stored defaults
    are, afterwards, the working configuration itself: [json.dump] gives the
    same document for both, the built-in defaults with every table variable
    that is set written in.  So [create_example_files], which dumps the
    stored defaults, writes the value of BINANCE_API_KEY and of
    BINANCE_API_SECRET into [config.example.json] when these are set. *)
Theorem defaults_follow_config json_loads w cf ef self w' :
  file_members json_loads w cf = [] ->
  __init__ json_loads w cf ef = Ok (self, w') ->
  let doc := env_apply (Alist.get (dotenv_environ w ef)) default_config env_mappings in
  dump (w_heap w') (VDict (config self)) = Some doc /\
  dump (w_heap w') (VDict (defaults self)) = Some doc /\
  (forall name section key text,
     In (name, (section, key)) env_mappings ->
     Alist.get (dotenv_environ w ef) name = Some text ->
     json_get doc [section; key] = Some (scalar_json (_convert_env_value text))) /\
  (forall json_dumps json_dumps_cut,
     Alist.get (w_files w') "config.example.json" = None ->
     Alist.get (w_files (create_example_files json_dumps json_dumps_cut w' self))
       "config.example.json" = Some (json_dumps doc)).
Proof.
  intros Hfile Hok doc.
  destruct (init_tree _ _ _ _ _ _ Hok) as (fp' & Hr' & _ & Hsteps).
  rewrite Hfile, merge_tree_nil in Hr', Hsteps.
  fold default_config in Hr', Hsteps. fold doc in Hr'.
  destruct (init_stages_shared json_loads w cf ef Hfile)
    as (c & d & h1 & dd & fpm & Hinit & Hc & Hd & Hcd & Hmd & Hnc & Hnd).
  rewrite load_from_env_vars_eq in Hinit.
  destruct (load_from_env_file_frame (with_heap w h1) (Manager cf ef c d)) as [Hh1 _].
  remember (_load_from_env_file (with_heap w h1) (Manager cf ef c d)) as w1 eqn:Ew1.
  clear Ew1. cbn [w_heap with_heap] in Hh1.
  rewrite Hinit in Hok.
  destruct (env_vars_loop w1 (Manager cf ef c d) env_mappings) as [w2|] eqn:Hloop;
    [|discriminate Hok].
  injection Hok as <- <-. cbn [config defaults] in *.
  assert (Hr1 : repr (w_heap w1) (VDict c) default_config (c :: fpm)).
  { rewrite Hh1. by apply (repr_dict _ _ dd). }
  pose proof (env_vars_loop_keeps_top (Manager cf ef c d) env_mappings w1 _ _ w2 Hr1
                env_mappings_default_sections Hloop) as Htop.
  cbn [config] in Htop. rewrite Hh1, Hc in Htop.
  pose proof (env_vars_loop_settable (Manager cf ef c d) _ _ _ _ _ Hr1 Hloop) as Hst.
  destruct (env_vars_loop_repr (Manager cf ef c d) _ _ _ _ Hr1 Hst)
    as (w2' & fp2 & Hloop' & Hr2 & _ & _ & Hpres & Hgrown).
  assert (w2' = w2) by congruence; subst w2'.
  destruct (repr_unique _ _ _ _ _ _ Hr2 Hr') as [_ ->]. clear Hr2.
  assert (Hdlt : (d < List.length (w_heap w1))%nat).
  { rewrite Hh1. by eapply lookup_lt_Some. }
  assert (Hd2 : w_heap w2 !! d = Some dd).
  { destruct Hpres as [_ Hsame]. rewrite Hsame; [by rewrite Hh1 | exact Hdlt |].
    intros Hin. apply elem_of_cons in Hin as [->|Hin]; [done | by apply Hnd]. }
  assert (Hdump : dump (w_heap w2) (VDict c) = Some doc) by (by eapply dump_repr).
  assert (Hdumpd : dump (w_heap w2) (VDict d) = Some doc).
  { pose proof Hr' as Hrc.
    apply repr_dict_inv in Hrc as (dc & ms & fpc & Hdoc & -> & Hc2 & Hm2 & Hni2).
    rewrite Htop in Hc2. injection Hc2 as <-.
    apply (dump_repr _ _ _ (d :: fpc)). rewrite Hdoc.
    apply (repr_dict _ _ dd); [exact Hd2 | exact Hm2 |].
    intros Hin.
    destruct (Hgrown d) as [Hold|Hnew]; [by right | | lia].
    apply elem_of_cons in Hold as [->|Hold]; [done | by apply Hnd]. }
  split; [exact Hdump|]. split; [exact Hdumpd|]. split.
  - intros name s k text Hin Hset. unfold doc.
    apply (env_apply_get _ env_mappings _ name s k text);
      [exact env_mappings_distinct | exact Hsteps | exact Hin | exact Hset].
  - intros json_dumps json_dumps_cut Hnone.
    rewrite create_example_files_get, Hnone. cbn [defaults]. by rewrite Hdumpd.
Qed.

(** ** The statements above, on concrete inputs *)

(** X2 on a file of three lines: [B=2], after the refused [=x], is not
    read. *)
Lemma env_file_stops_at_refused_line_witness :
  env_file_loop [] (["A=1"] ++ "=x" :: ["B=2"]) = env_file_loop [] ["A=1"].
Proof.
  apply (env_file_stops_at_refused_line [] ["A=1"] "=x" ["B=2"] "" "x"); reflexivity.
Defined.

(** X3: the file assigns B, and A keeps the value of the process. *)
Lemma env_file_keeps_unassigned_witness :
  os_getenv (_load_from_env_file (World [] [("A", "1")] [(".env", "B=2")]) sample_self) "A"
    = Some "1".
Proof.
  apply (env_file_keeps_unassigned (World [] [("A", "1")] [(".env", "B=2")])
           sample_self "A").
  intros text line v Htext Hin. injection Htext as <-.
  destruct Hin as [<-|[]]. vm_compute. discriminate.
Defined.

(** X4: the process has A=1, the file says A=2 and then A=3. *)
Lemma env_file_last_assignment_wins_witness :
  os_getenv
    (_load_from_env_file
       (World [] [("A", "1")] [(".env", file_text ["A=2"; "A=3"])]) sample_self) "A"
    = Some "3".
Proof.
  apply (env_file_last_assignment_wins
           (World [] [("A", "1")] [(".env", file_text ["A=2"; "A=3"])])
           sample_self (file_text ["A=2"; "A=3"]) "A"); [reflexivity|].
  apply accepted_forallb. reflexivity.
Defined.

(** X5 with LOG_LEVEL=DEBUG: the configuration holds DEBUG, the
    command-line interface reads INFO. *)
Lemma cli_log_config_ignores_settings_witness :
  exists self w',
    __init__ no_json (fresh_world [("LOG_LEVEL", "DEBUG")]) "config.json" ".env"
      = Ok (self, w') /\
    get (w_heap w') self "logging.log_level" VNone = Ok (VStr "DEBUG") /\
    cli_log_config (w_heap w') self =
      Ok [("log_level", VStr "INFO"); ("max_bytes", VInt 10485760);
          ("backup_count", VInt 5)].
Proof.
  eexists _, _. split; [vm_compute; reflexivity|]. split; [vm_compute; reflexivity|].
  apply (cli_log_config_ignores_settings no_json (fresh_world [("LOG_LEVEL", "DEBUG")])
           "config.json" ".env").
  - vm_compute. reflexivity.
  - intros key _. reflexivity.
Defined.

(** X6 on the sample, with no path given. *)
Lemma save_config_effect_witness :
  w_files (save_config sample_dumps (World sample_heap [] []) sample_self None)
    = [("config.json", "saved")].
Proof.
  assert (Hnd : NoDup (Alist.keys sample_tree)) by nodup_eval.
  exact (proj1 (save_config_effect sample_dumps (World sample_heap [] []) sample_self
                  sample_tree [0; 1; 2]%nat None sample_repr Hnd eq_refl)).
Defined.

(** X15 on a symbol typed in mixed case. *)
Lemma validate_trading_pair_idempotent_witness :
  PyStr.is_ascii " ethUSDT" = true /\
  Utils.validate_trading_pair (PyStr.lower " ethUSDT") =
    Utils.validate_trading_pair " ethUSDT".
Proof.
  split; [reflexivity|].
  exact (proj2 (validate_trading_pair_idempotent " ethUSDT") eq_refl).
Defined.

(** X16 on a side typed in lower case. *)
Lemma validate_order_side_and_type_witness :
  Utils.validate_order_side "buy" = Ok "BUY" /\
  In "BUY" ["BUY"; "SELL"] /\ Utils.validate_order_side "BUY" = Ok "BUY".
Proof.
  split; [reflexivity|].
  exact (proj1 validate_order_side_and_type "buy" "BUY" eq_refl).
Defined.

(** X7 on the sample, which [validate_config] accepts. *)
Lemma validate_config_true_witness :
  exists s, get_default_symbol sample_heap sample_self = Ok (VStr s) /\
            (3 <= String.length s)%nat.
Proof.
  assert (E : validate_config sample_heap sample_self = Ok (true, []))
    by (vm_compute; reflexivity).
  exact (proj1 (proj2 (proj2 (proj2 (validate_config_true _ _ _ E))))).
Defined.

(** X8 on the sample, which holds credentials: saved and read back. *)
Lemma saved_config_has_no_credentials_witness :
  let loads := sample_loads (JObj (safe_tree sample_tree)) in
  let w1 := save_config sample_dumps (World sample_heap [] []) sample_self
              (Some "config.json") in
  get_api_credentials sample_heap sample_self = Ok (VStr "k", VStr "s") /\
  exists self' w',
    __init__ loads w1 "config.json" ".env" = Ok (self', w') /\
    get_api_credentials (w_heap w') self' = Raise ValueError /\
    validate_config (w_heap w') self' = Ok (false, [ValidationFailed]).
Proof.
  intros loads w1. split; [reflexivity|].
  apply (saved_config_has_no_credentials loads sample_dumps (World sample_heap [] [])
           sample_self sample_tree [0; 1; 2]%nat "config.json" ".env"
           sample_repr sample_wf).
  - repeat apply List.Forall_cons; try apply List.Forall_nil; reflexivity.
  - discriminate.
  - reflexivity.
  - left. reflexivity.
Defined.

(** X9 on the sample: setting a.b.c leaves api.timeout. *)
Lemma set_keeps_other_paths_witness :
  exists h' T' fp',
    set sample_heap sample_self "a.b.c" (VInt 1) = Ok h' /\
    repr h' (VDict (config sample_self)) T' fp' /\
    json_get T' (PyStr.split "." "api.timeout") =
      json_get (JObj sample_tree) (PyStr.split "." "api.timeout") /\
    forall default,
      match json_get (JObj sample_tree) (PyStr.split "." "api.timeout") with
      | Some j => is_obj j = false
      | None => True
      end ->
      get h' sample_self "api.timeout" default =
        get sample_heap sample_self "api.timeout" default.
Proof.
  apply (set_keeps_other_paths sample_heap sample_self (JObj sample_tree)
           [0; 1; 2]%nat "a.b.c" "api.timeout" (VInt 1) sample_repr); reflexivity.
Defined.

(** X10 on the sample and the document of the example. *)
Lemma deep_merge_keeps_keys_witness :
  exists new,
    Alist.keys (deref (_deep_merge sample_heap 0 max_quantity_5) 0%nat) =
      Alist.keys (deref sample_heap 0%nat) ++ new /\
    forall k, In k new ->
      In k (Alist.keys max_quantity_5) /\ ~ In k (Alist.keys (deref sample_heap 0%nat)).
Proof.
  exact (deep_merge_keeps_keys sample_heap 0%nat sample_tree [0; 1; 2]%nat
           max_quantity_5 sample_repr).
Defined.

(** X12 on the defaults as [_get_default_config] builds them, and an empty
    dictionary. *)
Lemma getter_fallbacks_match_defaults_witness :
  let base := fst (_get_default_config []) in
  let h := snd (_get_default_config []) in
  get_risk_limits h (Manager "config.json" ".env" base base) =
    get_risk_limits [[]] sample_self /\
  get_supported_symbols h (Manager "config.json" ".env" base base) =
    Ok (VList [JStr "BTCUSDT"; JStr "ETHUSDT"; JStr "ADAUSDT"; JStr "DOTUSDT"]) /\
  get_supported_symbols [[]] sample_self = Ok (VList [JStr "BTCUSDT"; JStr "ETHUSDT"]).
Proof.
  intros base h.
  assert (E : _get_default_config [] = (base, h)) by reflexivity.
  destruct (_get_default_config_repr _ _ _ E) as (fp & Hr & _).
  assert (H0 : repr [[]] (VDict (config sample_self)) (JObj []) [0%nat]).
  { eassert (H : repr [[]] (VDict 0) (JObj []) _); [repr_eval | exact H]. }
  destruct (getter_fallbacks_match_defaults h (Manager "config.json" ".env" base base)
              fp [[]] sample_self [0%nat] Hr H0) as (_ & _ & H3 & _ & H5 & H6).
  by repeat split.
Defined.

(** X14 in a process that has only the example text as its dotenv file. *)
Lemma example_env_passes_validation_witness :
  exists self w',
    __init__ no_json (World [] [] [(".env", env_content)]) "config.json" ".env"
      = Ok (self, w') /\
    validate_config (w_heap w') self = Ok (true, []).
Proof.
  eexists _, _. split; [vm_compute; reflexivity|].
  refine (proj2 (example_env_passes_validation no_json
                   (World [] [] [(".env", env_content)]) "config.json" ".env" _ _ _ _)).
  - reflexivity.
  - vm_compute. reflexivity.
Defined.

(** X17 on two typed lines, with the minimum the command-line interface
    gives for a quantity: 0 is refused, 2 is returned. *)
Lemma validate_input_returned_witness :
  exists v,
    Utils.validate_input [Utils.Line "0"; Utils.Line "2"] Utils.TFloat
      (Some (PyNum.float_of_decimal false 1 (-3))) None
      = (Utils.Returned v, [Utils.AtLeast], []) /\
    Utils.below v (PyNum.float_of_decimal false 1 (-3)) = false.
Proof.
  eexists. split; [vm_compute; reflexivity|].
  refine (proj1 (proj2 (validate_input_returned
                   [Utils.Line "0"; Utils.Line "2"] Utils.TFloat
                   (Some (PyNum.float_of_decimal false 1 (-3))) None _
                   [Utils.AtLeast] [] _)) _ eq_refl).
  vm_compute. reflexivity.
Defined.

(** X18 on a list of two entries, the second the one asked for. *)
Lemma get_symbol_info_found_witness :
  exists info items before after ms,
    Some (JObj [("symbols", JArr [JObj [("symbol", JStr "ETHUSDT")];
                                  JObj [("symbol", JStr "BTCUSDT")]])])
      = Some (JObj info) /\
    Alist.get info "symbols" = Some (JArr items) /\
    items = before ++ JObj [("symbol", JStr "BTCUSDT")] :: after /\
    JObj [("symbol", JStr "BTCUSDT")] = JObj ms /\
    Alist.get ms "symbol" = Some (JStr "BTCUSDT") /\
    Forall (fun b => exists bs x, b = JObj bs /\ Alist.get bs "symbol" = Some x /\
                                  x <> JStr "BTCUSDT") before.
Proof.
  apply (get_symbol_info_found
           (Some (JObj [("symbols", JArr [JObj [("symbol", JStr "ETHUSDT")];
                                          JObj [("symbol", JStr "BTCUSDT")]])]))
           "BTCUSDT" (JObj [("symbol", JStr "BTCUSDT")])).
  reflexivity.
Defined.

(** X20 in a process with BINANCE_API_KEY=k and no file: the stored
    defaults hold the key. *)
Lemma defaults_follow_config_witness :
  exists self w' doc,
    __init__ no_json (fresh_world [("BINANCE_API_KEY", "k")]) "config.json" ".env"
      = Ok (self, w') /\
    dump (w_heap w') (VDict (defaults self)) = Some doc /\
    json_get doc ["api"; "key"] = Some (JStr "k").
Proof.
  destruct (__init__ no_json (fresh_world [("BINANCE_API_KEY", "k")])
              "config.json" ".env") as [[self w']|e] eqn:E;
    [|vm_compute in E; discriminate E].
  destruct (defaults_follow_config no_json (fresh_world [("BINANCE_API_KEY", "k")])
              "config.json" ".env" self w' eq_refl E) as (_ & Hd & Hk & _).
  eexists self, w', _. split; [reflexivity|]. split; [exact Hd|].
  apply (Hk "BINANCE_API_KEY" "api" "key" "k"); [simpl; tauto | reflexivity].
Defined.
